(** * SaaS reporting pipeline: billing ledger, analytics series, merge,
      time buckets and rates.

    A shallow embedding of the TypeScript sources
      - [src/app/actions.ts]                  (getDashboardData: range selection and the series merger)
      - [src/lib/lemonsqueezy.ts]             (fetchLemonSqueezyData: the billing ledger builder)
      - [src/lib/posthog.ts]                  (fetchPostHogData, generateMockPostHogData)
      - [src/components/dashboard-client.tsx] (aggregatedData: the time-bucket aggregator; the simple view)
      - [src/components/overview-chart.tsx]   (calculateRate, processedData, toggleMetric, the tooltip)

    Modelling conventions.
      - An instant ([Date]) is its number of milliseconds since the epoch, a [Z].
      - A date key (the string YYYY-MM-DD) is the number of the calendar day
        it names, counted from 1970-01-01: the ISO text of a day and its
        number determine each other, and for four-digit years the order of
        the texts is the order of the numbers.
      - The server code runs with UTC as the process time zone, so there
        [setDate(getDate() + 1)] adds 86400000 ms and
        [toISOString().split('T')[0]] is the floor of ms / 86400000.  The
        components run in the browser, whose time zone is a parameter
        ([TimeZone]).
      - Counts are [Z].  Money amounts are exact rationals [Q], so that a sum
        stands for the sum the doubles approximate; where the order of the
        additions is the point (the totals before and after bucketing) the
        aggregator is taken on binary64 numbers ([OnDoubles]).
      - A plain JS object used as a dictionary is an association list in
        insertion order with unique keys. *)

From Stdlib Require Import List ZArith QArith Qround Lia String Bool Arith Lqa Sorted Permutation SpecFloat.
Import ListNotations.
Open Scope Z_scope.

(** ** JS objects as insertion-ordered dictionaries *)

Section JsObject.
Context {K V : Type} (eqb : K -> K -> bool).

Definition JsObject := list (K * V).

(** [obj[k]]: the own property, or [undefined] *)
Fixpoint obj_get (o : JsObject) (k : K) : option V :=
  match o with
  | [] => None
  | (k', v) :: o' => if eqb k' k then Some v else obj_get o' k
  end.

(** [obj[k] = v]: overwrite in place, or append as the newest key *)
Fixpoint obj_set (o : JsObject) (k : K) (v : V) : JsObject :=
  match o with
  | [] => [(k, v)]
  | (k', v') :: o' =>
      if eqb k' k then (k', v) :: o' else (k', v') :: obj_set o' k v
  end.

Definition obj_keys (o : JsObject) : list K := map fst o.
Definition obj_values (o : JsObject) : list V := map snd o.
End JsObject.

Arguments JsObject : clear implicits.

(** ** The three record shapes *)

Definition DateKey := Z.

Module PostHogMetrics.
Record t := mk {
  date : DateKey;
  visitors : Z;
  pricingViews : Z;
  checkouts : Z;
  purchases : Z;
  referringDomains : JsObject string Z
}.
End PostHogMetrics.

Module LemonSqueezyMetrics.
Record t := mk {
  date : DateKey;
  mrr : Q;
  revenue : Q;
  renewalRevenue : Q;
  churnRate : Q;
  activeCustomers : Z;
  purchases : Z
}.
End LemonSqueezyMetrics.

Module DashboardData.
Record t := mk {
  date : DateKey;
  visitors : Z;
  pricingViews : Z;
  checkouts : Z;
  referringDomains : JsObject string Z;
  mrr : Q;
  revenue : Q;
  renewalRevenue : Q;
  churnRate : Q;
  activeCustomers : Z;
  purchases : Z
}.
End DashboardData.

Module PH := PostHogMetrics.
Module LS := LemonSqueezyMetrics.
Module DD := DashboardData.

(** ** Series merger (getDashboardData, the [lemonData.map] callback) *)

(** [postHogData.find(p => p.date === lemonItem.date) || { zeros, date }] *)
Definition postHogItemFor (postHogData : list PH.t) (lemonItem : LS.t) : PH.t :=
  match find (fun p => PH.date p =? LS.date lemonItem) postHogData with
  | Some p => p
  | None =>
      {| PH.visitors := 0; PH.pricingViews := 0; PH.checkouts := 0;
         PH.purchases := 0; PH.referringDomains := [];
         PH.date := LS.date lemonItem |}
  end.

(** [{ ...lemonItem, ...postHogItem, purchases: lemonItem.purchases }]:
    the spread of [postHogItem] comes second, so it wins on the two keys
    both records have ([date], [purchases]); [purchases] is then set again. *)
Definition mergeItem (postHogData : list PH.t) (lemonItem : LS.t) : DD.t :=
  let postHogItem := postHogItemFor postHogData lemonItem in
  {| DD.date := PH.date postHogItem;
     DD.visitors := PH.visitors postHogItem;
     DD.pricingViews := PH.pricingViews postHogItem;
     DD.checkouts := PH.checkouts postHogItem;
     DD.referringDomains := PH.referringDomains postHogItem;
     DD.mrr := LS.mrr lemonItem;
     DD.revenue := LS.revenue lemonItem;
     DD.renewalRevenue := LS.renewalRevenue lemonItem;
     DD.churnRate := LS.churnRate lemonItem;
     DD.activeCustomers := LS.activeCustomers lemonItem;
     DD.purchases := LS.purchases lemonItem |}.

Definition mergedData (lemonData : list LS.t) (postHogData : list PH.t)
  : list DD.t :=
  map (mergeItem postHogData) lemonData.

(** ** Calendar arithmetic on day numbers (UTC) *)

Definition MS_PER_DAY : Z := 86400000.

(** [toISOString().split('T')[0]] of an instant, as a day number *)
Definition isoDay (ms : Z) : DateKey := ms / MS_PER_DAY.

(** [getDay()]: 0 is Sunday; day 0 (1970-01-01) was a Thursday *)
Definition getDay (d : DateKey) : Z := (d + 4) mod 7.

(** year, month (1..12) and day of month of a day number, proleptic
    Gregorian calendar *)
Definition civil (d : DateKey) : Z * Z * Z :=
  let z := d + 719468 in
  let era := z / 146097 in
  let doe := z - era * 146097 in
  let yoe := (doe - doe / 1460 + doe / 36524 - doe / 146096) / 365 in
  let doy := doe - (365 * yoe + yoe / 4 - yoe / 100) in
  let mp := (5 * doy + 2) / 153 in
  let dom := doy - (153 * mp + 2) / 5 + 1 in
  let m := if mp <? 10 then mp + 3 else mp - 9 in
  let y := yoe + era * 400 + (if m <=? 2 then 1 else 0) in
  (y, m, dom).

(** [getDate()]: the day of the month *)
Definition getDate (d : DateKey) : Z := snd (civil d).

(** [setDate(n)]: day [n] counted from the first of the current month *)
Definition setDate (d : DateKey) (n : Z) : DateKey := d - (getDate d - 1) + (n - 1).

(** ** Local time in the browser

    The components run in the browser.  There [getDay], [getDate],
    [getFullYear], [getMonth] and [setDate] read and write the wall clock of
    the browser's time zone, while [new Date('YYYY-MM-DD')] and
    [toISOString] are UTC. *)

Record TimeZone := {
  offsetAt : Z -> Z;    (* wall clock minus UTC at an instant, in ms *)
  utcOfLocal : Z -> Z   (* the instant at which the wall clock shows a time *)
}.

Definition utc : TimeZone :=
  {| offsetAt := fun _ => 0; utcOfLocal := fun l => l |}.

(** a zone that keeps the same offset all year *)
Definition fixedOffset (off : Z) : TimeZone :=
  {| offsetAt := fun _ => off; utcOfLocal := fun l => l - off |}.

(** what the wall clock shows at an instant, and the calendar day it shows *)
Definition localTime (tz : TimeZone) (t : Z) : Z := t + offsetAt tz t.
Definition localDay (tz : TimeZone) (t : Z) : DateKey := isoDay (localTime tz t).

Definition localGetDay (tz : TimeZone) (t : Z) : Z := getDay (localDay tz t).
Definition localGetDate (tz : TimeZone) (t : Z) : Z := getDate (localDay tz t).

(** [t.setDate(n)]: the wall clock moves to day [n] of its month and keeps
    its time of day *)
Definition localSetDate (tz : TimeZone) (t : Z) (n : Z) : Z :=
  utcOfLocal tz (setDate (localDay tz t) n * MS_PER_DAY
                 + localTime tz t mod MS_PER_DAY).

(** [new Date('YYYY-MM-DD')]: midnight UTC of that day *)
Definition parseDate (d : DateKey) : Z := d * MS_PER_DAY.

(** ** Time-bucket aggregator (aggregatedData) *)

Inductive Granularity := day | week | month.

(** the bucket key of a record's date.  For [week] the date object is moved
    with [setDate] and printed with [toISOString]; for [month] the key is
    the first day of the month the wall clock shows. *)
Definition bucketKeyOf (tz : TimeZone) (granularity : Granularity)
  (date : DateKey) : DateKey :=
  let t := parseDate date in
  match granularity with
  | week =>
      let dow := localGetDay tz t in
      let diff := localGetDate tz t - dow + (if dow =? 0 then -6 else 1) in
      isoDay (localSetDate tz t diff)
  | month => setDate (localDay tz t) 1
  | day => date
  end.

(** [(bucket.referringDomains[domain] || 0) + count] for every entry of the
    incoming record *)
Definition mergeDomains (into from : JsObject string Z) : JsObject string Z :=
  fold_left
    (fun acc (e : string * Z) =>
       let (domain, count) := e in
       let old := match obj_get String.eqb acc domain with
                  | Some v => v
                  | None => 0
                  end in
       obj_set String.eqb acc domain (old + count))
    from into.

(** the [else] branch: accumulate [item] into the current bucket *)
Definition accumulate (currentBucket item : DD.t) : DD.t :=
  {| DD.date := DD.date currentBucket;
     DD.visitors := DD.visitors currentBucket + DD.visitors item;
     DD.pricingViews := DD.pricingViews currentBucket + DD.pricingViews item;
     DD.checkouts := DD.checkouts currentBucket + DD.checkouts item;
     DD.purchases := DD.purchases currentBucket + DD.purchases item;
     DD.revenue := (DD.revenue currentBucket + DD.revenue item)%Q;
     DD.renewalRevenue :=
       (DD.renewalRevenue currentBucket + DD.renewalRevenue item)%Q;
     DD.mrr := DD.mrr item;
     DD.activeCustomers := DD.activeCustomers item;
     DD.churnRate := DD.churnRate item;
     DD.referringDomains :=
       mergeDomains (DD.referringDomains currentBucket)
                    (DD.referringDomains item) |}.

(** [{ ...item, date: bucketKey, referringDomains: { ...item.referringDomains } }] *)
Definition seedBucket (item : DD.t) (bucketKey : DateKey) : DD.t :=
  {| DD.date := bucketKey;
     DD.visitors := DD.visitors item;
     DD.pricingViews := DD.pricingViews item;
     DD.checkouts := DD.checkouts item;
     DD.purchases := DD.purchases item;
     DD.revenue := DD.revenue item;
     DD.renewalRevenue := DD.renewalRevenue item;
     DD.mrr := DD.mrr item;
     DD.activeCustomers := DD.activeCustomers item;
     DD.churnRate := DD.churnRate item;
     DD.referringDomains := DD.referringDomains item |}.

(** loop state of the [forEach]: the flushed buckets and [currentBucket] *)
Definition BucketState := (list DD.t * option DD.t)%type.

Definition bucketStep (tz : TimeZone) (granularity : Granularity)
  (st : BucketState) (item : DD.t) : BucketState :=
  let (aggregated, currentBucket) := st in
  let bucketKey := bucketKeyOf tz granularity (DD.date item) in
  match currentBucket with
  | None => (aggregated, Some (seedBucket item bucketKey))
  | Some b =>
      if negb (DD.date b =? bucketKey)
      then (aggregated ++ [b], Some (seedBucket item bucketKey))
      else (aggregated, Some (accumulate b item))
  end.

Definition flushBucket (st : BucketState) : list DD.t :=
  match snd st with
  | Some b => fst st ++ [b]
  | None => fst st
  end.

Definition aggregatedData (tz : TimeZone) (granularity : Granularity)
  (data : list DD.t) : list DD.t :=
  match granularity with
  | day => data
  | _ => flushBucket (fold_left (bucketStep tz granularity) data ([], None))
  end.

(** sums of one field over a series *)
Definition sumZ (f : DD.t -> Z) (l : list DD.t) : Z :=
  fold_right (fun r acc => f r + acc) 0 l.

(** A field is a flow field when a fresh bucket copies it and accumulation
    adds it. *)
Definition flowZ (f : DD.t -> Z) : Prop :=
  (forall it k, f (seedBucket it k) = f it)
  /\ (forall b it, f (accumulate b it) = f b + f it).

(** what a loop state holds of a field: the flushed buckets plus the open one *)
Definition heldZ (f : DD.t -> Z) (st : BucketState) : Z :=
  sumZ f (fst st) + match snd st with Some b => f b | None => 0 end.

(** ** The aggregator on IEEE doubles

    The records above carry money as exact rationals.  The code adds
    binary64 numbers, for which the order of the additions matters.  This is
    the same [forEach] with [mrr], [revenue], [renewalRevenue] and
    [churnRate] as binary64 numbers, in the standard library's specification
    of IEEE 754 arithmetic (round to nearest, ties to even). *)

Module Binary64.
Definition t := spec_float.
Definition prec : Z := 53.
Definition emax : Z := 1024.
Definition zero : t := S754_zero false.
Definition ofInt (z : Z) : t := binary_normalize prec emax z 0 false.
Definition add : t -> t -> t := SFadd prec emax.
Definition div : t -> t -> t := SFdiv prec emax.
Definition eqb : t -> t -> bool := SFeqb.
End Binary64.
Module B64 := Binary64.

Module DashboardDoubles.
Record t := mk {
  date : DateKey;
  visitors : Z;
  pricingViews : Z;
  checkouts : Z;
  referringDomains : JsObject string Z;
  mrr : B64.t;
  revenue : B64.t;
  renewalRevenue : B64.t;
  churnRate : B64.t;
  activeCustomers : Z;
  purchases : Z
}.
End DashboardDoubles.
Module DF := DashboardDoubles.

Module OnDoubles.

(** the [else] branch: accumulate [item] into the current bucket *)
Definition accumulate (currentBucket item : DF.t) : DF.t :=
  {| DF.date := DF.date currentBucket;
     DF.visitors := DF.visitors currentBucket + DF.visitors item;
     DF.pricingViews := DF.pricingViews currentBucket + DF.pricingViews item;
     DF.checkouts := DF.checkouts currentBucket + DF.checkouts item;
     DF.purchases := DF.purchases currentBucket + DF.purchases item;
     DF.revenue := B64.add (DF.revenue currentBucket) (DF.revenue item);
     DF.renewalRevenue :=
       B64.add (DF.renewalRevenue currentBucket) (DF.renewalRevenue item);
     DF.mrr := DF.mrr item;
     DF.activeCustomers := DF.activeCustomers item;
     DF.churnRate := DF.churnRate item;
     DF.referringDomains :=
       mergeDomains (DF.referringDomains currentBucket)
                    (DF.referringDomains item) |}.

(** [{ ...item, date: bucketKey, referringDomains: { ...item.referringDomains } }] *)
Definition seedBucket (item : DF.t) (bucketKey : DateKey) : DF.t :=
  {| DF.date := bucketKey;
     DF.visitors := DF.visitors item;
     DF.pricingViews := DF.pricingViews item;
     DF.checkouts := DF.checkouts item;
     DF.purchases := DF.purchases item;
     DF.revenue := DF.revenue item;
     DF.renewalRevenue := DF.renewalRevenue item;
     DF.mrr := DF.mrr item;
     DF.activeCustomers := DF.activeCustomers item;
     DF.churnRate := DF.churnRate item;
     DF.referringDomains := DF.referringDomains item |}.

Definition BucketState := (list DF.t * option DF.t)%type.

Definition bucketStep (tz : TimeZone) (granularity : Granularity)
  (st : BucketState) (item : DF.t) : BucketState :=
  let (aggregated, currentBucket) := st in
  let bucketKey := bucketKeyOf tz granularity (DF.date item) in
  match currentBucket with
  | None => (aggregated, Some (seedBucket item bucketKey))
  | Some b =>
      if negb (DF.date b =? bucketKey)
      then (aggregated ++ [b], Some (seedBucket item bucketKey))
      else (aggregated, Some (accumulate b item))
  end.

Definition flushBucket (st : BucketState) : list DF.t :=
  match snd st with
  | Some b => fst st ++ [b]
  | None => fst st
  end.

Definition aggregatedData (tz : TimeZone) (granularity : Granularity)
  (data : list DF.t) : list DF.t :=
  match granularity with
  | day => data
  | _ => flushBucket (fold_left (bucketStep tz granularity) data ([], None))
  end.

(** the sum of a count over a series *)
Definition sumZ (f : DF.t -> Z) (l : list DF.t) : Z :=
  fold_right (fun r acc => f r + acc) 0 l.

(** the sum of a money field over a series, added up from 0 in the order of
    the series: [data.reduce((acc, curr) => acc + curr.revenue, 0)] *)
Definition total (f : DF.t -> B64.t) (l : list DF.t) : B64.t :=
  fold_left (fun acc curr => B64.add acc (f curr)) l B64.zero.

Definition heldZ (f : DF.t -> Z) (st : BucketState) : Z :=
  sumZ f (fst st) + match snd st with Some b => f b | None => 0 end.

(** a day with the given revenue in cents, [total / 100] as the ledger
    computes it *)
Definition dayWith (d : DateKey) (cents : Z) : DF.t :=
  {| DF.date := d; DF.visitors := 10; DF.pricingViews := 3;
     DF.checkouts := 1; DF.referringDomains := [];
     DF.mrr := B64.zero;
     DF.revenue := B64.div (B64.ofInt cents) (B64.ofInt 100);
     DF.renewalRevenue := B64.zero; DF.churnRate := B64.zero;
     DF.activeCustomers := 0; DF.purchases := 1 |}.

(** Sunday 2023-12-31 with 0.10, Monday 2024-01-01 with 0.20 and Tuesday
    2024-01-02 with 0.30 *)
Definition threeDays : list DF.t :=
  [dayWith 19722 10; dayWith 19723 20; dayWith 19724 30].

End OnDoubles.

(** ** Rate calculator (calculateRate, processedData) *)

(** A JS number: a finite value, or one of the three IEEE specials.  Finite
    arithmetic is exact; signed zeros are not distinguished. *)
Inductive jsnum := Fin (q : Q) | NaN | PosInf | NegInf.

(** What [(item as any)[name]] can evaluate to on a dashboard record. *)
Inductive jsval :=
| VUndefined                 (* no such property, own or inherited *)
| VNum (n : jsnum)
| VDateText (d : DateKey)    (* the [date] string, non-empty and not a numeric literal *)
| VObject                    (* the [referringDomains] object *)
| VInherited.                (* a method of [Object.prototype], or that object *)

Definition ofZ (z : Z) : jsval := VNum (Fin (inject_Z z)).
Definition ofQ (q : Q) : jsval := VNum (Fin q).

(** The properties a plain object inherits from [Object.prototype]: eleven
    functions and the [__proto__] accessor, which yields the prototype
    object. *)
Definition inheritedNames : list string :=
  [ "constructor"; "hasOwnProperty"; "isPrototypeOf"; "propertyIsEnumerable";
    "toLocaleString"; "toString"; "valueOf"; "__proto__";
    "__defineGetter__"; "__defineSetter__";
    "__lookupGetter__"; "__lookupSetter__" ]%string.

(** property lookup by name: the eleven own properties of the record, then
    the prototype chain; any other name gives [undefined] *)
Definition getField (item : DD.t) (name : string) : jsval :=
  if String.eqb name "date" then VDateText (DD.date item)
  else if String.eqb name "visitors" then ofZ (DD.visitors item)
  else if String.eqb name "pricingViews" then ofZ (DD.pricingViews item)
  else if String.eqb name "checkouts" then ofZ (DD.checkouts item)
  else if String.eqb name "purchases" then ofZ (DD.purchases item)
  else if String.eqb name "referringDomains" then VObject
  else if String.eqb name "mrr" then ofQ (DD.mrr item)
  else if String.eqb name "revenue" then ofQ (DD.revenue item)
  else if String.eqb name "renewalRevenue" then ofQ (DD.renewalRevenue item)
  else if String.eqb name "churnRate" then ofQ (DD.churnRate item)
  else if String.eqb name "activeCustomers" then ofZ (DD.activeCustomers item)
  else if existsb (String.eqb name) inheritedNames then VInherited
  else VUndefined.

(** ToBoolean *)
Definition truthy (v : jsval) : bool :=
  match v with
  | VUndefined => false
  | VNum (Fin q) => negb (Qeq_bool q 0)
  | VNum NaN => false
  | VNum _ => true
  | VDateText _ => true
  | VObject => true
  | VInherited => true
  end.

(** [v === 0] *)
Definition strictEqZero (v : jsval) : bool :=
  match v with
  | VNum (Fin q) => Qeq_bool q 0
  | _ => false
  end.

(** ToNumber *)
Definition toNumber (v : jsval) : jsnum :=
  match v with
  | VNum n => n
  | VUndefined | VDateText _ | VObject | VInherited => NaN
  end.

Definition sgn (q : Q) : comparison := (q ?= 0)%Q.

Definition jsInf (positive : bool) : jsnum := if positive then PosInf else NegInf.

Definition jsDiv (a b : jsnum) : jsnum :=
  match a, b with
  | NaN, _ | _, NaN => NaN
  | Fin x, Fin y =>
      match sgn y with
      | Eq => match sgn x with Eq => NaN | Gt => PosInf | Lt => NegInf end
      | _ => Fin (x / y)
      end
  | Fin _, (PosInf | NegInf) => Fin 0
  | PosInf, Fin y => jsInf (negb (Qle_bool y 0) || Qeq_bool y 0)
  | NegInf, Fin y => jsInf (negb (Qle_bool 0 y))
  | (PosInf | NegInf), (PosInf | NegInf) => NaN
  end.

Definition jsMul (a b : jsnum) : jsnum :=
  match a, b with
  | NaN, _ | _, NaN => NaN
  | Fin x, Fin y => Fin (x * y)
  | Fin x, PosInf | PosInf, Fin x =>
      match sgn x with Eq => NaN | Gt => PosInf | Lt => NegInf end
  | Fin x, NegInf | NegInf, Fin x =>
      match sgn x with Eq => NaN | Gt => NegInf | Lt => PosInf end
  | PosInf, PosInf | NegInf, NegInf => PosInf
  | PosInf, NegInf | NegInf, PosInf => NegInf
  end.

(** [if (!denominator || denominator === 0) return 0;
     return (numerator / denominator) * 100;] *)
Definition calculateRate (numerator denominator : jsval) : jsnum :=
  if negb (truthy denominator) || strictEqZero denominator then Fin 0
  else jsMul (jsDiv (toNumber numerator) (toNumber denominator)) (Fin 100).

Record CustomConfig := { numerator : string; denominator : string }.

Record ProcessedItem := {
  item : DD.t;
  visitorToPriceViewRate : jsnum;
  priceViewToCheckoutRate : jsnum;
  checkoutToPurchaseRate : jsnum;
  customRate : jsnum
}.

Definition processItem (customConfig : CustomConfig) (it : DD.t)
  : ProcessedItem :=
  {| item := it;
     visitorToPriceViewRate :=
       calculateRate (ofZ (DD.pricingViews it)) (ofZ (DD.visitors it));
     priceViewToCheckoutRate :=
       calculateRate (ofZ (DD.checkouts it)) (ofZ (DD.pricingViews it));
     checkoutToPurchaseRate :=
       calculateRate (ofZ (DD.purchases it)) (ofZ (DD.checkouts it));
     customRate :=
       calculateRate (getField it (numerator customConfig))
                     (getField it (denominator customConfig)) |}.

Definition processedData (customConfig : CustomConfig) (data : list DD.t)
  : list ProcessedItem :=
  map (processItem customConfig) data.

(** a rate that a chart can plot: neither [NaN] nor an infinity *)
Definition isFinite (n : jsnum) : bool :=
  match n with Fin _ => true | _ => false end.

(** ** Billing provider records and API *)

Module Order.
Record t := mk { created_at : Z; status : string; total : Z }.
End Order.

Module Invoice.
Record t := mk {
  created_at : Z;
  status : string;
  total : Z;
  billing_reason : string;
  order_id : option Z
}.
End Invoice.

Module Customer.
Record t := mk { id : Z; mrr : option Z }.
End Customer.

Module Subscription.
Record t := mk { customer_id : Z }.
End Subscription.

(** What one SDK list call can come back with. *)
Inductive Response (A : Type) :=
| Rejected (message : string)                (* the promise rejects *)
| Failed (message : string)                  (* [{ error }] *)
| NoData                                     (* neither [data] nor [error] *)
| Page (data : list A) (lastPage : option Z). (* [data.data], [data.meta?.page.lastPage] *)

Arguments Rejected {A}.
Arguments Failed {A}.
Arguments NoData {A}.
Arguments Page {A}.

(** The four list endpoints, as functions of the store filter and the page
    number. *)
Record Api := {
  listOrders : option string -> Z -> Response Order.t;
  listSubscriptionInvoices : option string -> Z -> Response Invoice.t;
  listCustomers : option string -> Z -> Response Customer.t;
  listSubscriptions : option string -> Z -> Response Subscription.t
}.

Record Env := {
  LEMONSQUEEZY_API_KEY : option string;
  LEMONSQUEEZY_STORE_ID : option string
}.

(** ** Effects: console output, fetches, exceptions, divergence *)

Inductive Endpoint := Orders | SubscriptionInvoices | Customers | Subscriptions.

Inductive Event :=
| Warn (message : string)      (* [console.warn] *)
| LogError (message : string)  (* [console.error] in the [catch] clause *)
| SdkError (message : string)  (* [console.error] in the [onError] callback *)
| Fetch (endpoint : Endpoint) (page : Z).

Definition Trace := list Event.

Inductive Result (A : Type) := Ok (a : A) | Throw (message : string).
Arguments Ok {A}.
Arguments Throw {A}.

(** A computation extends the trace and returns or throws; [None] means the
    recursion budget ran out before it finished. *)
Definition M (A : Type) := Trace -> option (Result A * Trace).

Definition ret {A} (a : A) : M A := fun tr => Some (Ok a, tr).
Definition throw {A} (message : string) : M A := fun tr => Some (Throw message, tr).
Definition diverge {A} : M A := fun _ => None.
Definition emit (e : Event) : M unit := fun tr => Some (Ok tt, tr ++ [e]).

Definition bind {A B} (m : M A) (k : A -> M B) : M B :=
  fun tr =>
    match m tr with
    | None => None
    | Some (Throw message, tr') => Some (Throw message, tr')
    | Some (Ok a, tr') => k a tr'
    end.

Definition tryCatch {A} (body : M A) (handler : string -> M A) : M A :=
  fun tr =>
    match body tr with
    | None => None
    | Some (Throw message, tr') => handler message tr'
    | Some (Ok a, tr') => Some (Ok a, tr')
    end.

Declare Scope m_scope.
Delimit Scope m_scope with M.
Notation "x <- m ;; k" := (bind m (fun x => k))
  (at level 61, m at next level, right associativity) : m_scope.
Notation "m ;;; k" := (bind m (fun _ => k))
  (at level 61, right associativity) : m_scope.

(** [await list...({ filter, page: { number: page, size: 100 } })] followed
    by [if (error) throw new Error(error.message)].  The SDK hands every
    response that carries an error to the [onError] callback registered by
    [lemonSqueezySetup] before it returns the response; that callback logs
    the error. *)
Definition await {A} (endpoint : Endpoint) (page : Z) (r : Response A)
  : M (option (list A * option Z)) :=
  (emit (Fetch endpoint page) ;;;
   match r with
   | Rejected message => throw message
   | Failed message => (emit (SdkError message) ;;; throw message)
   | NoData => ret None
   | Page data lastPage => ret (Some (data, lastPage))
   end)%M.

(** [meta?.page.lastPage && page >= meta.page.lastPage] *)
Definition reachedLastPage (lastPage : option Z) (page : Z) : bool :=
  match lastPage with
  | Some lp => negb (lp =? 0) && (lp <=? page)
  | None => false
  end.

Section Pagination.
Context {A : Type}.
Variable endpoint : Endpoint.
Variable list_ : Z -> Response A.

Section Dated.
Variable created_at : A -> Z.
Variables startDate endDate : Z.

Definition inRange (x : A) : bool :=
  (startDate <=? created_at x) && (created_at x <=? endDate).

(** [lastItem && new Date(lastItem.attributes.created_at) < startDate] *)
Definition lastItemTooOld (items : list A) : bool :=
  match nth_error items (List.length items - 1) with
  | Some lastItem => created_at lastItem <? startDate
  | None => false
  end.

(** the [while (hasMore)] loop of fetchAllOrders and fetchAllInvoices
    ([allInPageTooOld], which fetchAllOrders sets and never reads, is left
    out) *)
Fixpoint fetchAllDated (fuel : nat) (page : Z) (all : list A)
  : M (list A) :=
  match fuel with
  | O => diverge
  | S fuel' =>
      (r <- await endpoint page (list_ page) ;;
       match r with
       | None => ret all
       | Some (items, lastPage) =>
           let all' := all ++ filter inRange items in
           if lastItemTooOld items then ret all'
           else if reachedLastPage lastPage page then ret all'
           else fetchAllDated fuel' (page + 1) all'
       end)%M
  end.
End Dated.

(** the [while (hasMore)] loop of fetchAllCustomers and fetchActiveSubs *)
Fixpoint fetchAllPlain (fuel : nat) (page : Z) (all : list A) : M (list A) :=
  match fuel with
  | O => diverge
  | S fuel' =>
      (r <- await endpoint page (list_ page) ;;
       match r with
       | None => ret all
       | Some (items, lastPage) =>
           let all' := all ++ items in
           if reachedLastPage lastPage page then ret all'
           else fetchAllPlain fuel' (page + 1) all'
       end)%M
  end.
End Pagination.

Section Builder.
Variable api : Api.
Variable storeId : option string.
Variables startDate endDate : Z.

Definition fetchAllOrders (fuel : nat) : M (list Order.t) :=
  fetchAllDated Orders (listOrders api storeId)
                Order.created_at startDate endDate fuel 1 [].

Definition fetchAllInvoices (fuel : nat) : M (list Invoice.t) :=
  fetchAllDated SubscriptionInvoices (listSubscriptionInvoices api storeId)
                Invoice.created_at startDate endDate fuel 1 [].

Definition fetchAllCustomers (fuel : nat) : M (list Customer.t) :=
  fetchAllPlain Customers (listCustomers api storeId) fuel 1 [].

Definition fetchActiveSubs (fuel : nat) : M (list Subscription.t) :=
  fetchAllPlain Subscriptions (listSubscriptions api storeId) fuel 1 [].
End Builder.

(** ** Billing ledger builder: grouping by date *)

Module DayMetrics.
Record t := mk { revenue : Q; renewalRevenue : Q; purchases : Z }.
Definition zero : t := {| revenue := 0; renewalRevenue := 0; purchases := 0 |}.
End DayMetrics.
Module DM := DayMetrics.

Definition DailyData := JsObject DateKey DM.t.

(** [while (currentDate <= endDate) { dailyData[key] = zeros; currentDate.setDate(+1) }] *)
Fixpoint initDailyData (fuel : nat) (currentDate endDate : Z)
  (dailyData : DailyData) : option DailyData :=
  if currentDate <=? endDate then
    match fuel with
    | O => None
    | S fuel' =>
        initDailyData fuel' (currentDate + MS_PER_DAY) endDate
          (obj_set Z.eqb dailyData (isoDay currentDate) DM.zero)
    end
  else Some dailyData.

(** [amount = x.attributes.total / 100] *)
Definition amountOf (total : Z) : Q := (inject_Z total / 100)%Q.

Definition isPaid (status : string) : bool := String.eqb status "paid".

(** the callback of [orders.forEach] *)
Definition processOrder (dailyData : DailyData) (order : Order.t) : DailyData :=
  if negb (isPaid (Order.status order)) then dailyData
  else
    let date := isoDay (Order.created_at order) in
    match obj_get Z.eqb dailyData date with
    | Some m =>
        let amount := amountOf (Order.total order) in
        obj_set Z.eqb dailyData date
          {| DM.revenue := (DM.revenue m + amount)%Q;
             DM.renewalRevenue := DM.renewalRevenue m;
             DM.purchases := DM.purchases m + 1 |}
    | None => dailyData
    end.

(** [billingReason === 'initial' || !!invoice.attributes.order_id] *)
Definition isInitial (invoice : Invoice.t) : bool :=
  String.eqb (Invoice.billing_reason invoice) "initial"
  || match Invoice.order_id invoice with
     | Some n => negb (n =? 0)
     | None => false
     end.

(** the callback of [invoices.forEach] *)
Definition processInvoice (dailyData : DailyData) (invoice : Invoice.t)
  : DailyData :=
  if negb (isPaid (Invoice.status invoice)) then dailyData
  else if negb (isInitial invoice) then
    let date := isoDay (Invoice.created_at invoice) in
    match obj_get Z.eqb dailyData date with
    | Some m =>
        let amount := amountOf (Invoice.total invoice) in
        obj_set Z.eqb dailyData date
          {| DM.revenue := (DM.revenue m + amount)%Q;
             DM.renewalRevenue := (DM.renewalRevenue m + amount)%Q;
             DM.purchases := DM.purchases m |}
    | None => dailyData
    end
  else dailyData.

(** [activeCustomerIds.has(String(c.id))] and [(c.attributes.mrr || 0) / 100] *)
Definition currentMRROf (customers : list Customer.t)
  (activeSubs : list Subscription.t) : Q :=
  let activeCustomerIds := map Subscription.customer_id activeSubs in
  fold_left
    (fun currentMRR c =>
       if existsb (Z.eqb (Customer.id c)) activeCustomerIds
       then (currentMRR
             + amountOf (match Customer.mrr c with Some v => v | None => 0 end))%Q
       else currentMRR)
    customers 0%Q.

(** [.sort((a, b) => a.date.localeCompare(b.date))], a stable sort *)
Fixpoint insertByDate (r : LS.t) (l : list LS.t) : list LS.t :=
  match l with
  | [] => [r]
  | x :: l' =>
      if LS.date r <? LS.date x then r :: x :: l'
      else x :: insertByDate r l'
  end.

Definition sortByDate (l : list LS.t) : list LS.t :=
  fold_left (fun acc r => insertByDate r acc) l [].

(** [Object.entries(dailyData).map(([date, metrics]) => ({ ... }))] *)
Definition toMetrics (currentMRR : Q) (activeCustomersCount : Z)
  (e : DateKey * DM.t) : LS.t :=
  {| LS.date := fst e;
     LS.revenue := DM.revenue (snd e);
     LS.renewalRevenue := DM.renewalRevenue (snd e);
     LS.mrr := currentMRR;
     LS.activeCustomers := activeCustomersCount;
     LS.churnRate := 0;
     LS.purchases := DM.purchases (snd e) |}.

(** everything after the four fetches, inside the [try] *)
Definition buildLedger (fuel : nat) (startDate endDate : Z)
  (orders : list Order.t) (invoices : list Invoice.t)
  (customers : list Customer.t) (activeSubs : list Subscription.t)
  : option (list LS.t) :=
  let currentMRR := currentMRROf customers activeSubs in
  let correctActiveCustomersCount := Z.of_nat (List.length activeSubs) in
  match initDailyData fuel startDate endDate [] with
  | None => None
  | Some dailyData0 =>
      let dailyData1 := fold_left processOrder orders dailyData0 in
      let dailyData2 := fold_left processInvoice invoices dailyData1 in
      Some (sortByDate
              (map (toMetrics currentMRR correctActiveCustomersCount)
                   dailyData2))
  end.

Definition liftOption {A} (o : option A) : M A :=
  match o with Some a => ret a | None => diverge end.

(** [!apiKey] *)
Definition missing (v : option string) : bool :=
  match v with
  | None => true
  | Some s => String.eqb s ""
  end.

(** the body of the [try] block *)
Definition tryBlock (fuel : nat) (api : Api) (storeId : option string)
  (startDate endDate : Z) : M (list LS.t) :=
  (orders <- fetchAllOrders api storeId startDate endDate fuel ;;
   invoices <- fetchAllInvoices api storeId startDate endDate fuel ;;
   customers <- fetchAllCustomers api storeId fuel ;;
   activeSubs <- fetchActiveSubs api storeId fuel ;;
   liftOption
     (buildLedger fuel startDate endDate orders invoices customers
        activeSubs))%M.

(** the exported function; [lemonSqueezySetup] configures the SDK: the
    [onError] callback it registers is the [SdkError] entry of [await] *)
Definition fetchLemonSqueezyData (fuel : nat) (env : Env) (api : Api)
  (startDate endDate : Z) : M (list LS.t) :=
  let apiKey := LEMONSQUEEZY_API_KEY env in
  let storeId := LEMONSQUEEZY_STORE_ID env in
  if missing apiKey then
    (emit (Warn "LemonSqueezy API Key missing.") ;;; ret [])%M
  else
    tryCatch
      (tryBlock fuel api storeId startDate endDate)
      (fun message =>
         (emit (LogError message) ;;; ret [])%M).

(** ** Mock analytics series (generateMockPostHogData) *)

(** [Math.random()]: the n-th call of a run returns [random n] *)
Definition Rng := nat -> Q.

Definition domains : list string :=
  ["google.com"; "twitter.com"; "linkedin.com"; "direct"; "facebook.com"]%string.

(** state of [domains.forEach]: the object built so far, [remainingVisitors],
    and the number of draws already made *)
Definition DomainState := (JsObject string Z * Z * nat)%type.

Definition domainStep (random : Rng) (st : DomainState) (domain : string)
  : DomainState :=
  let '(referringDomains, remainingVisitors, n) := st in
  let count := Qfloor (random n * (inject_Z remainingVisitors / 2))%Q in
  (obj_set String.eqb referringDomains domain count,
   remainingVisitors - count, S n).

(** one iteration of the [while] body; returns the record and the number of
    draws made so far *)
Definition mockDay (random : Rng) (n : nat) (currentDate : Z) : PH.t * nat :=
  let visitors := 500 + Qfloor (random n * 500)%Q in
  let pricingViews := Qfloor (inject_Z visitors * (3 # 10))%Q in
  let checkouts := Qfloor (inject_Z pricingViews * (1 # 10))%Q in
  let purchases := Qfloor (inject_Z checkouts * (1 # 2))%Q in
  let '(referringDomains, remainingVisitors, n') :=
    fold_left (domainStep random) domains ([], visitors, S n) in
  let referringDomains' :=
    if 0 <? remainingVisitors
    then obj_set String.eqb referringDomains "other"%string remainingVisitors
    else referringDomains in
  ({| PH.date := isoDay currentDate;
      PH.visitors := visitors;
      PH.pricingViews := pricingViews;
      PH.checkouts := checkouts;
      PH.purchases := purchases;
      PH.referringDomains := referringDomains' |}, n').

Fixpoint generateMockLoop (fuel : nat) (random : Rng) (n : nat)
  (currentDate endDate : Z) (data : list PH.t) : option (list PH.t) :=
  if currentDate <=? endDate then
    match fuel with
    | O => None
    | S fuel' =>
        let (r, n') := mockDay random n currentDate in
        generateMockLoop fuel' random n' (currentDate + MS_PER_DAY) endDate
          (data ++ [r])
    end
  else Some data.

Definition generateMockPostHogData (fuel : nat) (random : Rng)
  (startDate endDate : Z) : option (list PH.t) :=
  generateMockLoop fuel random 0 startDate endDate [].

(** the total of the counts stored in a [referringDomains] object *)
Definition sumCounts (o : JsObject string Z) : Z :=
  fold_right Z.add 0 (obj_values o).

(** iterations of a [while (currentDate <= endDate)] day loop *)
Definition dayCount (startDate endDate : Z) : nat :=
  if startDate <=? endDate
  then S (Z.to_nat ((endDate - startDate) / MS_PER_DAY))
  else O.

(** ** Sample inputs used by the instances further down *)

Definition ledgerEx : list LS.t :=
  [ {| LS.date := 19723; LS.mrr := 40; LS.revenue := 50; LS.renewalRevenue := 0;
       LS.churnRate := 0; LS.activeCustomers := 2; LS.purchases := 3 |};
    {| LS.date := 19724; LS.mrr := 40; LS.revenue := 0; LS.renewalRevenue := 0;
       LS.churnRate := 0; LS.activeCustomers := 2; LS.purchases := 0 |} ].

(** analytics for the first day only, with a purchase count that disagrees
    with the ledger *)
Definition analyticsEx : list PH.t :=
  [ {| PH.date := 19723; PH.visitors := 100; PH.pricingViews := 20;
       PH.checkouts := 5; PH.purchases := 7;
       PH.referringDomains := [("google.com"%string, 60)] |} ].

(** a merged record, and a rate configuration whose numerator names a
    property the record does not have *)
Definition itemEx : DD.t :=
  {| DD.date := 19723; DD.visitors := 100; DD.pricingViews := 20;
     DD.checkouts := 5; DD.referringDomains := [("google.com"%string, 60)];
     DD.mrr := 40; DD.revenue := 50; DD.renewalRevenue := 0;
     DD.churnRate := 0; DD.activeCustomers := 2; DD.purchases := 3 |}.

Definition configAbsentNumerator : CustomConfig :=
  {| numerator := "signups"; denominator := "visitors" |}.

Definition configDefault : CustomConfig :=
  {| numerator := "purchases"; denominator := "visitors" |}.

(** ** Vocabulary for the statements about the builder *)

(** [from; from + 1; ...], [n] numbers: page numbers of a run, day keys of a
    ledger *)
Fixpoint consecutive (from : Z) (n : nat) : list Z :=
  match n with
  | O => []
  | S n' => from :: consecutive (from + 1) n'
  end.

Definition pageData {A} (r : Response A) : list A :=
  match r with Page data _ => data | _ => [] end.

Definition isError {A} (r : Response A) : bool :=
  match r with Rejected _ | Failed _ => true | _ => false end.

(** the response a logged fetch received was an error *)
Definition fetchFailed (api : Api) (storeId : option string) (e : Event)
  : bool :=
  match e with
  | Fetch Orders p => isError (listOrders api storeId p)
  | Fetch SubscriptionInvoices p =>
      isError (listSubscriptionInvoices api storeId p)
  | Fetch Customers p => isError (listCustomers api storeId p)
  | Fetch Subscriptions p => isError (listSubscriptions api storeId p)
  | _ => false
  end.

Definition isFetch (e : Event) : bool :=
  match e with Fetch _ _ => true | _ => false end.

(** every page up to [L] that carries records reports a last page number
    that is present, not 0 and at most [L] *)
Definition boundedLastPage {A} (list_ : Z -> Response A) (L : Z) : Prop :=
  forall p, 1 <= p <= L ->
    match list_ p with
    | Page _ (Some lp) => lp <> 0 /\ lp <= L
    | Page _ None => False
    | _ => True
    end.

(** what the [onError] callback logs for a response *)
Definition onErrorLog {A} (r : Response A) : Trace :=
  match r with Failed message => [SdkError message] | _ => [] end.

(** what fetching page [p] adds to the trace: the fetch, then the
    callback's entry when the response carries an error *)
Definition fetchLog {A} (endpoint : Endpoint) (list_ : Z -> Response A)
  (p : Z) : Trace :=
  Fetch endpoint p :: onErrorLog (list_ p).

(** the callback's entry for the response a logged fetch received *)
Definition callbackLog (api : Api) (storeId : option string) (e : Event)
  : Trace :=
  match e with
  | Fetch Orders p => onErrorLog (listOrders api storeId p)
  | Fetch SubscriptionInvoices p =>
      onErrorLog (listSubscriptionInvoices api storeId p)
  | Fetch Customers p => onErrorLog (listCustomers api storeId p)
  | Fetch Subscriptions p => onErrorLog (listSubscriptions api storeId p)
  | _ => []
  end.

(** a loop that, from any trace, finishes after fetching pages 1..n of its
    endpoint and nothing else, with n at most [L]; a fetch that fails is
    followed by the callback's entry *)
Definition runsWithin {A R} (loop : M R) (endpoint : Endpoint)
  (list_ : Z -> Response A) (L : Z) : Prop :=
  forall tr, exists r n,
    loop tr = Some (r, tr ++ flat_map (fetchLog endpoint list_)
                                      (consecutive 1 n))
    /\ (1 <= n <= Z.to_nat L)%nat.

(** a fetched order, resp. invoice, that the [forEach] callback books on
    day [k] *)
Definition orderHits (k : DateKey) (o : Order.t) : bool :=
  isPaid (Order.status o) && (isoDay (Order.created_at o) =? k).

Definition invoiceHits (k : DateKey) (i : Invoice.t) : bool :=
  isPaid (Invoice.status i) && negb (isInitial i)
  && (isoDay (Invoice.created_at i) =? k).

(** a record of a provider page that ends up booked on day [k]: it passed
    the date filter of the fetch loop and the callback books it *)
Definition orderCounts (startDate endDate : Z) (k : DateKey) (o : Order.t)
  : bool :=
  inRange Order.created_at startDate endDate o && orderHits k o.

Definition invoiceCounts (startDate endDate : Z) (k : DateKey)
  (i : Invoice.t) : bool :=
  inRange Invoice.created_at startDate endDate i && invoiceHits k i.

Definition allZero (d : JsObject DateKey DM.t) : Prop :=
  Forall (fun e => snd e = DM.zero) d.

Definition sumAmounts {A} (total : A -> Z) (l : list A) : Q :=
  fold_right (fun x acc => (amountOf (total x) + acc)%Q) 0%Q l.

(** the customers that some active subscription names, and what a customer
    brings in per month, in cents ([c.attributes.mrr || 0]) *)
Definition hasActiveSubscription (activeSubs : list Subscription.t)
  (c : Customer.t) : bool :=
  existsb (fun s => Subscription.customer_id s =? Customer.id c) activeSubs.

Definition mrrCents (c : Customer.t) : Z :=
  match Customer.mrr c with Some v => v | None => 0 end.

(** the records on pages 1..n of an endpoint *)
Definition recordsOn {A} (list_ : Z -> Response A) (n : nat) : list A :=
  flat_map (fun p => pageData (list_ p)) (consecutive 1 n).

(** ** Sample providers *)

Definition envEx : Env :=
  {| LEMONSQUEEZY_API_KEY := Some "key"%string;
     LEMONSQUEEZY_STORE_ID := Some "1"%string |}.

Definition envNoKey : Env :=
  {| LEMONSQUEEZY_API_KEY := None; LEMONSQUEEZY_STORE_ID := None |}.

(** an API key, but no store id *)
Definition envNoStore : Env :=
  {| LEMONSQUEEZY_API_KEY := Some "key"%string;
     LEMONSQUEEZY_STORE_ID := None |}.

(** a provider whose pages hold no records and always claim one more page *)
Definition apiGrowing : Api :=
  {| listOrders := fun _ p => Page [] (Some (p + 1));
     listSubscriptionInvoices := fun _ p => Page [] (Some (p + 1));
     listCustomers := fun _ p => Page [] (Some (p + 1));
     listSubscriptions := fun _ p => Page [] (Some (p + 1)) |}.

(** a provider whose pages hold no records and report 0 as the last page *)
Definition apiZero : Api :=
  {| listOrders := fun _ _ => Page [] (Some 0);
     listSubscriptionInvoices := fun _ _ => Page [] (Some 0);
     listCustomers := fun _ _ => Page [] (Some 0);
     listSubscriptions := fun _ _ => Page [] (Some 0) |}.

(** the shape of every record the [try] block builds *)
Definition bookedRecord (orders : list Order.t) (invoices : list Invoice.t)
  (currentMRR : Q) (activeCount : Z) (r : LS.t) : Prop :=
  (LS.revenue r
   == sumAmounts Order.total (filter (orderHits (LS.date r)) orders)
      + sumAmounts Invoice.total (filter (invoiceHits (LS.date r)) invoices))%Q
  /\ (LS.renewalRevenue r
      == sumAmounts Invoice.total (filter (invoiceHits (LS.date r)) invoices))%Q
  /\ LS.purchases r
     = Z.of_nat (List.length (filter (orderHits (LS.date r)) orders))
  /\ LS.mrr r = currentMRR
  /\ LS.activeCustomers r = activeCount
  /\ LS.churnRate r = 0%Q.

(** the fetches of a run that reads [nO] pages of orders, [nI] of invoices,
    [nC] of customers and [nS] of subscriptions, in that order *)
Definition fetchesOf (nO nI nC nS : nat) : Trace :=
  map (Fetch Orders) (consecutive 1 nO)
  ++ map (Fetch SubscriptionInvoices) (consecutive 1 nI)
  ++ map (Fetch Customers) (consecutive 1 nC)
  ++ map (Fetch Subscriptions) (consecutive 1 nS).

(** a provider whose order endpoint answers with an error object *)
Definition apiFailing : Api :=
  {| listOrders := fun _ _ => Failed "Unauthenticated.";
     listSubscriptionInvoices := fun _ _ => Page [] (Some 1);
     listCustomers := fun _ _ => Page [] (Some 1);
     listSubscriptions := fun _ _ => Page [] (Some 1) |}.

(** a provider with one page per endpoint.  Day 19787 is 2024-03-05: an
    order of 25.00 paid at 10:00, an unpaid order, the initial invoice of
    that order, and a renewal invoice of 10.00 at 12:00. *)
Definition ordersPageEx : list Order.t :=
  [ {| Order.created_at := 19787 * MS_PER_DAY + 36000000;
       Order.status := "paid"; Order.total := 2500 |};
    {| Order.created_at := 19787 * MS_PER_DAY + 30000000;
       Order.status := "pending"; Order.total := 900 |} ].

Definition invoicesPageEx : list Invoice.t :=
  [ {| Invoice.created_at := 19787 * MS_PER_DAY + 43200000;
       Invoice.status := "paid"; Invoice.total := 1000;
       Invoice.billing_reason := "renewal"; Invoice.order_id := None |};
    {| Invoice.created_at := 19787 * MS_PER_DAY + 36000000;
       Invoice.status := "paid"; Invoice.total := 2500;
       Invoice.billing_reason := "initial"; Invoice.order_id := Some 77 |} ].

Definition apiSample : Api :=
  {| listOrders := fun _ _ => Page ordersPageEx (Some 1);
     listSubscriptionInvoices := fun _ _ => Page invoicesPageEx (Some 1);
     listCustomers :=
       fun _ _ => Page [ {| Customer.id := 7; Customer.mrr := Some 4000 |} ]
                       (Some 1);
     listSubscriptions :=
       fun _ _ => Page [ {| Subscription.customer_id := 7 |} ] (Some 1) |}.

(** 2024-03-04T00:00Z .. 2024-03-06T00:00Z *)
Definition startEx : Z := 19786 * MS_PER_DAY.
Definition endEx : Z := 19788 * MS_PER_DAY.

Definition seriesOf (run : option (Result (list LS.t) * Trace)) : list LS.t :=
  match run with Some (Ok s, _) => s | _ => [] end.

Definition traceOf (run : option (Result (list LS.t) * Trace)) : Trace :=
  match run with Some (_, t) => t | None => [] end.

Definition runEx := fetchLemonSqueezyData 5 envEx apiSample startEx endEx [].

(** a provider with a single renewal invoice, paid at noon of 2024-03-06,
    twelve hours after [endEx] *)
Definition lateInvoice : Invoice.t :=
  {| Invoice.created_at := 19788 * MS_PER_DAY + 43200000;
     Invoice.status := "paid"; Invoice.total := 1000;
     Invoice.billing_reason := "renewal"; Invoice.order_id := None |}.

Definition apiLateInvoice : Api :=
  {| listOrders := fun _ _ => Page [] (Some 1);
     listSubscriptionInvoices := fun _ _ => Page [lateInvoice] (Some 1);
     listCustomers := fun _ _ => Page [] (Some 1);
     listSubscriptions := fun _ _ => Page [] (Some 1) |}.

Definition runLate :=
  fetchLemonSqueezyData 5 envEx apiLateInvoice startEx endEx [].

(** 2024-01-01T12:00Z .. 2024-01-02T06:00Z, and a paid order at 03:00 of the
    second day *)
Definition startNoon : Z := 19723 * MS_PER_DAY + 43200000.
Definition endMorning : Z := 19724 * MS_PER_DAY + 21600000.

Definition apiSecondDay : Api :=
  {| listOrders :=
       fun _ _ => Page [ {| Order.created_at := 19724 * MS_PER_DAY + 10800000;
                            Order.status := "paid"; Order.total := 2500 |} ]
                       (Some 1);
     listSubscriptionInvoices := fun _ _ => Page [] (Some 1);
     listCustomers := fun _ _ => Page [] (Some 1);
     listSubscriptions := fun _ _ => Page [] (Some 1) |}.

Definition runNoon :=
  fetchLemonSqueezyData 5 envEx apiSecondDay startNoon endMorning [].

(** what every record of the mock series satisfies *)
Definition mockRecordOk (r : PH.t) : Prop :=
  500 <= PH.visitors r < 1000
  /\ PH.pricingViews r = Qfloor (inject_Z (PH.visitors r) * (3 # 10))
  /\ PH.checkouts r = Qfloor (inject_Z (PH.pricingViews r) * (1 # 10))
  /\ PH.purchases r = Qfloor (inject_Z (PH.checkouts r) * (1 # 2))
  /\ PH.pricingViews r = PH.visitors r * 3 / 10
  /\ PH.checkouts r = PH.pricingViews r / 10
  /\ PH.purchases r = PH.checkouts r / 2
  /\ sumCounts (PH.referringDomains r) = PH.visitors r.

(** a generator that always returns one half *)
Definition randomHalf : Rng := fun _ => (1 # 2)%Q.

(** the provider serves [L] pages of a dated endpoint, each reporting [L]
    as the last page, and its records come newest first across the pages *)
Definition servesNewestFirst {A} (created_at : A -> Z)
  (list_ : Z -> Response A) (L : Z) : Prop :=
  (forall p, 1 <= p <= L -> exists data, list_ p = Page data (Some L))
  /\ StronglySorted (fun a b => created_at b <= created_at a)
       (recordsOn list_ (Z.to_nat L)).

(** the same customer with two active subscriptions *)
Definition subsTwice : list Subscription.t :=
  [ {| Subscription.customer_id := 7 |}; {| Subscription.customer_id := 7 |} ].

Definition customersEx : list Customer.t :=
  [ {| Customer.id := 7; Customer.mrr := Some 4000 |};
    {| Customer.id := 8; Customer.mrr := Some 9900 |};
    {| Customer.id := 9; Customer.mrr := None |} ].

(** a logged fetch whose response was not an error *)
Definition goodFetch (api : Api) (storeId : option string) (e : Event)
  : Prop :=
  isFetch e = true /\ fetchFailed api storeId e = false.

(** one key per maximal run of equal neighbours *)
Fixpoint runHeads (keys : list Z) : list Z :=
  match keys with
  | [] => []
  | k :: rest =>
      match rest with
      | [] => [k]
      | k' :: _ => if k =? k' then runHeads rest else k :: runHeads rest
      end
  end.

(** the bucket keys of a series, record by record *)
Definition bucketKeys (tz : TimeZone) (granularity : Granularity)
  (data : list DD.t) : list DateKey :=
  map (fun r => bucketKeyOf tz granularity (DD.date r)) data.

(** the total of a record's referring-domain counts *)
Definition domainTotal (r : DD.t) : Z := sumCounts (DD.referringDomains r).

(** a week of daily records, Monday 2024-01-01 to Sunday 2024-01-07, and the
    Monday after *)
Definition dayOf (d : DateKey) (mrr : Q) : DD.t :=
  {| DD.date := d; DD.visitors := 10; DD.pricingViews := 3; DD.checkouts := 1;
     DD.referringDomains := [("google.com"%string, 6); ("direct"%string, 4)];
     DD.mrr := mrr; DD.revenue := 5; DD.renewalRevenue := 1;
     DD.churnRate := 0; DD.activeCustomers := 2; DD.purchases := 1 |}.

Definition eightDays : list DD.t :=
  [dayOf 19723 40; dayOf 19724 40; dayOf 19725 41; dayOf 19726 41;
   dayOf 19727 41; dayOf 19728 42; dayOf 19729 42; dayOf 19730 43].

(** [obj[k] || 0] on a referring-domains object *)
Definition countOf (o : JsObject string Z) (k : string) : Z :=
  match obj_get String.eqb o k with
  | Some v => v
  | None => 0
  end.

(** a referring-domains object as JS has it: no key twice *)
Definition wellFormedDomains (r : DD.t) : Prop :=
  NoDup (obj_keys (DD.referringDomains r)).

(** the referring-domains object of every mock record *)
Definition mockDomainsOk (r : PH.t) : Prop :=
  obj_keys (PH.referringDomains r) = domains ++ ["other"%string]
  /\ Forall (fun c => 0 <= c) (obj_values (PH.referringDomains r))
  /\ 0 < countOf (PH.referringDomains r) "other".

(** ** Chart controls and tooltip (overview-chart.tsx) *)

(** the keys of [chartConfig] *)
Module Metric.
Inductive t :=
| visitors | pricingViews | checkouts | purchases | revenue | mrr
| visitorToPriceViewRate | priceViewToCheckoutRate | checkoutToPurchaseRate
| customRate.

Definition index (m : t) : nat :=
  match m with
  | visitors => 0 | pricingViews => 1 | checkouts => 2 | purchases => 3
  | revenue => 4 | mrr => 5 | visitorToPriceViewRate => 6
  | priceViewToCheckoutRate => 7 | checkoutToPurchaseRate => 8
  | customRate => 9
  end.

(** [===] on metric keys *)
Definition eqb (a b : t) : bool := Nat.eqb (index a) (index b).
End Metric.

(** [activeMetrics.includes(metric)] *)
Definition includesMetric (activeMetrics : list Metric.t) (metric : Metric.t)
  : bool :=
  existsb (Metric.eqb metric) activeMetrics.

(** [toggleMetric]: the new list that is stored as the active metrics *)
Definition toggleMetric (activeMetrics : list Metric.t) (metric : Metric.t)
  : list Metric.t :=
  if includesMetric activeMetrics metric
  then filter (fun m => negb (Metric.eqb m metric)) activeMetrics
  else activeMetrics ++ [metric].

Definition rateMetrics : list Metric.t :=
  [Metric.visitorToPriceViewRate; Metric.priceViewToCheckoutRate;
   Metric.checkoutToPurchaseRate; Metric.customRate].

(** [activeMetrics.length > 0 && activeMetrics.every(m => rateMetrics.includes(m))] *)
Definition isOnlyRates (activeMetrics : list Metric.t) : bool :=
  (0 <? List.length activeMetrics)%nat
  && forallb (includesMetric rateMetrics) activeMetrics.

(** [.sort(([, a], [, b]) => b - a)]: a stable sort, larger counts first *)
Fixpoint insertByCount (e : string * Z) (l : list (string * Z))
  : list (string * Z) :=
  match l with
  | [] => [e]
  | x :: l' =>
      if snd x <? snd e then e :: x :: l' else x :: insertByCount e l'
  end.

Definition sortByCount (l : list (string * Z)) : list (string * Z) :=
  fold_left (fun acc e => insertByCount e acc) l [].

(** [Object.entries(dataPoint.referringDomains).sort(...).slice(0, 5)]: the
    entries the tooltip lists *)
Definition topDomains (referringDomains : JsObject string Z)
  : list (string * Z) :=
  firstn 5 (sortByCount referringDomains).

(** the entries the tooltip leaves out *)
Definition hiddenDomains (referringDomains : JsObject string Z)
  : list (string * Z) :=
  skipn 5 (sortByCount referringDomains).

Definition byCountDesc (a b : string * Z) : Prop := snd b <= snd a.

(** ** Analytics series fetcher (fetchPostHogData) *)

Record PostHogEnv := {
  POSTHOG_API_KEY : option string;
  POSTHOG_PROJECT_ID : option string
}.

(** one element of a trend [result]: counts, the days they belong to, and
    (for a breakdown) the breakdown value *)
Module TrendSeries.
Record t := mk { data : list Z; days : list DateKey; label : string }.
End TrendSeries.
Module TS := TrendSeries.

(** what [fetch] followed by [response.json()] can come back with *)
Inductive HttpReply :=
| NetworkFailure (message : string)            (* [fetch] rejects *)
| HttpError (statusText : string)              (* [response.ok] is false *)
| BadBody (message : string)                   (* [response.json()] rejects *)
| Json (result : option (list TS.t)).          (* the body; [.result] may be absent *)

(** the [name] of the entries of [events] *)
Inductive FunnelMetric := MVisitors | MPricingViews | MCheckouts | MPurchases.

Definition events : list FunnelMetric :=
  [MVisitors; MPricingViews; MCheckouts; MPurchases].

(** [(results[date] as any)[metricName] = count] *)
Definition setMetric (m : FunnelMetric) (count : Z) (r : PH.t) : PH.t :=
  match m with
  | MVisitors =>
      {| PH.date := PH.date r; PH.visitors := count;
         PH.pricingViews := PH.pricingViews r; PH.checkouts := PH.checkouts r;
         PH.purchases := PH.purchases r;
         PH.referringDomains := PH.referringDomains r |}
  | MPricingViews =>
      {| PH.date := PH.date r; PH.visitors := PH.visitors r;
         PH.pricingViews := count; PH.checkouts := PH.checkouts r;
         PH.purchases := PH.purchases r;
         PH.referringDomains := PH.referringDomains r |}
  | MCheckouts =>
      {| PH.date := PH.date r; PH.visitors := PH.visitors r;
         PH.pricingViews := PH.pricingViews r; PH.checkouts := count;
         PH.purchases := PH.purchases r;
         PH.referringDomains := PH.referringDomains r |}
  | MPurchases =>
      {| PH.date := PH.date r; PH.visitors := PH.visitors r;
         PH.pricingViews := PH.pricingViews r; PH.checkouts := PH.checkouts r;
         PH.purchases := count;
         PH.referringDomains := PH.referringDomains r |}
  end.

Definition metricOf (m : FunnelMetric) (r : PH.t) : Z :=
  match m with
  | MVisitors => PH.visitors r
  | MPricingViews => PH.pricingViews r
  | MCheckouts => PH.checkouts r
  | MPurchases => PH.purchases r
  end.

(** [results[date].referringDomains[domain] = count] *)
Definition setDomain (domain : string) (count : Z) (r : PH.t) : PH.t :=
  {| PH.date := PH.date r; PH.visitors := PH.visitors r;
     PH.pricingViews := PH.pricingViews r; PH.checkouts := PH.checkouts r;
     PH.purchases := PH.purchases r;
     PH.referringDomains :=
       obj_set String.eqb (PH.referringDomains r) domain count |}.

Definition PostHogResults := JsObject DateKey PH.t.

Definition zeroRecord (day : DateKey) : PH.t :=
  {| PH.date := day; PH.visitors := 0; PH.pricingViews := 0;
     PH.checkouts := 0; PH.purchases := 0; PH.referringDomains := [] |}.

(** [trendData.result[0].days.forEach(day => results[day] = { zeros })] *)
Definition initResults (trendResult : option (list TS.t)) : PostHogResults :=
  match trendResult with
  | Some (first :: _) =>
      fold_left (fun results day => obj_set Z.eqb results day (zeroRecord day))
                (TS.days first) []
  | _ => []
  end.

(** [xs.forEach((count, idx) => { const date = days[idx];
      if (results[date]) update(results[date], count) })] *)
Fixpoint overlay (update : Z -> PH.t -> PH.t) (counts : list Z)
  (days : list DateKey) (idx : nat) (results : PostHogResults)
  : PostHogResults :=
  match counts with
  | [] => results
  | count :: counts' =>
      let results' :=
        match nth_error days idx with
        | Some date =>
            match obj_get Z.eqb results date with
            | Some r => obj_set Z.eqb results date (update count r)
            | None => results
            end
        | None => results
        end in
      overlay update counts' days (S idx) results'
  end.

(** [trendData.result.forEach((eventResult, index) => ...)]; reading
    [events[index].name] past the fourth entry throws *)
Fixpoint fillEvents (series : list TS.t) (index : nat)
  (results : PostHogResults) : Result PostHogResults :=
  match series with
  | [] => Ok results
  | eventResult :: series' =>
      match nth_error events index with
      | None => Throw "Cannot read properties of undefined (reading 'name')"
      | Some metricName =>
          fillEvents series' (S index)
            (overlay (setMetric metricName) (TS.data eventResult)
                     (TS.days eventResult) 0 results)
      end
  end.

(** [domainData.result.forEach(item => ...)] *)
Definition fillDomains (items : list TS.t) (results : PostHogResults)
  : PostHogResults :=
  fold_left
    (fun res item =>
       overlay (setDomain (TS.label item)) (TS.data item) (TS.days item) 0 res)
    items results.

(** [.sort((a, b) => a.date.localeCompare(b.date))] on analytics records *)
Fixpoint insertByDatePH (r : PH.t) (l : list PH.t) : list PH.t :=
  match l with
  | [] => [r]
  | x :: l' =>
      if PH.date r <? PH.date x then r :: x :: l'
      else x :: insertByDatePH r l'
  end.

Definition sortByDatePH (l : list PH.t) : list PH.t :=
  fold_left (fun acc r => insertByDatePH r acc) l [].

(** the body of the [try] block, given the two replies *)
Definition postHogTry (trend domain : HttpReply) : Result (list PH.t) :=
  match trend with
  | NetworkFailure message => Throw message
  | HttpError statusText =>
      Throw ("PostHog Trend API error: " ++ statusText)
  | BadBody message => Throw message
  | Json trendResult =>
      match domain with
      | NetworkFailure message => Throw message
      | BadBody message => Throw message
      | HttpError _ | Json _ =>
          let domainResult :=
            match domain with
            | Json result => result
            | _ => Some []
            end in
          let results := initResults trendResult in
          match trendResult with
          | None =>
              Throw "Cannot read properties of undefined (reading 'forEach')"
          | Some series =>
              match fillEvents series 0 results with
              | Throw message => Throw message
              | Ok results1 =>
                  let results2 :=
                    match domainResult with
                    | Some items => fillDomains items results1
                    | None => results1
                    end in
                  Ok (sortByDatePH (obj_values results2))
              end
          end
      end
  end.

Definition fetchPostHogData (fuel : nat) (env : PostHogEnv)
  (trend domain : HttpReply) (random : Rng) (startDate endDate : Z)
  : option (list PH.t) :=
  if missing (POSTHOG_API_KEY env) || missing (POSTHOG_PROJECT_ID env)
  then generateMockPostHogData fuel random startDate endDate
  else
    match postHogTry trend domain with
    | Ok series => Some series
    | Throw _ => generateMockPostHogData fuel random startDate endDate
    end.

(** the replies that make the [try] block throw *)
Definition trendUsable (trend : HttpReply) : Prop :=
  exists series, trend = Json (Some series) /\ (List.length series <= 4)%nat.

Definition domainFatal (domain : HttpReply) : Prop :=
  (exists m, domain = NetworkFailure m) \/ (exists m, domain = BadBody m).

Definition postHogEnvEx : PostHogEnv :=
  {| POSTHOG_API_KEY := Some "phc"%string;
     POSTHOG_PROJECT_ID := Some "1"%string |}.

(** a trend reply for three days, the purchases series one day short, and a
    breakdown by two domains *)
Definition trendEx : HttpReply :=
  Json (Some
    [ TS.mk [120; 80; 95] [19786; 19787; 19788] "$pageview";
      TS.mk [30; 20; 25] [19786; 19787; 19788] "pricing_modal_opened";
      TS.mk [6; 4; 5] [19786; 19787; 19788] "pricing_get_started_clicked";
      TS.mk [1; 2] [19786; 19787] "purchase_thank_you" ]).

Definition domainEx : HttpReply :=
  Json (Some
    [ TS.mk [70; 50; 60] [19786; 19787; 19788] "google.com";
      TS.mk [50; 30; 35] [19786; 19787; 19788] "$direct" ]).

Definition fiveSeries : HttpReply :=
  Json (Some (repeat (TS.mk [1] [19786] "x") 5)).

(** every entry of the results dictionary sits under its own date *)
Definition keyedByDate (results : PostHogResults) : Prop :=
  Forall (fun e => PH.date (snd e) = fst e) results.

(** the days on the date axis of the first trend series *)
Definition dateAxis (trend : HttpReply) : list DateKey :=
  match trend with
  | Json (Some (first :: _)) => TS.days first
  | _ => []
  end.

(** a record without its referring domains *)
Definition withoutDomains (r : PH.t) : PH.t :=
  {| PH.date := PH.date r; PH.visitors := PH.visitors r;
     PH.pricingViews := PH.pricingViews r; PH.checkouts := PH.checkouts r;
     PH.purchases := PH.purchases r; PH.referringDomains := [] |}.

(** the breakdown items a non-fatal breakdown reply contributes *)
Definition domainItems (domain : HttpReply) : list TS.t :=
  match domain with
  | Json (Some items) => items
  | _ => []
  end.

(** the value of a funnel metric that the results hold for a day *)
Definition metricAt (m : FunnelMetric) (results : PostHogResults)
  (d : DateKey) : option Z :=
  option_map (metricOf m) (obj_get Z.eqb results d).

(** ** The server action (getDashboardData) and its callers *)

(** day number of a civil date, proleptic Gregorian calendar; [m] is 1..12 *)
Definition daysFromCivil (y m d : Z) : DateKey :=
  let y' := if m <=? 2 then y - 1 else y in
  let era := y' / 400 in
  let yoe := y' - era * 400 in
  let doy := (153 * (if 2 <? m then m - 3 else m + 9) + 2) / 5 + d - 1 in
  let doe := yoe * 365 + yoe / 4 - yoe / 100 + doy in
  era * 146097 + doe - 719468.

(** [date.getDate()], [date.setDate(n)] and [date.getFullYear()] on an
    instant; [new Date(year, monthIndex, day)] *)
Definition instGetDate (ms : Z) : Z := getDate (isoDay ms).

Definition instSetDate (ms : Z) (n : Z) : Z :=
  setDate (isoDay ms) n * MS_PER_DAY + ms mod MS_PER_DAY.

Definition getFullYear (ms : Z) : Z := fst (fst (civil (isoDay ms))).

Definition newDate (year monthIndex day : Z) : Z :=
  daysFromCivil year (monthIndex + 1) day * MS_PER_DAY.

(** The system clock: the n-th [new Date()] of a call reads [clock n]. *)
Definition Clock := nat -> Z.

(** the [if ... else if ...] chain that turns [timeRange] into
    [(startDate, endDate)] *)
Definition selectRange (clock : Clock) (timeRange : string)
  (customStart customEnd : option Z) : Z * Z :=
  let endDate := clock 0%nat in
  let startDate := clock 1%nat in
  let back n := (instSetDate startDate (instGetDate endDate - n), endDate) in
  match String.eqb timeRange "custom", customStart, customEnd with
  | true, Some s, Some e => (s, e)
  | _, _, _ =>
      if String.eqb timeRange "7d" then back 7
      else if String.eqb timeRange "14d" then back 14
      else if String.eqb timeRange "30d" then back 30
      else if String.eqb timeRange "90d" then back 90
      else if String.eqb timeRange "ytd"
           then (newDate (getFullYear (clock 2%nat)) 0 1, endDate)
      else if String.eqb timeRange "all" then (newDate 2023 0 1, endDate)
      else back 30
  end.

(** everything the action reads from outside *)
Record World := {
  clock : Clock;
  lemonEnv : Env;
  lemonApi : Api;
  postHogEnv : PostHogEnv;
  trendReply : HttpReply;
  domainReply : HttpReply;
  random : Rng
}.

(** [getDashboardData]: both fetches for the selected range, then the
    merge.  [None] when a budget runs out. *)
Definition getDashboardData (fuel : nat) (w : World) (timeRange : string)
  (customStart customEnd : option Z) : option (list DD.t) :=
  let (startDate, endDate) :=
    selectRange (clock w) timeRange customStart customEnd in
  match fetchLemonSqueezyData fuel (lemonEnv w) (lemonApi w)
          startDate endDate [],
        fetchPostHogData fuel (postHogEnv w) (trendReply w) (domainReply w)
          (random w) startDate endDate with
  | Some (Ok lemonData, _), Some postHogData =>
      Some (mergedData lemonData postHogData)
  | _, _ => None
  end.

(** the number of days a range name reaches back *)
Definition daysBack (timeRange : string) : Z :=
  if String.eqb timeRange "7d" then 7
  else if String.eqb timeRange "14d" then 14
  else if String.eqb timeRange "90d" then 90
  else 30.

(** a range name that is handled by [setDate(getDate() - n)] *)
Definition isPreset (timeRange : string) (customStart customEnd : option Z)
  : bool :=
  negb (String.eqb timeRange "ytd") && negb (String.eqb timeRange "all")
  && negb (String.eqb timeRange "custom"
           && match customStart, customEnd with
              | Some _, Some _ => true
              | _, _ => false
              end).

(** simple view, in the browser: [today = new Date()], [yesterday = new
    Date(new Date().setDate(today.getDate() - 1))], then
    [getDashboardData('custom', yesterday, today)] *)
Definition simpleViewRange (tz : TimeZone) (clientClock : Clock) : Z * Z :=
  let today := clientClock 0%nat in
  let yesterday :=
    localSetDate tz (clientClock 1%nat) (localGetDate tz today - 1) in
  (yesterday, today).

Definition simpleViewData (fuel : nat) (w : World) (tz : TimeZone)
  (clientClock : Clock) : option (list DD.t) :=
  let (yesterday, today) := simpleViewRange tz clientClock in
  getDashboardData fuel w "custom" (Some yesterday) (Some today).

(** a clock read twice within the same millisecond, at 2024-03-05T10:00Z,
    and one whose second reading is a millisecond later *)
Definition clockSame : Clock := fun _ => 19787 * MS_PER_DAY + 36000000.
Definition clockTick : Clock :=
  fun n => 19787 * MS_PER_DAY + 36000000 + Z.of_nat n.

Definition worldEx : World :=
  {| clock := clockSame; lemonEnv := envEx; lemonApi := apiSample;
     postHogEnv := {| POSTHOG_API_KEY := None; POSTHOG_PROJECT_ID := None |};
     trendReply := trendEx; domainReply := domainEx; random := randomHalf |}.

Definition worldNoBilling : World :=
  {| clock := clockSame; lemonEnv := envNoKey; lemonApi := apiSample;
     postHogEnv := postHogEnvEx;
     trendReply := trendEx; domainReply := domainEx; random := randomHalf |}.

(** a provider with three pages per endpoint, each reporting 3 as the last
    page.  The orders come newest first, two to a page: 2024-03-06 10:00 and
    2024-03-05 12:00; 2024-03-05 10:00 and 2024-03-03 12:00; 2024-03-02
    10:00 and 2024-03-01 10:00. *)
Definition orderAt (created_at : Z) : Order.t :=
  {| Order.created_at := created_at; Order.status := "paid";
     Order.total := 1000 |}.

Definition ordersPage (p : Z) : list Order.t :=
  if p =? 1 then [orderAt 1709719200000; orderAt 1709640000000]
  else if p =? 2 then [orderAt 1709632800000; orderAt 1709467200000]
  else [orderAt 1709373600000; orderAt 1709287200000].

Definition apiThreePages : Api :=
  {| listOrders := fun _ p => Page (ordersPage p) (Some 3);
     listSubscriptionInvoices := fun _ _ => Page [] (Some 3);
     listCustomers :=
       fun _ p => Page [ {| Customer.id := p; Customer.mrr := Some 1000 |} ]
                       (Some 3);
     listSubscriptions :=
       fun _ p => Page [ {| Subscription.customer_id := p |} ] (Some 3) |}.

(* ================================================================== *)
(** * Properties *)
(* ================================================================== *)

(** ** Series merger *)

Section MergeFacts.
Variable postHogData : list PH.t.

Lemma postHogItemFor_date (l : LS.t) :
  PH.date (postHogItemFor postHogData l) = LS.date l.
Proof.
  unfold postHogItemFor.
  destruct (find _ postHogData) as [p|] eqn:Hfind; [|reflexivity].
  apply find_some in Hfind. now apply Z.eqb_eq.
Qed.

Lemma mergeItem_date (l : LS.t) :
  DD.date (mergeItem postHogData l) = LS.date l.
Proof. apply postHogItemFor_date. Qed.

Lemma postHogItemFor_absent (l : LS.t) :
  (forall p, In p postHogData -> PH.date p <> LS.date l) ->
  postHogItemFor postHogData l =
  {| PH.date := LS.date l; PH.visitors := 0; PH.pricingViews := 0;
     PH.checkouts := 0; PH.purchases := 0; PH.referringDomains := [] |}.
Proof.
  intros Habs. unfold postHogItemFor.
  destruct (find _ postHogData) as [p|] eqn:Hfind; [|reflexivity].
  apply find_some in Hfind. destruct Hfind as [Hin Heq].
  apply Z.eqb_eq in Heq. now apply Habs in Hin.
Qed.

Lemma merged_dates (lemonData : list LS.t) :
  map DD.date (mergedData lemonData postHogData) = map LS.date lemonData.
Proof.
  unfold mergedData. rewrite map_map.
  apply map_ext. intro; apply mergeItem_date.
Qed.
End MergeFacts.

Lemma NoDup_map_inj {A B} (f : A -> B) (l : list A) (a b : A) :
  NoDup (map f l) -> In a l -> In b l -> f a = f b -> a = b.
Proof.
  induction l as [|x l IH]; simpl; [tauto|].
  intros Hnd Ha Hb Hf. inversion Hnd as [|? ? Hnotin Hnd']; subst.
  destruct Ha as [->|Ha], Hb as [->|Hb]; auto.
  - exfalso. apply Hnotin. rewrite Hf. now apply in_map.
  - exfalso. apply Hnotin. rewrite <- Hf. now apply in_map.
Qed.

Lemma filter_none {A} (p : A -> bool) (l : list A) :
  (forall x, In x l -> p x = false) -> filter p l = [].
Proof.
  induction l as [|x l IH]; simpl; intros H; [reflexivity|].
  rewrite (H x) by auto. apply IH. auto.
Qed.

Lemma filter_unique_date (l : list DD.t) (d : DateKey) :
  NoDup (map DD.date l) -> In d (map DD.date l) ->
  exists m, filter (fun r => DD.date r =? d) l = [m] /\ DD.date m = d.
Proof.
  induction l as [|x l IH]; simpl; [tauto|].
  intros Hnd Hin. inversion Hnd as [|? ? Hnotin Hnd']; subst.
  destruct (Z.eqb_spec (DD.date x) d) as [Heq|Hne].
  - exists x. split; [|assumption]. f_equal. apply filter_none.
    intros y Hy. apply Z.eqb_neq. intros Hyd. apply Hnotin.
    rewrite Heq, <- Hyd. now apply in_map.
  - destruct Hin as [Hin|Hin]; [contradiction|]. now apply IH.
Qed.

(** C1. Every merged record carries the purchase count of a ledger record
    of the same date; when ledger dates are unique (as in every series) it
    is the count of the ledger record of that date, whatever the analytics
    series reports. *)
Theorem merged_purchases_from_ledger
  (lemonData : list LS.t) (postHogData : list PH.t) (m : DD.t) :
  In m (mergedData lemonData postHogData) ->
  (exists l, In l lemonData /\ LS.date l = DD.date m
             /\ DD.purchases m = LS.purchases l)
  /\ (NoDup (map LS.date lemonData) ->
      forall l, In l lemonData -> LS.date l = DD.date m ->
                DD.purchases m = LS.purchases l).
Proof.
  unfold mergedData. intros Hin. apply in_map_iff in Hin.
  destruct Hin as [l0 [<- Hl0]]. split.
  - exists l0. rewrite mergeItem_date. auto.
  - intros Hnd l Hl Hdate. rewrite mergeItem_date in Hdate.
    now rewrite (NoDup_map_inj LS.date lemonData l l0 Hnd Hl Hl0 Hdate).
Qed.

(** On the sample, the ledger says 3 purchases and the analytics 7: the
    merged record says 3. *)
Lemma merged_purchases_from_ledger_witness :
  exists m, In m (mergedData ledgerEx analyticsEx)
            /\ DD.date m = 19723 /\ DD.purchases m = 3
            /\ (exists l, In l ledgerEx /\ LS.date l = DD.date m
                          /\ DD.purchases m = LS.purchases l).
Proof.
  exists (mergeItem analyticsEx (hd (LS.mk 0 0 0 0 0 0 0) ledgerEx)).
  assert (Hin : In (mergeItem analyticsEx (hd (LS.mk 0 0 0 0 0 0 0) ledgerEx))
                   (mergedData ledgerEx analyticsEx)) by (simpl; auto).
  repeat split; try assumption; try reflexivity.
  exact (proj1 (merged_purchases_from_ledger ledgerEx analyticsEx _ Hin)).
Defined.

(** C3. Merging is total and order preserving: the merged series has the
    length and the date sequence of the ledger, exactly one record for each
    ledger date, and zero analytics fields where the analytics series has no
    record of that date. *)
Theorem merge_total (lemonData : list LS.t) (postHogData : list PH.t) :
  NoDup (map LS.date lemonData) ->
  List.length (mergedData lemonData postHogData) = List.length lemonData
  /\ map DD.date (mergedData lemonData postHogData) = map LS.date lemonData
  /\ (forall d, In d (map LS.date lemonData) ->
        exists m, filter (fun r => DD.date r =? d)
                         (mergedData lemonData postHogData) = [m]
                  /\ DD.date m = d)
  /\ (forall l, In l lemonData ->
        (forall p, In p postHogData -> PH.date p <> LS.date l) ->
        let m := mergeItem postHogData l in
        In m (mergedData lemonData postHogData)
        /\ DD.visitors m = 0 /\ DD.pricingViews m = 0 /\ DD.checkouts m = 0
        /\ DD.referringDomains m = []).
Proof.
  intros Hnd. split; [|split; [|split]].
  - unfold mergedData. apply length_map.
  - apply merged_dates.
  - intros d Hd. apply filter_unique_date; rewrite merged_dates; assumption.
  - intros l Hl Habs m. split; [unfold mergedData; now apply in_map|].
    subst m. unfold mergeItem.
    rewrite (postHogItemFor_absent postHogData l Habs). simpl. tauto.
Qed.

Lemma merge_total_witness :
  NoDup (map LS.date ledgerEx)
  /\ List.length (mergedData ledgerEx analyticsEx) = 2%nat
  /\ map DD.date (mergedData ledgerEx analyticsEx) = [19723; 19724].
Proof.
  assert (Hnd : NoDup (map LS.date ledgerEx)).
  { simpl. repeat constructor; simpl; intuition discriminate. }
  split; [exact Hnd|].
  destruct (merge_total ledgerEx analyticsEx Hnd) as [Hlen [Hdates _]].
  split; [exact Hlen | exact Hdates].
Defined.

(** ** Time-bucket aggregator *)

Lemma sumZ_app f l1 l2 : sumZ f (l1 ++ l2) = sumZ f l1 + sumZ f l2.
Proof. induction l1 as [|x l1 IH]; simpl; [reflexivity|]. rewrite IH. ring. Qed.

Section Buckets.
Variable tz : TimeZone.
Variable granularity : Granularity.

Lemma bucketStep_heldZ f st it :
  flowZ f -> heldZ f (bucketStep tz granularity st it) = heldZ f st + f it.
Proof.
  intros [Hseed Hacc]. destruct st as [agg [b|]]; unfold heldZ; simpl.
  - destruct (negb _); simpl.
    + rewrite sumZ_app, Hseed. simpl. ring.
    + rewrite Hacc. ring.
  - rewrite Hseed. ring.
Qed.

Lemma fold_heldZ f data st :
  flowZ f ->
  heldZ f (fold_left (bucketStep tz granularity) data st)
  = heldZ f st + sumZ f data.
Proof.
  intros Hf. revert st.
  induction data as [|it data IH]; intros st; simpl; [ring|].
  rewrite IH, bucketStep_heldZ by assumption. ring.
Qed.

Lemma flush_heldZ f st : sumZ f (flushBucket st) = heldZ f st.
Proof.
  destruct st as [agg [b|]]; unfold flushBucket, heldZ; simpl.
  - rewrite sumZ_app. simpl. ring.
  - ring.
Qed.

End Buckets.

Lemma aggregated_sumZ tz granularity f data :
  flowZ f -> sumZ f (aggregatedData tz granularity data) = sumZ f data.
Proof.
  intros Hf. unfold aggregatedData.
  destruct granularity; [reflexivity| |];
    rewrite flush_heldZ, fold_heldZ by assumption; unfold heldZ; simpl; ring.
Qed.

(** *** On doubles *)

Lemma sumZ64_app f l1 l2 :
  OnDoubles.sumZ f (l1 ++ l2) = OnDoubles.sumZ f l1 + OnDoubles.sumZ f l2.
Proof. induction l1 as [|x l1 IH]; simpl; [reflexivity|]. rewrite IH. ring. Qed.

(** the loop invariant: the flushed buckets and the open bucket together
    hold the sum of the records consumed, for a count that a fresh bucket
    copies and accumulation adds *)
Lemma fold_heldZ64 tz granularity (f : DF.t -> Z) :
  (forall it k, f (OnDoubles.seedBucket it k) = f it) ->
  (forall b it, f (OnDoubles.accumulate b it) = f b + f it) ->
  forall data st,
    OnDoubles.heldZ f
      (fold_left (OnDoubles.bucketStep tz granularity) data st)
    = OnDoubles.heldZ f st + OnDoubles.sumZ f data.
Proof.
  intros Hseed Hacc.
  induction data as [|it data IH]; intros st; simpl; [ring|].
  rewrite IH. destruct st as [agg [b|]]; unfold OnDoubles.heldZ; simpl.
  - destruct (negb _); simpl.
    + rewrite sumZ64_app, Hseed. simpl. ring.
    + rewrite Hacc. ring.
  - rewrite Hseed. ring.
Qed.

Lemma aggregated_sumZ64 tz granularity (f : DF.t -> Z) data :
  (forall it k, f (OnDoubles.seedBucket it k) = f it) ->
  (forall b it, f (OnDoubles.accumulate b it) = f b + f it) ->
  OnDoubles.sumZ f (OnDoubles.aggregatedData tz granularity data)
  = OnDoubles.sumZ f data.
Proof.
  intros Hseed Hacc.
  assert (Hflush : forall st,
            OnDoubles.sumZ f (OnDoubles.flushBucket st)
            = OnDoubles.heldZ f st).
  { intros [agg [b|]]; unfold OnDoubles.flushBucket, OnDoubles.heldZ; simpl.
    - rewrite sumZ64_app. simpl. ring.
    - ring. }
  unfold OnDoubles.aggregatedData.
  destruct granularity; [reflexivity| |];
    rewrite Hflush, fold_heldZ64 by assumption;
    unfold OnDoubles.heldZ; simpl; ring.
Qed.

(** C5, as the code has it.  Bucketing preserves the totals of the four
    counts [visitors], [pricingViews], [checkouts] and [purchases], for
    every daily series, every granularity (weekly and monthly in particular)
    and every time zone of the browser. *)
Theorem bucketing_preserves_sums (tz : TimeZone) (granularity : Granularity)
  (data : list DF.t) :
  OnDoubles.sumZ DF.visitors (OnDoubles.aggregatedData tz granularity data)
  = OnDoubles.sumZ DF.visitors data
  /\ OnDoubles.sumZ DF.pricingViews
       (OnDoubles.aggregatedData tz granularity data)
     = OnDoubles.sumZ DF.pricingViews data
  /\ OnDoubles.sumZ DF.checkouts
       (OnDoubles.aggregatedData tz granularity data)
     = OnDoubles.sumZ DF.checkouts data
  /\ OnDoubles.sumZ DF.purchases
       (OnDoubles.aggregatedData tz granularity data)
     = OnDoubles.sumZ DF.purchases data.
Proof.
  repeat split; apply aggregated_sumZ64; reflexivity.
Qed.

(** C5 as stated fails for the money fields, which are doubles.  Sunday
    2023-12-31 with a revenue of 0.1, Monday with 0.2 and Tuesday with 0.3:
    the daily records add up to 0.6000000000000001
    (5404319552844596 * 2^-53); weekly bucketing puts the Sunday in the week
    of 2023-12-25 and adds 0.2 + 0.3 = 0.5 first, and the two buckets add up
    to 0.6 (5404319552844595 * 2^-53). *)
Lemma weekly_revenue_total_differs_on_doubles :
  map DF.revenue OnDoubles.threeDays
  = [ S754_finite false 7205759403792794 (-56);
      S754_finite false 7205759403792794 (-55);
      S754_finite false 5404319552844595 (-54) ]
  /\ map DF.date (OnDoubles.aggregatedData utc week OnDoubles.threeDays)
     = [19716; 19723]
  /\ OnDoubles.total DF.revenue OnDoubles.threeDays
     = S754_finite false 5404319552844596 (-53)
  /\ OnDoubles.total DF.revenue
       (OnDoubles.aggregatedData utc week OnDoubles.threeDays)
     = S754_finite false 5404319552844595 (-53)
  /\ B64.eqb (OnDoubles.total DF.revenue OnDoubles.threeDays)
             (OnDoubles.total DF.revenue
                (OnDoubles.aggregatedData utc week OnDoubles.threeDays))
     = false.
Proof. vm_compute. repeat split. Qed.

(** The two-day scenario: Monday 2024-01-01 and Tuesday 2024-01-02 fall in
    one weekly bucket keyed by the Monday, holding the sums. *)
Example weekly_bucket_of_two_days :
  map (fun b => (DD.date b, DD.visitors b, DD.pricingViews b, DD.checkouts b,
                 DD.purchases b))
      (aggregatedData utc week
         [ DD.mk 19723 100 20 5 [] 0 50 0 0 0 1;
           DD.mk 19724 200 40 10 [] 0 100 20 0 0 2 ])
  = [(19723, 300, 60, 15, 3)]
  /\ civil 19723 = (2024, 1, 1) /\ getDay 19723 = 1.
Proof. vm_compute. auto. Qed.

(** ** Rate calculator *)

Lemma Qeq_bool_inject_Z (z : Z) : Qeq_bool (inject_Z z) 0 = (z =? 0).
Proof.
  destruct (Z.eqb_spec z 0) as [->|Hne]; [reflexivity|].
  destruct (Qeq_bool (inject_Z z) 0) eqn:E; [|reflexivity].
  apply Qeq_bool_iff in E. unfold Qeq in E. simpl in E. lia.
Qed.

Lemma sgn_nonzero (y : Q) : ~ (y == 0)%Q -> sgn y <> Eq.
Proof. unfold sgn. intros Hy Heq. apply Hy. now apply Qeq_alt. Qed.

Lemma calculateRate_falsy (num den : jsval) :
  truthy den = false -> calculateRate num den = Fin 0.
Proof. intros H. unfold calculateRate. now rewrite H. Qed.

Lemma calculateRate_finite (x y : Q) :
  ~ (y == 0)%Q ->
  calculateRate (VNum (Fin x)) (VNum (Fin y)) = Fin (x / y * 100).
Proof.
  intros Hy. unfold calculateRate. simpl.
  destruct (Qeq_bool y 0) eqn:E.
  - apply Qeq_bool_iff in E. contradiction.
  - simpl. pose proof (sgn_nonzero y Hy) as Hs.
    destruct (sgn y); [contradiction | reflexivity | reflexivity].
Qed.

Lemma calculateRate_counts (n d : Z) :
  calculateRate (ofZ n) (ofZ d)
  = if d =? 0 then Fin 0 else Fin (inject_Z n / inject_Z d * 100).
Proof.
  destruct (Z.eqb_spec d 0) as [->|Hne]; [reflexivity|].
  apply calculateRate_finite. unfold Qeq. simpl. lia.
Qed.

Lemma truthy_not_zero (den : jsval) :
  truthy den = true -> strictEqZero den = false.
Proof.
  destruct den as [|[q| | |]| | |]; simpl; try reflexivity.
  now destruct (Qeq_bool q 0).
Qed.

Lemma getField_shape (it : DD.t) (name : string) :
  getField it name = VUndefined
  \/ (exists q, getField it name = VNum (Fin q))
  \/ (exists d, getField it name = VDateText d)
  \/ getField it name = VObject
  \/ getField it name = VInherited.
Proof.
  unfold getField, ofZ, ofQ.
  repeat match goal with
         | |- context [if String.eqb ?a ?b then _ else _] =>
             destruct (String.eqb a b)
         end; eauto 7.
  destruct (existsb _ _); auto 7.
Qed.

(** C6, as the code has it.  The three funnel rates of a processed record
    are finite: 0 when their denominator is 0, (n / d) * 100 otherwise.  The
    custom rate is exactly 0 whenever the value read for the denominator
    property is falsy, whatever the numerator (an absent one included); that
    value is falsy exactly when it is [undefined] (the record has no such
    property and inherits none) or the number 0.  When it is truthy the rate
    is the JS value of (numerator / denominator) * 100, which is the finite
    number (n / d) * 100 when both properties are numeric fields. *)
Theorem rates_of_processed_record (customConfig : CustomConfig)
  (data : list DD.t) (p : ProcessedItem) :
  In p (processedData customConfig data) ->
  let num := getField (item p) (numerator customConfig) in
  let den := getField (item p) (denominator customConfig) in
  visitorToPriceViewRate p
  = (if DD.visitors (item p) =? 0 then Fin 0
     else Fin (inject_Z (DD.pricingViews (item p))
               / inject_Z (DD.visitors (item p)) * 100))
  /\ priceViewToCheckoutRate p
     = (if DD.pricingViews (item p) =? 0 then Fin 0
        else Fin (inject_Z (DD.checkouts (item p))
                  / inject_Z (DD.pricingViews (item p)) * 100))
  /\ checkoutToPurchaseRate p
     = (if DD.checkouts (item p) =? 0 then Fin 0
        else Fin (inject_Z (DD.purchases (item p))
                  / inject_Z (DD.checkouts (item p)) * 100))
  /\ (truthy den = false -> customRate p = Fin 0)
  /\ (truthy den = true ->
      customRate p = jsMul (jsDiv (toNumber num) (toNumber den)) (Fin 100))
  /\ (forall x y, num = VNum (Fin x) -> den = VNum (Fin y) ->
                  ~ (y == 0)%Q -> customRate p = Fin (x / y * 100))
  /\ (truthy den = false
      <-> den = VUndefined \/ exists q, den = VNum (Fin q) /\ (q == 0)%Q).
Proof.
  unfold processedData. intros Hin. apply in_map_iff in Hin.
  destruct Hin as [it [<- _]]. simpl.
  split; [apply calculateRate_counts|].
  split; [apply calculateRate_counts|].
  split; [apply calculateRate_counts|].
  split; [apply calculateRate_falsy|]. split; [|split].
  - intros Hden. unfold calculateRate.
    now rewrite Hden, (truthy_not_zero _ Hden).
  - intros x y -> -> Hy. now apply calculateRate_finite.
  - destruct (getField_shape it (denominator customConfig))
      as [Hd|[[y Hd]|[[dd Hd]|[Hd|Hd]]]]; rewrite Hd; simpl.
    + split; [now left | reflexivity].
    + destruct (Qeq_bool y 0) eqn:Hy; simpl.
      * apply Qeq_bool_iff in Hy. split; [|reflexivity].
        intros _. right. exists y. auto.
      * split; [discriminate|].
        intros [H|[q [[= <-] Hq]]]; [discriminate|].
        apply Qeq_bool_iff in Hq. congruence.
    + split; [discriminate|].
      intros [H|[q [H _]]]; discriminate.
    + split; [discriminate|].
      intros [H|[q [H _]]]; discriminate.
    + split; [discriminate|].
      intros [H|[q [H _]]]; discriminate.
Qed.

Lemma rates_of_processed_record_witness :
  In (processItem configDefault itemEx) (processedData configDefault [itemEx])
  /\ visitorToPriceViewRate (processItem configDefault itemEx)
     = Fin (inject_Z 20 / inject_Z 100 * 100).
Proof.
  assert (Hin : In (processItem configDefault itemEx)
                   (processedData configDefault [itemEx])) by (simpl; auto).
  split; [exact Hin|].
  exact (proj1 (rates_of_processed_record configDefault [itemEx] _ Hin)).
Defined.

(** C6 as stated fails: a numerator property the record does not have, over
    a non-zero denominator, gives [NaN]. *)
Lemma absent_numerator_gives_NaN :
  In (processItem configAbsentNumerator itemEx)
     (processedData configAbsentNumerator [itemEx])
  /\ getField itemEx (numerator configAbsentNumerator) = VUndefined
  /\ getField itemEx (denominator configAbsentNumerator) = ofZ 100
  /\ customRate (processItem configAbsentNumerator itemEx) = NaN
  /\ isFinite (customRate (processItem configAbsentNumerator itemEx)) = false.
Proof. repeat split. simpl; auto. Qed.

(** ** Pagination loops *)

Lemma consecutive_length from n : List.length (consecutive from n) = n.
Proof. revert from. induction n; intros; simpl; auto. Qed.

Lemma consecutive_In from n x :
  In x (consecutive from n) <-> from <= x < from + Z.of_nat n.
Proof.
  revert from. induction n as [|n IH]; intros from; simpl.
  - lia.
  - rewrite IH. lia.
Qed.

Lemma consecutive_snoc from n :
  consecutive from (S n) = consecutive from n ++ [from + Z.of_nat n].
Proof.
  revert from. induction n as [|n IH]; intros from.
  - simpl. now rewrite Z.add_0_r.
  - change (consecutive from (S (S n)))
      with (from :: consecutive (from + 1) (S n)).
    rewrite IH. simpl. do 3 f_equal. lia.
Qed.

Lemma reachedLastPage_bounded lp L page :
  lp <> 0 -> lp <= L -> reachedLastPage (Some lp) page = false -> page < L.
Proof.
  unfold reachedLastPage. intros Hnz Hle H.
  destruct (Z.eqb_spec lp 0); [contradiction|]. simpl in H.
  apply Z.leb_gt in H. lia.
Qed.

Section PaginationFacts.
Context {A : Type}.
Variable endpoint : Endpoint.
Variable list_ : Z -> Response A.

Section DatedFacts.
Variable created_at : A -> Z.
Variables startDate endDate : Z.

Let loop := fetchAllDated endpoint list_ created_at startDate endDate.
Let keep := inRange created_at startDate endDate.

(** what a finished run of the loop did *)
Lemma fetchAllDated_trace fuel : forall page all tr r tr',
  loop fuel page all tr = Some (r, tr') ->
  exists n, (1 <= n <= fuel)%nat
    /\ tr' = tr ++ flat_map (fetchLog endpoint list_) (consecutive page n)
    /\ match r with
       | Ok res =>
           res = all ++ filter keep
                   (flat_map (fun p => pageData (list_ p)) (consecutive page n))
           /\ Forall (fun p => isError (list_ p) = false) (consecutive page n)
       | Throw _ =>
           Exists (fun p => isError (list_ p) = true) (consecutive page n)
       end.
Proof.
  subst loop keep. induction fuel as [|fuel IH]; intros page all tr r tr' Hrun.
  - discriminate.
  - cbn [fetchAllDated] in Hrun. unfold await in Hrun. unfold bind, emit in Hrun.
    cbn beta iota in Hrun.
    assert (Hone : flat_map (fetchLog endpoint list_) (consecutive page 1)
                   = Fetch endpoint page :: onErrorLog (list_ page))
      by (simpl; now rewrite app_nil_r).
    destruct (list_ page) as [msg|msg| |data lp] eqn:Hresp;
      cbn in Hrun.
    + injection Hrun as <- <-. exists 1%nat. rewrite Hone.
      split; [lia|]. split; [reflexivity|].
      constructor. now rewrite Hresp.
    + injection Hrun as <- <-. exists 1%nat. rewrite Hone, <- app_assoc.
      split; [lia|]. split; [reflexivity|].
      constructor. now rewrite Hresp.
    + injection Hrun as <- <-. exists 1%nat. rewrite Hone.
      split; [lia|]. split; [reflexivity|]. cbn. rewrite Hresp. cbn.
      rewrite app_nil_r. split; [reflexivity|].
      constructor; [now rewrite Hresp | constructor].
    + assert (Hstop : forall res t, Some (Ok (all ++ filter
                 (inRange created_at startDate endDate) data),
                 tr ++ [Fetch endpoint page]) = Some (res, t) ->
               exists n, (1 <= n <= S fuel)%nat
                 /\ t = tr ++ flat_map (fetchLog endpoint list_)
                                       (consecutive page n)
                 /\ match res with
                    | Ok v => v = all ++ filter
                                (inRange created_at startDate endDate)
                                (flat_map (fun p => pageData (list_ p))
                                          (consecutive page n))
                              /\ Forall (fun p => isError (list_ p) = false)
                                        (consecutive page n)
                    | Throw _ => Exists (fun p => isError (list_ p) = true)
                                        (consecutive page n)
                    end).
      { intros res t Heq. injection Heq as <- <-. exists 1%nat. rewrite Hone.
        split; [lia|]. split; [reflexivity|]. cbn.
        rewrite Hresp. cbn. rewrite app_nil_r. split; [reflexivity|].
        constructor; [now rewrite Hresp | constructor]. }
      destruct (lastItemTooOld created_at startDate data);
        [now apply Hstop|].
      destruct (reachedLastPage lp page); [now apply Hstop|].
      apply IH in Hrun. destruct Hrun as [n [Hn [Htr Hres]]].
      exists (S n). split; [lia|]. split.
      * rewrite Htr, <- app_assoc. cbn [consecutive flat_map].
        unfold fetchLog at 2. rewrite Hresp. reflexivity.
      * cbn [consecutive flat_map]. rewrite Hresp. cbn [pageData].
        destruct r as [res|msg].
        -- destruct Hres as [-> Hall]. split.
           ++ now rewrite filter_app, app_assoc.
           ++ constructor; [now rewrite Hresp | assumption].
        -- now apply Exists_cons_tl.
Qed.

(** pages that carry no error add nothing but their fetches *)
Lemma fetchLog_ok pages :
  Forall (fun p => isError (list_ p) = false) pages ->
  flat_map (fetchLog endpoint list_) pages = map (Fetch endpoint) pages.
Proof.
  induction 1 as [|p pages Hp _ IH]; simpl; [reflexivity|].
  rewrite IH. destruct (list_ p); try discriminate; reflexivity.
Qed.

(** what a run of the loop that returns did *)
Lemma fetchAllDated_run fuel page all tr res tr' :
  loop fuel page all tr = Some (Ok res, tr') ->
  exists n, (1 <= n <= fuel)%nat
    /\ tr' = tr ++ map (Fetch endpoint) (consecutive page n)
    /\ res = all ++ filter keep
               (flat_map (fun p => pageData (list_ p)) (consecutive page n))
       /\ Forall (fun p => isError (list_ p) = false) (consecutive page n).
Proof.
  intros Hrun. apply fetchAllDated_trace in Hrun.
  destruct Hrun as [n [Hn [-> [-> Hok]]]]. exists n.
  rewrite (fetchLog_ok _ Hok). auto.
Qed.

(** the loop finishes within [L] fetches when last-page numbers are bounded *)
Lemma fetchAllDated_terminates L :
  boundedLastPage list_ L ->
  forall fuel page all tr,
    1 <= page <= L -> L + 1 - page <= Z.of_nat fuel ->
    loop fuel page all tr <> None.
Proof.
  subst loop. intros Hb. induction fuel as [|fuel IH];
    intros page all tr Hpage Hfuel; [simpl in Hfuel; lia|].
  cbn [fetchAllDated]. unfold await. unfold bind, emit. cbn beta iota.
  specialize (Hb page Hpage).
  destruct (list_ page) as [msg|msg| |data lp]; cbn; try discriminate.
  destruct (lastItemTooOld created_at startDate data); [discriminate|].
  destruct lp as [lp|]; [|contradiction]. destruct Hb as [Hnz Hle].
  destruct (reachedLastPage (Some lp) page) eqn:Hreach; [discriminate|].
  pose proof (reachedLastPage_bounded lp L page Hnz Hle Hreach).
  apply IH; lia.
Qed.

(** pages without records on which the last-page test never succeeds keep
    the loop running *)
Lemma fetchAllDated_diverges :
  (forall p, exists lp,
      list_ p = Page [] lp /\ reachedLastPage lp p = false) ->
  forall fuel page all tr, loop fuel page all tr = None.
Proof.
  subst loop. intros Hpages. induction fuel as [|fuel IH];
    intros page all tr; [reflexivity|].
  cbn [fetchAllDated]. unfold await. unfold bind, emit. cbn beta iota.
  destruct (Hpages page) as [lp [-> Hreach]]. cbn. rewrite Hreach.
  apply IH.
Qed.
End DatedFacts.

Lemma fetchAllPlain_trace fuel : forall page all tr r tr',
  fetchAllPlain endpoint list_ fuel page all tr = Some (r, tr') ->
  exists n, (1 <= n <= fuel)%nat
    /\ tr' = tr ++ flat_map (fetchLog endpoint list_) (consecutive page n)
    /\ match r with
       | Ok res =>
           res = all ++ flat_map (fun p => pageData (list_ p))
                                 (consecutive page n)
           /\ Forall (fun p => isError (list_ p) = false) (consecutive page n)
       | Throw _ =>
           Exists (fun p => isError (list_ p) = true) (consecutive page n)
       end.
Proof.
  induction fuel as [|fuel IH]; intros page all tr r tr' Hrun.
  - discriminate.
  - cbn [fetchAllPlain] in Hrun. unfold await in Hrun. unfold bind, emit in Hrun.
    cbn beta iota in Hrun.
    assert (Hone : flat_map (fetchLog endpoint list_) (consecutive page 1)
                   = Fetch endpoint page :: onErrorLog (list_ page))
      by (simpl; now rewrite app_nil_r).
    destruct (list_ page) as [msg|msg| |data lp] eqn:Hresp;
      cbn in Hrun.
    + injection Hrun as <- <-. exists 1%nat. rewrite Hone.
      split; [lia|]. split; [reflexivity|].
      constructor. now rewrite Hresp.
    + injection Hrun as <- <-. exists 1%nat. rewrite Hone, <- app_assoc.
      split; [lia|]. split; [reflexivity|].
      constructor. now rewrite Hresp.
    + injection Hrun as <- <-. exists 1%nat. rewrite Hone.
      split; [lia|]. split; [reflexivity|]. cbn. rewrite Hresp. cbn.
      rewrite app_nil_r. split; [reflexivity|].
      constructor; [now rewrite Hresp | constructor].
    + destruct (reachedLastPage lp page).
      * injection Hrun as <- <-. exists 1%nat. rewrite Hone.
        split; [lia|]. split; [reflexivity|]. cbn.
        rewrite Hresp. cbn. rewrite app_nil_r. split; [reflexivity|].
        constructor; [now rewrite Hresp | constructor].
      * apply IH in Hrun. destruct Hrun as [n [Hn [Htr Hres]]].
        exists (S n). split; [lia|]. split.
        -- rewrite Htr, <- app_assoc. cbn [consecutive flat_map].
           unfold fetchLog at 2. rewrite Hresp. reflexivity.
        -- cbn [consecutive flat_map]. rewrite Hresp. cbn [pageData].
           destruct r as [res|msg].
           ++ destruct Hres as [-> Hall]. split.
              ** now rewrite app_assoc.
              ** constructor; [now rewrite Hresp | assumption].
           ++ now apply Exists_cons_tl.
Qed.

Lemma fetchAllPlain_run fuel page all tr res tr' :
  fetchAllPlain endpoint list_ fuel page all tr = Some (Ok res, tr') ->
  exists n, (1 <= n <= fuel)%nat
    /\ tr' = tr ++ map (Fetch endpoint) (consecutive page n)
    /\ res = all ++ flat_map (fun p => pageData (list_ p))
                            (consecutive page n)
       /\ Forall (fun p => isError (list_ p) = false) (consecutive page n).
Proof.
  intros Hrun. apply fetchAllPlain_trace in Hrun.
  destruct Hrun as [n [Hn [-> [-> Hok]]]]. exists n.
  rewrite (fetchLog_ok _ Hok). auto.
Qed.

Lemma fetchAllPlain_terminates L :
  boundedLastPage list_ L ->
  forall fuel page all tr,
    1 <= page <= L -> L + 1 - page <= Z.of_nat fuel ->
    fetchAllPlain endpoint list_ fuel page all tr <> None.
Proof.
  intros Hb. induction fuel as [|fuel IH];
    intros page all tr Hpage Hfuel; [simpl in Hfuel; lia|].
  cbn [fetchAllPlain]. unfold await. unfold bind, emit. cbn beta iota.
  specialize (Hb page Hpage).
  destruct (list_ page) as [msg|msg| |data lp]; cbn; try discriminate.
  destruct lp as [lp|]; [|contradiction]. destruct Hb as [Hnz Hle].
  destruct (reachedLastPage (Some lp) page) eqn:Hreach; [discriminate|].
  pose proof (reachedLastPage_bounded lp L page Hnz Hle Hreach).
  apply IH; lia.
Qed.

Lemma fetchAllPlain_diverges :
  (forall p, exists data lp,
      list_ p = Page data lp /\ reachedLastPage lp p = false) ->
  forall fuel page all tr,
    fetchAllPlain endpoint list_ fuel page all tr = None.
Proof.
  intros Hpages. induction fuel as [|fuel IH];
    intros page all tr; [reflexivity|].
  cbn [fetchAllPlain]. unfold await. unfold bind, emit. cbn beta iota.
  destruct (Hpages page) as [data [lp [-> Hreach]]]. cbn. rewrite Hreach.
  apply IH.
Qed.
End PaginationFacts.

Section PaginationBudget.
Context {A : Type}.
Variable endpoint : Endpoint.
Variable list_ : Z -> Response A.

(** a finished run is not changed by a larger budget *)
Lemma fetchAllDated_fuel_mono created_at startDate endDate fuel :
  forall page all tr x,
    fetchAllDated endpoint list_ created_at startDate endDate fuel page all tr
    = Some x ->
    forall fuel', (fuel <= fuel')%nat ->
      fetchAllDated endpoint list_ created_at startDate endDate
        fuel' page all tr = Some x.
Proof.
  induction fuel as [|fuel IH]; intros page all tr x Hrun fuel' Hle;
    [discriminate|].
  destruct fuel' as [|fuel']; [lia|].
  cbn [fetchAllDated] in *. unfold await in *. unfold bind, emit in *.
  cbn beta iota in *.
  destruct (list_ page) as [msg|msg| |data lp]; cbn in *; try assumption.
  destruct (lastItemTooOld created_at startDate data); [assumption|].
  destruct (reachedLastPage lp page); [assumption|].
  apply IH with (fuel' := fuel') in Hrun; [assumption | lia].
Qed.

Lemma fetchAllPlain_fuel_mono fuel :
  forall page all tr x,
    fetchAllPlain endpoint list_ fuel page all tr = Some x ->
    forall fuel', (fuel <= fuel')%nat ->
      fetchAllPlain endpoint list_ fuel' page all tr = Some x.
Proof.
  induction fuel as [|fuel IH]; intros page all tr x Hrun fuel' Hle;
    [discriminate|].
  destruct fuel' as [|fuel']; [lia|].
  cbn [fetchAllPlain] in *. unfold await in *. unfold bind, emit in *.
  cbn beta iota in *.
  destruct (list_ page) as [msg|msg| |data lp]; cbn in *; try assumption.
  destruct (reachedLastPage lp page); [assumption|].
  apply IH with (fuel' := fuel') in Hrun; [assumption | lia].
Qed.

Lemma fetchAllDated_runsWithin created_at startDate endDate L fuel :
  1 <= L -> boundedLastPage list_ L -> (Z.to_nat L <= fuel)%nat ->
  runsWithin
    (fetchAllDated endpoint list_ created_at startDate endDate fuel 1 [])
    endpoint list_ L.
Proof.
  intros HL Hb Hfuel tr.
  destruct (fetchAllDated endpoint list_ created_at startDate endDate
              (Z.to_nat L) 1 [] tr) as [[r tr']|] eqn:Hrun.
  - pose proof (fetchAllDated_trace _ _ _ _ _ _ _ _ _ _ _ Hrun)
      as [n [Hn [-> _]]].
    exists r, n. split; [|assumption].
    now apply fetchAllDated_fuel_mono with (fuel := Z.to_nat L).
  - exfalso. revert Hrun. apply fetchAllDated_terminates with (L := L);
      [assumption | lia | lia].
Qed.

Lemma fetchAllPlain_runsWithin L fuel :
  1 <= L -> boundedLastPage list_ L -> (Z.to_nat L <= fuel)%nat ->
  runsWithin (fetchAllPlain endpoint list_ fuel 1 []) endpoint list_ L.
Proof.
  intros HL Hb Hfuel tr.
  destruct (fetchAllPlain endpoint list_ (Z.to_nat L) 1 [] tr)
    as [[r tr']|] eqn:Hrun.
  - pose proof (fetchAllPlain_trace _ _ _ _ _ _ _ _ Hrun) as [n [Hn [-> _]]].
    exists r, n. split; [|assumption].
    now apply fetchAllPlain_fuel_mono with (fuel := Z.to_nat L).
  - exfalso. revert Hrun. apply fetchAllPlain_terminates with (L := L);
      [assumption | lia | lia].
Qed.
End PaginationBudget.

(** C7, as the code has it.  When on each of the first [L] pages the
    provider reports a last-page number that is present, not 0 and at most
    [L], every one of the four pagination loops finishes after at most [L]
    fetches, whether or not the date short-circuit ever triggers. *)
Theorem pagination_runs_within_lastPage
  (api : Api) (storeId : option string) (startDate endDate L : Z)
  (fuel : nat) :
  1 <= L -> (Z.to_nat L <= fuel)%nat ->
  boundedLastPage (listOrders api storeId) L ->
  boundedLastPage (listSubscriptionInvoices api storeId) L ->
  boundedLastPage (listCustomers api storeId) L ->
  boundedLastPage (listSubscriptions api storeId) L ->
  runsWithin (fetchAllOrders api storeId startDate endDate fuel)
    Orders (listOrders api storeId) L
  /\ runsWithin (fetchAllInvoices api storeId startDate endDate fuel)
       SubscriptionInvoices (listSubscriptionInvoices api storeId) L
  /\ runsWithin (fetchAllCustomers api storeId fuel)
       Customers (listCustomers api storeId) L
  /\ runsWithin (fetchActiveSubs api storeId fuel)
       Subscriptions (listSubscriptions api storeId) L.
Proof.
  intros HL Hfuel Ho Hi Hc Hs. repeat split.
  - now apply fetchAllDated_runsWithin.
  - now apply fetchAllDated_runsWithin.
  - now apply fetchAllPlain_runsWithin.
  - now apply fetchAllPlain_runsWithin.
Qed.

(** Three pages per endpoint, each reporting 3 as the last page. *)
Lemma pagination_runs_within_lastPage_witness :
  runsWithin (fetchAllOrders apiThreePages None 0 0 3)
    Orders (listOrders apiThreePages None) 3
  /\ runsWithin (fetchAllInvoices apiThreePages None 0 0 3)
       SubscriptionInvoices (listSubscriptionInvoices apiThreePages None) 3
  /\ runsWithin (fetchAllCustomers apiThreePages None 3)
       Customers (listCustomers apiThreePages None) 3
  /\ runsWithin (fetchActiveSubs apiThreePages None 3)
       Subscriptions (listSubscriptions apiThreePages None) 3.
Proof.
  apply (pagination_runs_within_lastPage apiThreePages None 0 0 3 3).
  - lia.
  - simpl. lia.
  - intros p _. simpl. lia.
  - intros p _. simpl. lia.
  - intros p _. simpl. lia.
  - intros p _. simpl. lia.
Defined.

(** C7 as stated fails.  A provider whose empty pages each report a finite
    last-page number keeps the order loop and the customer loop running for
    ever when that number is always one more than the page fetched, and also
    when it is always 0. *)
Lemma finite_lastPage_does_not_stop_the_loops :
  (forall p, listOrders apiGrowing None p = Page [] (Some (p + 1)))
  /\ ~ (exists fuel, fetchAllOrders apiGrowing None 0 0 fuel [] <> None)
  /\ ~ (exists fuel, fetchAllCustomers apiGrowing None fuel [] <> None)
  /\ (forall p, listOrders apiZero None p = Page [] (Some 0))
  /\ ~ (exists fuel, fetchAllOrders apiZero None 0 0 fuel [] <> None)
  /\ ~ (exists fuel, fetchAllCustomers apiZero None fuel [] <> None).
Proof.
  assert (Hgrow : forall p, reachedLastPage (Some (p + 1)) p = false).
  { intros p. unfold reachedLastPage.
    destruct (Z.leb_spec (p + 1) p); [lia|]. apply andb_false_r. }
  repeat split; try (intros [fuel Hrun]; apply Hrun).
  - apply fetchAllDated_diverges. intros p. exists (Some (p + 1)). auto.
  - apply fetchAllPlain_diverges. intros p. exists [], (Some (p + 1)). auto.
  - apply fetchAllDated_diverges. intros p. exists (Some 0). auto.
  - apply fetchAllPlain_diverges. intros p. exists [], (Some 0). auto.
Qed.

(** ** The day dictionary *)

Section DailyDataFacts.
Variable V : Type.
Implicit Types (o : JsObject Z V) (k : Z) (v : V).

Lemma obj_get_set_same o k v :
  obj_get Z.eqb (obj_set Z.eqb o k v) k = Some v.
Proof.
  induction o as [|[k' v'] o IH]; simpl.
  - now rewrite Z.eqb_refl.
  - destruct (Z.eqb_spec k' k) as [->|Hne]; simpl.
    + now rewrite Z.eqb_refl.
    + destruct (Z.eqb_spec k' k); [contradiction | assumption].
Qed.

Lemma obj_get_set_other o k k' v :
  k <> k' -> obj_get Z.eqb (obj_set Z.eqb o k v) k' = obj_get Z.eqb o k'.
Proof.
  intros Hne. induction o as [|[k0 v0] o IH]; simpl.
  - destruct (Z.eqb_spec k k'); [contradiction | reflexivity].
  - destruct (Z.eqb_spec k0 k) as [->|Hne0]; simpl.
    + destruct (Z.eqb_spec k k'); [contradiction | reflexivity].
    + now rewrite IH.
Qed.

Lemma obj_keys_set_present o k v :
  obj_get Z.eqb o k <> None ->
  obj_keys (obj_set Z.eqb o k v) = obj_keys o.
Proof.
  unfold obj_keys. induction o as [|[k' v'] o IH]; simpl; [congruence|].
  destruct (Z.eqb_spec k' k) as [->|Hne]; simpl; [reflexivity|].
  intros H. now rewrite IH.
Qed.

Lemma obj_get_None_keys o k :
  obj_get Z.eqb o k = None <-> ~ In k (obj_keys o).
Proof.
  unfold obj_keys. induction o as [|[k' v'] o IH]; simpl; [tauto|].
  destruct (Z.eqb_spec k' k) as [->|Hne].
  - split; [discriminate | tauto].
  - rewrite IH. tauto.
Qed.

Lemma obj_set_absent o k v :
  ~ In k (obj_keys o) -> obj_set Z.eqb o k v = o ++ [(k, v)].
Proof.
  unfold obj_keys. induction o as [|[k' v'] o IH]; simpl; [reflexivity|].
  intros Hnotin. destruct (Z.eqb_spec k' k) as [->|Hne]; [tauto|].
  rewrite IH; tauto.
Qed.

Lemma obj_get_Some_In o k v : obj_get Z.eqb o k = Some v -> In (k, v) o.
Proof.
  induction o as [|[k' v'] o IH]; simpl; [discriminate|].
  destruct (Z.eqb_spec k' k) as [->|Hne].
  - intros [= ->]. now left.
  - intros H. right. now apply IH.
Qed.

Lemma obj_In_get o k v :
  NoDup (obj_keys o) -> In (k, v) o -> obj_get Z.eqb o k = Some v.
Proof.
  unfold obj_keys. induction o as [|[k' v'] o IH]; simpl; [tauto|].
  intros Hnd Hin. inversion Hnd as [|? ? Hnotin Hnd']; subst.
  destruct Hin as [[= -> ->]|Hin].
  - now rewrite Z.eqb_refl.
  - destruct (Z.eqb_spec k' k) as [->|Hne]; [|now apply IH].
    exfalso. apply Hnotin. change k with (fst (k, v)). now apply in_map.
Qed.
End DailyDataFacts.

Arguments obj_get_set_same {V}.
Arguments obj_get_set_other {V}.
Arguments obj_keys_set_present {V}.
Arguments obj_get_None_keys {V}.
Arguments obj_set_absent {V}.
Arguments obj_get_Some_In {V}.
Arguments obj_In_get {V}.

Lemma consecutive_NoDup from n : NoDup (consecutive from n).
Proof.
  revert from. induction n as [|n IH]; intros from; simpl; constructor.
  - rewrite consecutive_In. lia.
  - apply IH.
Qed.

Lemma isoDay_next ms : isoDay (ms + MS_PER_DAY) = isoDay ms + 1.
Proof.
  unfold isoDay, MS_PER_DAY.
  replace (ms + 86400000) with (ms + 1 * 86400000) by lia.
  now rewrite Z.div_add by lia.
Qed.

Lemma dayCount_step cur endDate :
  cur <= endDate ->
  dayCount cur endDate = S (dayCount (cur + MS_PER_DAY) endDate).
Proof.
  intros Hle. unfold dayCount.
  destruct (Z.leb_spec cur endDate) as [_|]; [|lia]. f_equal.
  unfold MS_PER_DAY.
  destruct (Z.leb_spec (cur + 86400000) endDate) as [Hnext|Hnext].
  - replace (endDate - cur)
      with ((endDate - (cur + 86400000)) + 1 * 86400000) by lia.
    rewrite Z.div_add by lia.
    assert (0 <= (endDate - (cur + 86400000)) / 86400000)
      by (apply Z.div_pos; lia).
    lia.
  - rewrite Z.div_small by lia. reflexivity.
Qed.

Lemma dayCount_past cur endDate : endDate < cur -> dayCount cur endDate = O.
Proof.
  intros H. unfold dayCount. destruct (Z.leb_spec cur endDate); [lia|reflexivity].
Qed.

(** the day loop, when it finishes, has appended one zero entry per
    iteration, with consecutive day keys *)
Lemma initDailyData_keys endDate fuel : forall cur acc a j d,
  obj_keys acc = consecutive a j -> isoDay cur = a + Z.of_nat j ->
  allZero acc ->
  initDailyData fuel cur endDate acc = Some d ->
  obj_keys d = consecutive a (j + dayCount cur endDate) /\ allZero d.
Proof.
  induction fuel as [|fuel IH]; intros cur acc a j d Hkeys Hday Hzero Hrun;
    simpl in Hrun; destruct (Z.leb_spec cur endDate) as [Hle|Hgt];
    try discriminate.
  - injection Hrun as <-. rewrite dayCount_past, Nat.add_0_r by lia. auto.
  - rewrite dayCount_step by assumption.
    assert (Hfresh : ~ In (isoDay cur) (obj_keys acc)).
    { rewrite Hkeys, consecutive_In. lia. }
    rewrite (obj_set_absent acc _ _ Hfresh) in Hrun.
    apply IH with (a := a) (j := S j) in Hrun.
    + now rewrite Nat.add_succ_r.
    + unfold obj_keys in *. rewrite map_app, Hkeys, consecutive_snoc.
      simpl. now rewrite Hday.
    + rewrite isoDay_next. lia.
    + apply Forall_app. split; [assumption|]. now constructor.
  - injection Hrun as <-. rewrite dayCount_past, Nat.add_0_r by lia. auto.
Qed.

(** and it finishes when the budget covers the days of the range *)
Lemma initDailyData_total endDate fuel : forall cur acc,
  (dayCount cur endDate <= fuel)%nat ->
  initDailyData fuel cur endDate acc <> None.
Proof.
  induction fuel as [|fuel IH]; intros cur acc Hfuel; simpl;
    destruct (Z.leb_spec cur endDate) as [Hle|Hgt]; try discriminate.
  - rewrite dayCount_step in Hfuel by assumption. lia.
  - apply IH. rewrite dayCount_step in Hfuel by assumption. lia.
Qed.

(** ** Booking orders and invoices *)

Lemma processOrder_get (d : DailyData) (o : Order.t) (k : DateKey) :
  obj_get Z.eqb (processOrder d o) k
  = match obj_get Z.eqb d k with
    | Some m =>
        Some (if orderHits k o
              then {| DM.revenue := DM.revenue m + amountOf (Order.total o);
                      DM.renewalRevenue := DM.renewalRevenue m;
                      DM.purchases := DM.purchases m + 1 |}
              else m)
    | None => None
    end.
Proof.
  unfold processOrder, orderHits.
  destruct (isPaid (Order.status o)); simpl;
    [|destruct (obj_get Z.eqb d k); reflexivity].
  destruct (Z.eqb_spec (isoDay (Order.created_at o)) k) as [->|Hne].
  - destruct (obj_get Z.eqb d k) as [m|] eqn:Hget; [|now rewrite Hget].
    apply obj_get_set_same.
  - destruct (obj_get Z.eqb d (isoDay (Order.created_at o))) as [m0|].
    + rewrite obj_get_set_other by assumption.
      destruct (obj_get Z.eqb d k); reflexivity.
    + destruct (obj_get Z.eqb d k); reflexivity.
Qed.

Lemma processInvoice_get (d : DailyData) (i : Invoice.t) (k : DateKey) :
  obj_get Z.eqb (processInvoice d i) k
  = match obj_get Z.eqb d k with
    | Some m =>
        Some (if invoiceHits k i
              then {| DM.revenue := DM.revenue m + amountOf (Invoice.total i);
                      DM.renewalRevenue :=
                        DM.renewalRevenue m + amountOf (Invoice.total i);
                      DM.purchases := DM.purchases m |}
              else m)
    | None => None
    end.
Proof.
  unfold processInvoice, invoiceHits.
  destruct (isPaid (Invoice.status i)); simpl;
    [|destruct (obj_get Z.eqb d k); reflexivity].
  destruct (isInitial i); simpl;
    [destruct (obj_get Z.eqb d k); reflexivity|].
  destruct (Z.eqb_spec (isoDay (Invoice.created_at i)) k) as [->|Hne].
  - destruct (obj_get Z.eqb d k) as [m|] eqn:Hget; [|now rewrite Hget].
    apply obj_get_set_same.
  - destruct (obj_get Z.eqb d (isoDay (Invoice.created_at i))) as [m0|].
    + rewrite obj_get_set_other by assumption.
      destruct (obj_get Z.eqb d k); reflexivity.
    + destruct (obj_get Z.eqb d k); reflexivity.
Qed.

(** both callbacks only ever overwrite an existing key *)
Lemma processOrder_keys d o : obj_keys (processOrder d o) = obj_keys d.
Proof.
  unfold processOrder. destruct (negb _); [reflexivity|].
  destruct (obj_get Z.eqb d _) eqn:Hget; [|reflexivity].
  apply obj_keys_set_present. congruence.
Qed.

Lemma processInvoice_keys d i : obj_keys (processInvoice d i) = obj_keys d.
Proof.
  unfold processInvoice. destruct (negb (isPaid _)); [reflexivity|].
  destruct (negb (isInitial i)); [|reflexivity].
  destruct (obj_get Z.eqb d _) eqn:Hget; [|reflexivity].
  apply obj_keys_set_present. congruence.
Qed.

Lemma fold_processOrder_keys orders : forall d,
  obj_keys (fold_left processOrder orders d) = obj_keys d.
Proof.
  induction orders as [|o orders IH]; intros d; simpl; [reflexivity|].
  now rewrite IH, processOrder_keys.
Qed.

Lemma fold_processInvoice_keys invoices : forall d,
  obj_keys (fold_left processInvoice invoices d) = obj_keys d.
Proof.
  induction invoices as [|i invoices IH]; intros d; simpl; [reflexivity|].
  now rewrite IH, processInvoice_keys.
Qed.

(** the entry of day [k] after all orders are booked *)
Lemma fold_processOrder_get orders : forall (d : DailyData) k m,
  obj_get Z.eqb d k = Some m ->
  exists m', obj_get Z.eqb (fold_left processOrder orders d) k = Some m'
    /\ (DM.revenue m' == DM.revenue m
          + sumAmounts Order.total (filter (orderHits k) orders))%Q
    /\ (DM.renewalRevenue m' == DM.renewalRevenue m)%Q
    /\ DM.purchases m'
       = DM.purchases m
         + Z.of_nat (List.length (filter (orderHits k) orders)).
Proof.
  induction orders as [|o orders IH]; intros d k m Hget; simpl.
  - exists m. split; [assumption|]. repeat split; try reflexivity; try ring.
  - pose proof (processOrder_get d o k) as Hstep. rewrite Hget in Hstep.
    destruct (IH _ _ _ Hstep) as [m' [Hfin [Hrev [Hren Hpur]]]].
    exists m'. split; [assumption|].
    destruct (orderHits k o); simpl in *.
    + split; [rewrite Hrev; ring|]. split; [assumption|]. lia.
    + auto.
Qed.

Lemma fold_processInvoice_get invoices : forall (d : DailyData) k m,
  obj_get Z.eqb d k = Some m ->
  exists m', obj_get Z.eqb (fold_left processInvoice invoices d) k = Some m'
    /\ (DM.revenue m' == DM.revenue m
          + sumAmounts Invoice.total (filter (invoiceHits k) invoices))%Q
    /\ (DM.renewalRevenue m' == DM.renewalRevenue m
          + sumAmounts Invoice.total (filter (invoiceHits k) invoices))%Q
    /\ DM.purchases m' = DM.purchases m.
Proof.
  induction invoices as [|i invoices IH]; intros d k m Hget; simpl.
  - exists m. split; [assumption|]. repeat split; try reflexivity; try ring.
  - pose proof (processInvoice_get d i k) as Hstep. rewrite Hget in Hstep.
    destruct (IH _ _ _ Hstep) as [m' [Hfin [Hrev [Hren Hpur]]]].
    exists m'. split; [assumption|].
    destruct (invoiceHits k i); simpl in *.
    + split; [rewrite Hrev; ring|]. split; [rewrite Hren; ring|]. assumption.
    + auto.
Qed.

(** ** Sorting by date *)

Lemma insertByDate_In r x l : In x (insertByDate r l) <-> x = r \/ In x l.
Proof.
  induction l as [|y l IH]; simpl; [intuition|].
  destruct (LS.date r <? LS.date y); simpl; [intuition|].
  rewrite IH. intuition.
Qed.

Lemma sortByDate_In_acc l : forall acc x,
  In x (fold_left (fun a r => insertByDate r a) l acc) <-> In x acc \/ In x l.
Proof.
  induction l as [|r l IH]; intros acc x; simpl; [tauto|].
  rewrite IH, insertByDate_In. intuition.
Qed.

Lemma sortByDate_In l x : In x (sortByDate l) <-> In x l.
Proof. unfold sortByDate. rewrite sortByDate_In_acc. simpl. tauto. Qed.

(** inserting a record dated after all the others puts it last *)
Lemma insertByDate_last r l :
  Forall (fun x => LS.date x <= LS.date r) l -> insertByDate r l = l ++ [r].
Proof.
  induction 1 as [|x l Hx Hall IH]; simpl; [reflexivity|].
  destruct (Z.ltb_spec (LS.date r) (LS.date x)); [lia|]. now rewrite IH.
Qed.

(** a series whose dates are consecutive is already in sort order *)
Lemma sortByDate_consecutive_acc l : forall acc a j n,
  map LS.date acc = consecutive a j ->
  map LS.date l = consecutive (a + Z.of_nat j) n ->
  fold_left (fun a r => insertByDate r a) l acc = acc ++ l.
Proof.
  induction l as [|r l IH]; intros acc a j n Hacc Hl; simpl.
  - now rewrite app_nil_r.
  - destruct n as [|n]; [discriminate|]. simpl in Hl.
    injection Hl as Hr Hl.
    rewrite insertByDate_last.
    + rewrite (IH (acc ++ [r]) a (S j) n).
      * now rewrite <- app_assoc.
      * rewrite map_app, Hacc, consecutive_snoc. simpl. now rewrite Hr.
      * rewrite Hl. f_equal. lia.
    + apply Forall_forall. intros x Hx.
      apply (in_map LS.date) in Hx. rewrite Hacc, consecutive_In in Hx. lia.
Qed.

Lemma sortByDate_consecutive l a n :
  map LS.date l = consecutive a n -> sortByDate l = l.
Proof.
  intros Hl. unfold sortByDate.
  rewrite (sortByDate_consecutive_acc l [] a 0 n); auto.
  now rewrite Z.add_0_r.
Qed.

(** ** The ledger of a successful run *)

Lemma filter_twice {A} (p q : A -> bool) (l : list A) :
  filter p (filter q l) = filter (fun x => q x && p x) l.
Proof.
  induction l as [|x l IH]; simpl; [reflexivity|].
  destruct (q x); simpl; [destruct (p x)|]; now rewrite IH.
Qed.

Lemma sumAmounts_nonneg {A} (total : A -> Z) (l : list A) :
  Forall (fun x => 0 <= total x) l -> (0 <= sumAmounts total l)%Q.
Proof.
  induction 1 as [|x l Hx Hall IH]; simpl; [apply Qle_refl|].
  assert (0 <= amountOf (total x))%Q.
  { unfold amountOf. apply Qle_shift_div_l; [reflexivity|].
    rewrite Qmult_0_l. unfold Qle. simpl. lia. }
  lra.
Qed.

Lemma buildLedger_spec fuel startDate endDate orders invoices customers
  activeSubs series :
  buildLedger fuel startDate endDate orders invoices customers activeSubs
  = Some series ->
  map LS.date series = consecutive (isoDay startDate)
                                   (dayCount startDate endDate)
  /\ forall r, In r series ->
       bookedRecord orders invoices (currentMRROf customers activeSubs)
                    (Z.of_nat (List.length activeSubs)) r.
Proof.
  unfold buildLedger.
  destruct (initDailyData fuel startDate endDate []) as [d0|] eqn:Hinit;
    [|discriminate].
  intros [= <-].
  apply (initDailyData_keys endDate fuel startDate [] (isoDay startDate) 0%nat)
    in Hinit; [|reflexivity|simpl; lia|constructor].
  destruct Hinit as [Hkeys0 Hzero]. simpl in Hkeys0.
  set (d1 := fold_left processOrder orders d0).
  set (d2 := fold_left processInvoice invoices d1).
  assert (Hkeys2 : obj_keys d2 = obj_keys d0).
  { subst d2 d1.
    now rewrite fold_processInvoice_keys, fold_processOrder_keys. }
  assert (Hdates : map LS.date
                     (map (toMetrics (currentMRROf customers activeSubs)
                             (Z.of_nat (List.length activeSubs))) d2)
                   = consecutive (isoDay startDate)
                                 (dayCount startDate endDate)).
  { rewrite map_map, <- Hkeys0, <- Hkeys2. unfold obj_keys.
    apply map_ext. reflexivity. }
  rewrite (sortByDate_consecutive _ _ _ Hdates).
  split; [assumption|].
  intros r Hr. apply in_map_iff in Hr. destruct Hr as [[k m] [<- Hin]].
  unfold bookedRecord. simpl.
  assert (Hnd : NoDup (obj_keys d2))
    by (rewrite Hkeys2, Hkeys0; apply consecutive_NoDup).
  pose proof (obj_In_get d2 k m Hnd Hin) as Hget2.
  destruct (obj_get Z.eqb d0 k) as [m0|] eqn:Hget0.
  - assert (Hm0 : m0 = DM.zero).
    { apply obj_get_Some_In in Hget0.
      unfold allZero in Hzero. rewrite Forall_forall in Hzero.
      exact (Hzero _ Hget0). }
    subst m0.
    destruct (fold_processOrder_get orders d0 k _ Hget0)
      as [m1 [Hget1 [Hrev1 [Hren1 Hpur1]]]].
    destruct (fold_processInvoice_get invoices d1 k _ Hget1)
      as [m2 [Hget2' [Hrev2 [Hren2 Hpur2]]]].
    fold d2 in Hget2'. rewrite Hget2 in Hget2'. injection Hget2' as <-.
    simpl in *. repeat split; try reflexivity.
    + rewrite Hrev2, Hrev1. ring.
    + rewrite Hren2, Hren1. ring.
    + lia.
  - exfalso. apply obj_get_None_keys in Hget0. apply Hget0.
    assert (Hk : In k (obj_keys d2))
      by (change k with (fst (k, m)); now apply in_map).
    rewrite Hkeys2 in Hk. exact Hk.
Qed.

Lemma buildLedger_total fuel startDate endDate orders invoices customers
  activeSubs :
  (dayCount startDate endDate <= fuel)%nat ->
  buildLedger fuel startDate endDate orders invoices customers activeSubs
  <> None.
Proof.
  intros Hfuel. unfold buildLedger.
  pose proof (initDailyData_total endDate fuel startDate [] Hfuel).
  destruct (initDailyData fuel startDate endDate []); congruence.
Qed.

(** ** The builder as a whole *)

Lemma bind_Some {A B} (m : M A) (k : A -> M B) tr r tr' :
  bind m k tr = Some (r, tr') ->
  (exists a tr1, m tr = Some (Ok a, tr1) /\ k a tr1 = Some (r, tr'))
  \/ (exists msg, m tr = Some (Throw msg, tr') /\ r = Throw msg).
Proof.
  unfold bind. destruct (m tr) as [[[a|msg] tr1]|]; [| |discriminate].
  - intros H. left. eauto.
  - intros [= <- <-]. right. eauto.
Qed.

Lemma Forall_fetches_ok api storeId endpoint (ok : Z -> bool) pages :
  (forall p, fetchFailed api storeId (Fetch endpoint p) = negb (ok p)) ->
  Forall (fun p => ok p = true) pages ->
  Forall (fun e => fetchFailed api storeId e = false)
         (map (Fetch endpoint) pages).
Proof.
  intros Hep Hall. induction Hall as [|p pages Hp Hall IH]; simpl;
    constructor; [|assumption].
  rewrite Hep, Hp. reflexivity.
Qed.

Lemma not_error_Forall {A} (list_ : Z -> Response A) pages :
  Forall (fun p => isError (list_ p) = false) pages ->
  Forall (fun p => negb (isError (list_ p)) = true) pages.
Proof.
  apply Forall_impl. intros p ->. reflexivity.
Qed.

(** a [try] block that completes has fetched some pages of each endpoint,
    none of which was an error, and built the ledger from their records *)
Lemma tryBlock_ok fuel api storeId startDate endDate tr series tr' :
  tryBlock fuel api storeId startDate endDate tr = Some (Ok series, tr') ->
  exists nO nI nC nS,
    tr' = tr ++ fetchesOf nO nI nC nS
    /\ Forall (fun e => fetchFailed api storeId e = false)
              (fetchesOf nO nI nC nS)
    /\ buildLedger fuel startDate endDate
         (filter (inRange Order.created_at startDate endDate)
                 (recordsOn (listOrders api storeId) nO))
         (filter (inRange Invoice.created_at startDate endDate)
                 (recordsOn (listSubscriptionInvoices api storeId) nI))
         (recordsOn (listCustomers api storeId) nC)
         (recordsOn (listSubscriptions api storeId) nS)
       = Some series.
Proof.
  unfold tryBlock. intros Hrun.
  apply bind_Some in Hrun.
  destruct Hrun as [[orders [tr1 [HO Hrun]]]|[msg [_ [=]]]].
  apply bind_Some in Hrun.
  destruct Hrun as [[invoices [tr2 [HI Hrun]]]|[msg [_ [=]]]].
  apply bind_Some in Hrun.
  destruct Hrun as [[customers [tr3 [HC Hrun]]]|[msg [_ [=]]]].
  apply bind_Some in Hrun.
  destruct Hrun as [[subs [tr4 [HS Hrun]]]|[msg [_ [=]]]].
  apply fetchAllDated_run in HO. destruct HO as [nO [_ [-> [-> HOok]]]].
  apply fetchAllDated_run in HI. destruct HI as [nI [_ [-> [-> HIok]]]].
  apply fetchAllPlain_run in HC. destruct HC as [nC [_ [-> [-> HCok]]]].
  apply fetchAllPlain_run in HS. destruct HS as [nS [_ [-> [-> HSok]]]].
  exists nO, nI, nC, nS.
  unfold liftOption in Hrun.
  destruct (buildLedger _ _ _ _ _ _ _) as [l|] eqn:Hbuild; [|discriminate].
  injection Hrun as <- <-. simpl in Hbuild.
  split; [unfold fetchesOf; now rewrite <- !app_assoc|].
  split; [|first [exact Hbuild | reflexivity]].
  unfold fetchesOf. repeat (apply Forall_app; split).
  - apply Forall_fetches_ok
      with (ok := fun p => negb (isError (listOrders api storeId p)));
      [intros; simpl; now rewrite negb_involutive
      | now apply not_error_Forall].
  - apply Forall_fetches_ok
      with (ok := fun p =>
                    negb (isError (listSubscriptionInvoices api storeId p)));
      [intros; simpl; now rewrite negb_involutive
      | now apply not_error_Forall].
  - apply Forall_fetches_ok
      with (ok := fun p => negb (isError (listCustomers api storeId p)));
      [intros; simpl; now rewrite negb_involutive
      | now apply not_error_Forall].
  - apply Forall_fetches_ok
      with (ok := fun p => negb (isError (listSubscriptions api storeId p)));
      [intros; simpl; now rewrite negb_involutive
      | now apply not_error_Forall].
Qed.

(** with bounded last-page numbers and a budget that covers them and the
    days of the range, the [try] block finishes *)
Lemma tryBlock_total fuel api storeId startDate endDate L tr :
  1 <= L -> (Z.to_nat L <= fuel)%nat ->
  (dayCount startDate endDate <= fuel)%nat ->
  boundedLastPage (listOrders api storeId) L ->
  boundedLastPage (listSubscriptionInvoices api storeId) L ->
  boundedLastPage (listCustomers api storeId) L ->
  boundedLastPage (listSubscriptions api storeId) L ->
  tryBlock fuel api storeId startDate endDate tr <> None.
Proof.
  intros HL Hfuel Hdays Ho Hi Hc Hs.
  unfold tryBlock, bind, fetchAllOrders, fetchAllInvoices, fetchAllCustomers,
    fetchActiveSubs.
  destruct (fetchAllDated_runsWithin Orders (listOrders api storeId)
              Order.created_at startDate endDate L fuel HL Ho Hfuel tr)
    as [r [n [-> _]]].
  destruct r as [orders|msg]; [|discriminate].
  set (tr1 := tr ++ _).
  destruct (fetchAllDated_runsWithin SubscriptionInvoices
              (listSubscriptionInvoices api storeId)
              Invoice.created_at startDate endDate L fuel HL Hi Hfuel tr1)
    as [r [n2 [-> _]]].
  destruct r as [invoices|msg]; [|discriminate].
  set (tr2 := tr1 ++ _).
  destruct (fetchAllPlain_runsWithin Customers (listCustomers api storeId)
              L fuel HL Hc Hfuel tr2)
    as [r [n3 [-> _]]].
  destruct r as [customers|msg]; [|discriminate].
  set (tr3 := tr2 ++ _).
  destruct (fetchAllPlain_runsWithin Subscriptions
              (listSubscriptions api storeId) L fuel HL Hs Hfuel tr3)
    as [r [n4 [-> _]]].
  destruct r as [subs|msg]; [|discriminate].
  unfold liftOption.
  pose proof (buildLedger_total fuel startDate endDate orders invoices
                customers subs Hdays) as Hbuild.
  destruct (buildLedger fuel startDate endDate orders invoices customers subs);
    [discriminate | congruence].
Qed.

Lemma builder_inv fuel env api startDate endDate r tr' :
  fetchLemonSqueezyData fuel env api startDate endDate [] = Some (r, tr') ->
  (missing (LEMONSQUEEZY_API_KEY env) = true
   /\ r = Ok [] /\ tr' = [Warn "LemonSqueezy API Key missing."])
  \/ (missing (LEMONSQUEEZY_API_KEY env) = false
      /\ exists msg tr1,
           tryBlock fuel api (LEMONSQUEEZY_STORE_ID env) startDate endDate []
           = Some (Throw msg, tr1)
           /\ r = Ok [] /\ tr' = tr1 ++ [LogError msg])
  \/ (missing (LEMONSQUEEZY_API_KEY env) = false
      /\ exists series,
           tryBlock fuel api (LEMONSQUEEZY_STORE_ID env) startDate endDate []
           = Some (Ok series, tr')
           /\ r = Ok series).
Proof.
  unfold fetchLemonSqueezyData.
  destruct (missing (LEMONSQUEEZY_API_KEY env)).
  - cbn. intros [= <- <-]. left. auto.
  - unfold tryCatch.
    destruct (tryBlock fuel api (LEMONSQUEEZY_STORE_ID env) startDate endDate [])
      as [[[series|msg] tr1]|]; [| |discriminate].
    + intros [= <- <-]. right. right. eauto.
    + cbn. intros [= <- <-]. right. left. split; [reflexivity|]. eauto.
Qed.

(** a non-empty result comes from a completed [try] block *)
Lemma builder_nonempty fuel env api startDate endDate series tr' :
  fetchLemonSqueezyData fuel env api startDate endDate [] = Some (Ok series, tr') ->
  series <> [] ->
  tryBlock fuel api (LEMONSQUEEZY_STORE_ID env) startDate endDate []
  = Some (Ok series, tr').
Proof.
  intros Hrun Hne. apply builder_inv in Hrun.
  destruct Hrun as [[_ [[= ->] _]]|[[_ [msg [tr1 [_ [[= ->] _]]]]]
                                    |[_ [s [Hrun [= ->]]]]]];
    [contradiction | contradiction | assumption].
Qed.

(** C8, as the code has it.  The builder never throws: whatever it returns
    is a series.  If a fetch it issued came back with an error object or a
    rejection the series is empty.  Without an API key it returns the empty
    series at once, after one warning and no fetch.  It does return when
    last-page numbers are bounded and the budget covers the pages and the
    days. *)
Theorem builder_never_throws (fuel : nat) (env : Env) (api : Api)
  (startDate endDate : Z) :
  (forall r tr',
      fetchLemonSqueezyData fuel env api startDate endDate [] = Some (r, tr') ->
      (exists series, r = Ok series)
      /\ (Exists (fun e => fetchFailed api (LEMONSQUEEZY_STORE_ID env) e = true)
                 tr' -> r = Ok []))
  /\ (missing (LEMONSQUEEZY_API_KEY env) = true ->
      fetchLemonSqueezyData fuel env api startDate endDate []
      = Some (Ok [], [Warn "LemonSqueezy API Key missing."]))
  /\ (forall L,
        1 <= L -> (Z.to_nat L <= fuel)%nat ->
        (dayCount startDate endDate <= fuel)%nat ->
        boundedLastPage (listOrders api (LEMONSQUEEZY_STORE_ID env)) L ->
        boundedLastPage
          (listSubscriptionInvoices api (LEMONSQUEEZY_STORE_ID env)) L ->
        boundedLastPage (listCustomers api (LEMONSQUEEZY_STORE_ID env)) L ->
        boundedLastPage (listSubscriptions api (LEMONSQUEEZY_STORE_ID env)) L ->
        exists series tr',
          fetchLemonSqueezyData fuel env api startDate endDate []
          = Some (Ok series, tr')).
Proof.
  split; [|split].
  - intros r tr' Hrun. apply builder_inv in Hrun.
    destruct Hrun as [[_ [-> _]]|[[_ [msg [tr1 [_ [-> _]]]]]
                                  |[_ [series [Hrun ->]]]]].
    + split; [eauto | reflexivity].
    + split; [eauto | reflexivity].
    + split; [eauto|]. intros Hfailed. exfalso.
      apply tryBlock_ok in Hrun.
      destruct Hrun as [nO [nI [nC [nS [-> [Hok _]]]]]]. simpl in Hfailed.
      apply Exists_exists in Hfailed. destruct Hfailed as [e [He Hbad]].
      rewrite Forall_forall in Hok. rewrite (Hok e He) in Hbad.
      discriminate.
  - intros Hmiss. unfold fetchLemonSqueezyData. rewrite Hmiss. reflexivity.
  - intros L HL Hfuel Hdays Ho Hi Hc Hs.
    pose proof (tryBlock_total fuel api (LEMONSQUEEZY_STORE_ID env)
                  startDate endDate L [] HL Hfuel Hdays Ho Hi Hc Hs) as Htot.
    unfold fetchLemonSqueezyData, tryCatch.
    destruct (missing (LEMONSQUEEZY_API_KEY env));
      [do 2 eexists; reflexivity|].
    destruct (tryBlock fuel api (LEMONSQUEEZY_STORE_ID env) startDate endDate [])
      as [[[series|msg] tr1]|];
      [do 2 eexists; reflexivity | do 2 eexists; reflexivity | congruence].
Qed.

(** Without a key: the empty series, a warning, no fetch, even with no
    budget at all.  With a key and an order endpoint that answers with an
    error object: the empty series after the first fetch, which the
    callback and the [catch] clause both log. *)
Lemma builder_never_throws_witness :
  fetchLemonSqueezyData 0 envNoKey apiSample startEx endEx []
  = Some (Ok [], [Warn "LemonSqueezy API Key missing."])
  /\ (fetchLemonSqueezyData 5 envEx apiFailing startEx endEx []
      = Some (Ok [], [Fetch Orders 1; SdkError "Unauthenticated.";
                       LogError "Unauthenticated."])
      /\ Ok (A := list LS.t) [] = Ok []).
Proof.
  split.
  - apply (proj1 (proj2 (builder_never_throws 0 envNoKey apiSample
                           startEx endEx))).
    reflexivity.
  - assert (Hrun : fetchLemonSqueezyData 5 envEx apiFailing startEx endEx []
                   = Some (Ok [], [Fetch Orders 1; SdkError "Unauthenticated.";
                       LogError "Unauthenticated."]))
      by (vm_compute; reflexivity).
    split; [exact Hrun|].
    apply (proj2 (proj1 (builder_never_throws 5 envEx apiFailing
                           startEx endEx) _ _ Hrun)).
    constructor. reflexivity.
Defined.

(** C8 as stated fails for the store id: the guard tests the API key
    alone.  With a key and no store id nothing is short-circuited: there is
    no warning, the four fetches are issued without a store filter, and the
    ledger of the range comes back. *)
Lemma missing_store_id_does_not_short_circuit :
  missing (LEMONSQUEEZY_STORE_ID envNoStore) = true
  /\ missing (LEMONSQUEEZY_API_KEY envNoStore) = false
  /\ traceOf (fetchLemonSqueezyData 5 envNoStore apiSample startEx endEx [])
     = [Fetch Orders 1; Fetch SubscriptionInvoices 1; Fetch Customers 1;
        Fetch Subscriptions 1]
  /\ map LS.date
       (seriesOf (fetchLemonSqueezyData 5 envNoStore apiSample
                    startEx endEx []))
     = [19786; 19787; 19788]
  /\ fetchLemonSqueezyData 5 envNoStore apiSample startEx endEx []
     <> Some (Ok [], [Warn "LemonSqueezy API Key missing."]).
Proof.
  repeat split; try (vm_compute; reflexivity).
  vm_compute. discriminate.
Qed.

(** every record of a non-empty ledger, in terms of the provider pages read *)
Lemma ledger_records fuel env api startDate endDate series tr' :
  fetchLemonSqueezyData fuel env api startDate endDate [] = Some (Ok series, tr') ->
  series <> [] ->
  exists nO nI nC nS,
    tr' = fetchesOf nO nI nC nS
    /\ map LS.date series
       = consecutive (isoDay startDate) (dayCount startDate endDate)
    /\ forall r, In r series ->
         (LS.revenue r
          == sumAmounts Order.total
               (filter (orderCounts startDate endDate (LS.date r))
                  (recordsOn (listOrders api (LEMONSQUEEZY_STORE_ID env)) nO))
             + sumAmounts Invoice.total
                 (filter (invoiceCounts startDate endDate (LS.date r))
                    (recordsOn (listSubscriptionInvoices api
                                  (LEMONSQUEEZY_STORE_ID env)) nI)))%Q
         /\ (LS.renewalRevenue r
             == sumAmounts Invoice.total
                  (filter (invoiceCounts startDate endDate (LS.date r))
                     (recordsOn (listSubscriptionInvoices api
                                   (LEMONSQUEEZY_STORE_ID env)) nI)))%Q
         /\ LS.purchases r
            = Z.of_nat (List.length
                (filter (orderCounts startDate endDate (LS.date r))
                   (recordsOn (listOrders api (LEMONSQUEEZY_STORE_ID env)) nO))).
Proof.
  intros Hrun Hne. apply builder_nonempty in Hrun; [|assumption].
  apply tryBlock_ok in Hrun.
  destruct Hrun as [nO [nI [nC [nS [-> [_ Hbuild]]]]]].
  apply buildLedger_spec in Hbuild. destruct Hbuild as [Hdates Hrec].
  exists nO, nI, nC, nS. split; [reflexivity|]. split; [assumption|].
  intros r Hr. specialize (Hrec r Hr).
  destruct Hrec as [Hrev [Hren [Hpur _]]].
  rewrite !filter_twice in Hrev. rewrite filter_twice in Hren.
  rewrite filter_twice in Hpur.
  repeat split; assumption.
Qed.

(** C2. In every series the builder returns, no record has more renewal
    revenue than revenue, provided no order on the provider's pages has a
    negative total (invoice totals need no assumption). *)
Theorem renewalRevenue_le_revenue (fuel : nat) (env : Env) (api : Api)
  (startDate endDate : Z) (series : list LS.t) (tr' : Trace) :
  (forall p o, In o (pageData (listOrders api (LEMONSQUEEZY_STORE_ID env) p)) ->
               0 <= Order.total o) ->
  fetchLemonSqueezyData fuel env api startDate endDate [] = Some (Ok series, tr') ->
  forall r, In r series -> (LS.renewalRevenue r <= LS.revenue r)%Q.
Proof.
  intros Hpos Hrun r Hr.
  assert (Hne : series <> []) by (intros ->; contradiction).
  destruct (ledger_records _ _ _ _ _ _ _ Hrun Hne)
    as [nO [nI [nC [nS [_ [_ Hrec]]]]]].
  destruct (Hrec r Hr) as [Hrev [Hren _]].
  rewrite Hrev, Hren.
  assert (0 <= sumAmounts Order.total
                 (filter (orderCounts startDate endDate (LS.date r))
                    (recordsOn (listOrders api (LEMONSQUEEZY_STORE_ID env)) nO)))%Q
    as Hord.
  { apply sumAmounts_nonneg. apply Forall_forall. intros o Ho.
    apply filter_In in Ho. destruct Ho as [Ho _].
    unfold recordsOn in Ho. apply in_flat_map in Ho.
    destruct Ho as [p [_ Ho]]. eapply Hpos; eassumption. }
  lra.
Qed.

Lemma runEx_eq : runEx = Some (Ok (seriesOf runEx), traceOf runEx).
Proof. vm_compute. reflexivity. Qed.

Lemma renewalRevenue_le_revenue_witness :
  List.length (seriesOf runEx) = 3%nat
  /\ forall r, In r (seriesOf runEx) ->
               (LS.renewalRevenue r <= LS.revenue r)%Q.
Proof.
  split; [reflexivity|].
  apply (renewalRevenue_le_revenue 5 envEx apiSample startEx endEx
           (seriesOf runEx) (traceOf runEx)).
  - intros p o Ho. simpl in Ho.
    destruct Ho as [<-|[<-|[]]]; simpl; lia.
  - exact runEx_eq.
Defined.

(** C4, as the code has it.  In a non-empty ledger, the record of each day
    holds: as [purchases], the number of orders on the pages read that are
    paid, created within [startDate, endDate] and created on that day; as
    [renewalRevenue], the sum of total/100 over the invoices on the pages
    read that are paid, not initial, created within [startDate, endDate] and
    created on that day; as [revenue], the sum of total/100 over those
    orders plus that renewal sum. *)
Theorem ledger_books_paid_records_in_range (fuel : nat) (env : Env)
  (api : Api) (startDate endDate : Z) (series : list LS.t) (tr' : Trace) :
  fetchLemonSqueezyData fuel env api startDate endDate [] = Some (Ok series, tr') ->
  series <> [] ->
  exists nO nI nC nS,
    tr' = fetchesOf nO nI nC nS
    /\ forall r, In r series ->
         let orders :=
           filter (orderCounts startDate endDate (LS.date r))
             (recordsOn (listOrders api (LEMONSQUEEZY_STORE_ID env)) nO) in
         let invoices :=
           filter (invoiceCounts startDate endDate (LS.date r))
             (recordsOn (listSubscriptionInvoices api
                           (LEMONSQUEEZY_STORE_ID env)) nI) in
         (LS.revenue r
          == sumAmounts Order.total orders
             + sumAmounts Invoice.total invoices)%Q
         /\ (LS.renewalRevenue r == sumAmounts Invoice.total invoices)%Q
         /\ LS.purchases r = Z.of_nat (List.length orders).
Proof.
  intros Hrun Hne.
  destruct (ledger_records _ _ _ _ _ _ _ Hrun Hne)
    as [nO [nI [nC [nS [Htr [_ Hrec]]]]]].
  exists nO, nI, nC, nS. split; [assumption|].
  intros r Hr. exact (Hrec r Hr).
Qed.

Lemma ledger_books_paid_records_in_range_witness :
  exists nO nI nC nS,
    traceOf runEx = fetchesOf nO nI nC nS
    /\ forall r, In r (seriesOf runEx) ->
         let orders :=
           filter (orderCounts startEx endEx (LS.date r))
             (recordsOn (listOrders apiSample (LEMONSQUEEZY_STORE_ID envEx)) nO) in
         let invoices :=
           filter (invoiceCounts startEx endEx (LS.date r))
             (recordsOn (listSubscriptionInvoices apiSample
                           (LEMONSQUEEZY_STORE_ID envEx)) nI) in
         (LS.revenue r
          == sumAmounts Order.total orders
             + sumAmounts Invoice.total invoices)%Q
         /\ (LS.renewalRevenue r == sumAmounts Invoice.total invoices)%Q
         /\ LS.purchases r = Z.of_nat (List.length orders).
Proof.
  apply (ledger_books_paid_records_in_range 5 envEx apiSample startEx endEx
           (seriesOf runEx) (traceOf runEx)).
  - exact runEx_eq.
  - vm_compute. discriminate.
Defined.

(** C4 as stated fails for invoices: a paid renewal invoice created after
    [endDate], on a day that has a ledger record, adds nothing to that
    record. *)
Lemma invoice_after_endDate_is_not_booked :
  isPaid (Invoice.status lateInvoice) = true
  /\ isInitial lateInvoice = false
  /\ In lateInvoice
        (recordsOn (listSubscriptionInvoices apiLateInvoice
                      (LEMONSQUEEZY_STORE_ID envEx)) 1)
  /\ traceOf runLate = fetchesOf 1 1 1 1
  /\ exists r, In r (seriesOf runLate)
               /\ LS.date r = isoDay (Invoice.created_at lateInvoice)
               /\ LS.revenue r = 0%Q /\ LS.renewalRevenue r = 0%Q.
Proof.
  repeat split; try (simpl; auto; fail).
  exists (LS.mk 19788 0 0 0 0 0 0).
  split; [vm_compute; auto 10|]. repeat split.
Qed.

(** C9 fails on the code.  For a range from noon of one day to the morning
    of the next, the ledger has a record for the first day only: the day of
    [endDate] is missing, and the paid order created at 03:00 of that day,
    inside the range, is booked nowhere. *)
Lemma ledger_misses_the_day_of_endDate :
  startNoon <= endMorning
  /\ isoDay startNoon = 19723 /\ isoDay endMorning = 19724
  /\ traceOf runNoon = fetchesOf 1 1 1 1
  /\ map LS.date (seriesOf runNoon) = [19723]
  /\ map LS.purchases (seriesOf runNoon) = [0].
Proof. vm_compute. repeat split; discriminate. Qed.

(** What does hold: a non-empty ledger has one record per iteration of the
    day loop, on consecutive days from the day of [startDate]. *)
Lemma ledger_days fuel env api startDate endDate series tr' :
  fetchLemonSqueezyData fuel env api startDate endDate [] = Some (Ok series, tr') ->
  series <> [] ->
  map LS.date series
  = consecutive (isoDay startDate) (dayCount startDate endDate).
Proof.
  intros Hrun Hne.
  destruct (ledger_records _ _ _ _ _ _ _ Hrun Hne)
    as [nO [nI [nC [nS [_ [Hdates _]]]]]].
  assumption.
Qed.

(** The loop reaches the day of [endDate] when the time of day of
    [startDate] is not later than that of [endDate]. *)
Lemma dayCount_reaches_endDate startDate endDate :
  startDate <= endDate ->
  startDate mod MS_PER_DAY <= endDate mod MS_PER_DAY ->
  isoDay startDate + Z.of_nat (dayCount startDate endDate)
  = isoDay endDate + 1.
Proof.
  intros Hle Htod. unfold dayCount, isoDay.
  destruct (Z.leb_spec startDate endDate); [|lia].
  assert (HMS : 0 < MS_PER_DAY) by reflexivity.
  pose proof (Z.div_mod startDate MS_PER_DAY ltac:(lia)) as Hs.
  pose proof (Z.div_mod endDate MS_PER_DAY ltac:(lia)) as He.
  pose proof (Z.mod_pos_bound startDate MS_PER_DAY HMS) as Hbs.
  pose proof (Z.mod_pos_bound endDate MS_PER_DAY HMS) as Hbe.
  assert (Hq : (endDate - startDate) / MS_PER_DAY
               = endDate / MS_PER_DAY - startDate / MS_PER_DAY).
  { symmetry.
    apply Z.div_unique
      with (r := endDate mod MS_PER_DAY - startDate mod MS_PER_DAY); lia. }
  rewrite Hq.
  assert (startDate / MS_PER_DAY <= endDate / MS_PER_DAY)
    by (apply Z.div_le_mono; lia).
  lia.
Qed.

(** ** Mock analytics series *)

Lemma sumCounts_app o1 o2 : sumCounts (o1 ++ o2) = sumCounts o1 + sumCounts o2.
Proof.
  unfold sumCounts, obj_values. rewrite map_app.
  induction (map snd o1) as [|x l IH]; simpl; lia.
Qed.

Lemma obj_set_fresh (o : JsObject string Z) (k : string) (v : Z) :
  ~ In k (obj_keys o) -> obj_set String.eqb o k v = o ++ [(k, v)].
Proof.
  unfold obj_keys. induction o as [|[k' v'] o IH]; simpl; [reflexivity|].
  intros Hnotin. destruct (String.eqb_spec k' k) as [->|Hne]; [tauto|].
  rewrite IH; tauto.
Qed.

Lemma Qfloor_fraction (z : Z) (a : Z) (b : positive) :
  Qfloor (inject_Z z * (a # b)) = z * a / Zpos b.
Proof. reflexivity. Qed.

Section MockFacts.
Variable random : Rng.
Hypothesis random_range : forall n, (0 <= random n)%Q /\ (random n < 1)%Q.

(** one draw takes between nothing and all of what remains *)
Lemma draw_bounds (remaining : Z) (n : nat) :
  0 <= remaining ->
  0 <= Qfloor (random n * (inject_Z remaining / 2)) <= remaining.
Proof.
  intros Hrem. destruct (random_range n) as [H0 H1].
  assert (Hhalf : (0 <= inject_Z remaining / 2)%Q).
  { apply Qle_shift_div_l; [reflexivity|]. rewrite Qmult_0_l.
    change 0%Q with (inject_Z 0). now rewrite <- Zle_Qle. }
  assert (Hlow : (0 <= random n * (inject_Z remaining / 2))%Q)
    by (apply Qmult_le_0_compat; assumption).
  assert (Hhigh : (random n * (inject_Z remaining / 2)
                   <= inject_Z remaining)%Q).
  { apply Qle_trans with (1 * (inject_Z remaining / 2))%Q.
    - apply Qmult_le_compat_r; [now apply Qlt_le_weak | assumption].
    - assert (0 <= inject_Z remaining)%Q
        by (change 0%Q with (inject_Z 0); now rewrite <- Zle_Qle).
      assert (inject_Z remaining / 2 == inject_Z remaining * (1 # 2))%Q
        as -> by (unfold Qdiv; reflexivity).
      lra. }
  split.
  - change 0 with (Qfloor 0). now apply Qfloor_resp_le.
  - rewrite <- (Qfloor_Z remaining) at 2. now apply Qfloor_resp_le.
Qed.

Lemma domainStep_fresh (st : DomainState) d :
  ~ In d (obj_keys (fst (fst st))) ->
  let count := Qfloor (random (snd st) * (inject_Z (snd (fst st)) / 2)) in
  fst (fst (domainStep random st d)) = fst (fst st) ++ [(d, count)]
  /\ snd (fst (domainStep random st d)) = snd (fst st) - count.
Proof.
  destruct st as [[o remaining] n]. simpl. intros Hd.
  now rewrite obj_set_fresh.
Qed.

(** the [forEach] over the domain names hands out counts that, together
    with what remains, always add up to the same total *)
Lemma domains_fold ds : forall st : DomainState,
  NoDup ds -> (forall d, In d ds -> ~ In d (obj_keys (fst (fst st)))) ->
  0 <= snd (fst st) ->
  sumCounts (fst (fst (fold_left (domainStep random) ds st)))
  + snd (fst (fold_left (domainStep random) ds st))
  = sumCounts (fst (fst st)) + snd (fst st)
  /\ 0 <= snd (fst (fold_left (domainStep random) ds st))
  /\ obj_keys (fst (fst (fold_left (domainStep random) ds st)))
     = obj_keys (fst (fst st)) ++ ds.
Proof.
  induction ds as [|d ds IH]; intros st Hnd Hfresh Hrem.
  - simpl. rewrite app_nil_r. auto.
  - inversion Hnd as [|? ? Hd Hnd']; subst.
    cbn [fold_left].
    destruct (domainStep_fresh st d (Hfresh d (or_introl eq_refl)))
      as [Ho Hr].
    pose proof (draw_bounds (snd (fst st)) (snd st) Hrem) as Hc.
    set (count := Qfloor (random (snd st) * (inject_Z (snd (fst st)) / 2)))
      in *.
    destruct (IH (domainStep random st d) Hnd') as [Hsum [Hrem' Hkeys]].
    + intros d' Hd'. rewrite Ho. unfold obj_keys.
      rewrite map_app, in_app_iff. simpl.
      intros [Hin|[<-|[]]].
      * apply (Hfresh d'); [now right | assumption].
      * contradiction.
    + rewrite Hr. lia.
    + split; [|split; [assumption|]].
      * rewrite Hsum, Ho, Hr, sumCounts_app. unfold sumCounts at 2.
        simpl. lia.
      * rewrite Hkeys, Ho. unfold obj_keys. rewrite map_app, <- app_assoc.
        reflexivity.
Qed.

Lemma mockDay_ok n currentDate : mockRecordOk (fst (mockDay random n currentDate)).
Proof.
  unfold mockDay.
  set (visitors := 500 + Qfloor (random n * 500)).
  assert (Hv : 500 <= visitors < 1000).
  { subst visitors. destruct (random_range n) as [H0 H1].
    assert (0 <= Qfloor (random n * 500)).
    { change 0 with (Qfloor 0). apply Qfloor_resp_le.
      apply Qmult_le_0_compat; [assumption | discriminate]. }
    assert (Qfloor (random n * 500) < 500).
    { rewrite Zlt_Qlt. eapply Qle_lt_trans; [apply Qfloor_le|].
      change (inject_Z 500) with 500%Q. lra. }
    lia. }
  assert (Hnd : NoDup domains).
  { unfold domains. repeat constructor; simpl; intuition discriminate. }
  destruct (domains_fold domains ([], visitors, S n) Hnd
              (fun d _ (H : In d []) => H) ltac:(simpl; lia))
    as [Hsum [Hrem Hkeys]].
  destruct (fold_left (domainStep random) domains ([], visitors, S n))
    as [[o remaining] n'] eqn:Hfold.
  cbn [fst snd] in Hsum, Hrem, Hkeys.
  assert (Hsum' : sumCounts o + remaining = visitors)
    by (rewrite Hsum; reflexivity).
  assert (Hkeys' : obj_keys o = domains) by (rewrite Hkeys; reflexivity).
  clear Hsum Hkeys.
  unfold mockRecordOk. cbn [fst PH.visitors PH.pricingViews PH.checkouts
                            PH.purchases PH.referringDomains].
  rewrite !Qfloor_fraction.
  repeat split; try lia; try (now rewrite ?Z.mul_1_r).
  destruct (Z.ltb_spec 0 remaining) as [Hpos|Hzero].
  - rewrite obj_set_fresh.
    + rewrite sumCounts_app. unfold sumCounts at 2. simpl. lia.
    + rewrite Hkeys'. simpl. intuition discriminate.
  - lia.
Qed.
End MockFacts.

Section MockSeries.
Variable random : Rng.
Hypothesis random_range : forall n, (0 <= random n)%Q /\ (random n < 1)%Q.
Variable endDate : Z.

Lemma generateMockLoop_ok fuel : forall n cur acc data,
  Forall mockRecordOk acc ->
  generateMockLoop fuel random n cur endDate acc = Some data ->
  Forall mockRecordOk data.
Proof.
  induction fuel as [|fuel IH]; intros n cur acc data Hacc Hrun;
    cbn [generateMockLoop] in Hrun; destruct (cur <=? endDate);
    try discriminate;
    try (injection Hrun as <-; assumption).
  pose proof (mockDay_ok random random_range n cur) as Hday.
  destruct (mockDay random n cur) as [r n'].
  simpl in Hday. apply IH in Hrun; [assumption|].
  apply Forall_app. split; [assumption|].
  constructor; [assumption | constructor].
Qed.

Lemma generateMockLoop_total fuel : forall n cur acc,
  (dayCount cur endDate <= fuel)%nat ->
  exists data,
    generateMockLoop fuel random n cur endDate acc = Some data
    /\ List.length data = (List.length acc + dayCount cur endDate)%nat.
Proof.
  induction fuel as [|fuel IH]; intros n cur acc Hfuel;
    cbn [generateMockLoop];
    destruct (Z.leb_spec cur endDate) as [Hle|Hgt].
  - rewrite dayCount_step in Hfuel by assumption. lia.
  - exists acc. rewrite dayCount_past by assumption. split; [reflexivity|lia].
  - rewrite (dayCount_step cur endDate Hle) in Hfuel.
    rewrite (dayCount_step cur endDate Hle).
    destruct (mockDay random n cur) as [r n'].
    destruct (IH n' (cur + MS_PER_DAY) (acc ++ [r]) ltac:(lia))
      as [data [Hrun Hlen]].
    exists data. split; [assumption|].
    rewrite Hlen, length_app. simpl. lia.
  - exists acc. rewrite dayCount_past by assumption. split; [reflexivity|lia].
Qed.
End MockSeries.

(** C10. For every run of draws in [0, 1): the mock series exists and has
    one record per iteration of the day loop; in each record pricingViews,
    checkouts and purchases are the floors of 0.3 * visitors,
    0.1 * pricingViews and 0.5 * checkouts, and the counts stored in
    referringDomains (with [other] when present) add up to visitors. *)
Theorem mock_series_relations (random : Rng) (fuel : nat)
  (startDate endDate : Z) :
  (forall n, (0 <= random n)%Q /\ (random n < 1)%Q) ->
  ((dayCount startDate endDate <= fuel)%nat ->
   exists data,
     generateMockPostHogData fuel random startDate endDate = Some data
     /\ List.length data = dayCount startDate endDate)
  /\ (forall data,
        generateMockPostHogData fuel random startDate endDate = Some data ->
        forall r, In r data -> mockRecordOk r).
Proof.
  intros Hrange. unfold generateMockPostHogData. split.
  - intros Hfuel.
    destruct (generateMockLoop_total random endDate fuel 0%nat startDate []
                Hfuel) as [data [Hrun Hlen]].
    exists data. split; assumption.
  - intros data Hrun r Hr.
    apply (generateMockLoop_ok random Hrange endDate) in Hrun;
      [|constructor].
    rewrite Forall_forall in Hrun. now apply Hrun.
Qed.

Lemma mock_series_relations_witness :
  exists data,
    generateMockPostHogData 5 randomHalf startEx endEx = Some data
    /\ List.length data = 3%nat
    /\ forall r, In r data -> mockRecordOk r.
Proof.
  assert (Hrange : forall n, (0 <= randomHalf n)%Q /\ (randomHalf n < 1)%Q).
  { intros n. unfold randomHalf. split; [discriminate | reflexivity]. }
  destruct (mock_series_relations randomHalf 5 startEx endEx Hrange)
    as [Hexists Hall].
  destruct Hexists as [data [Hrun Hlen]]; [vm_compute; lia|].
  exists data. split; [exact Hrun|]. split; [exact Hlen|].
  exact (Hall data Hrun).
Defined.

(* ================================================================== *)
(** * Further properties of the builder *)
(* ================================================================== *)

Lemma consecutive_sorted from n : StronglySorted Z.lt (consecutive from n).
Proof.
  revert from. induction n as [|n IH]; intros from; simpl; constructor.
  - apply IH.
  - apply Forall_forall. intros x Hx. apply consecutive_In in Hx. lia.
Qed.

(** X1. The date keys of a non-empty ledger are consecutive days starting
    at the day of [startDate], one per iteration of the day loop, hence
    strictly ascending; when the time of day of [startDate] is not later
    than that of [endDate] they are exactly the days from the day of
    [startDate] to the day of [endDate]. *)
Theorem ledger_dates_consecutive (fuel : nat) (env : Env) (api : Api)
  (startDate endDate : Z) (series : list LS.t) (tr' : Trace) :
  fetchLemonSqueezyData fuel env api startDate endDate [] = Some (Ok series, tr') ->
  series <> [] ->
  map LS.date series
  = consecutive (isoDay startDate) (dayCount startDate endDate)
  /\ StronglySorted Z.lt (map LS.date series)
  /\ (startDate mod MS_PER_DAY <= endDate mod MS_PER_DAY ->
      forall d, In d (map LS.date series)
                <-> isoDay startDate <= d <= isoDay endDate).
Proof.
  intros Hrun Hne.
  destruct (ledger_records _ _ _ _ _ _ _ Hrun Hne)
    as [nO [nI [nC [nS [_ [Hdates _]]]]]].
  split; [assumption|]. split.
  - rewrite Hdates. apply consecutive_sorted.
  - intros Htod d. rewrite Hdates, consecutive_In.
    assert (Hle : startDate <= endDate).
    { destruct (Z.leb_spec startDate endDate) as [H|H]; [assumption|].
      exfalso. apply Hne. apply (f_equal (@List.length _)) in Hdates.
      rewrite length_map, consecutive_length, dayCount_past in Hdates
        by assumption.
      now destruct series. }
    pose proof (dayCount_reaches_endDate startDate endDate Hle Htod). lia.
Qed.

Lemma ledger_dates_consecutive_witness :
  map LS.date (seriesOf runEx) = [19786; 19787; 19788]
  /\ StronglySorted Z.lt (map LS.date (seriesOf runEx)).
Proof.
  assert (Hne : seriesOf runEx <> []) by (vm_compute; discriminate).
  destruct (ledger_dates_consecutive 5 envEx apiSample startEx endEx
              (seriesOf runEx) (traceOf runEx) runEx_eq Hne)
    as [Hdates [Hsorted _]].
  split; [exact Hdates | exact Hsorted].
Defined.

(** the running total of the [customers.forEach] is the total over the
    customers that pass the test *)
Lemma currentMRROf_sum (customers : list Customer.t)
  (activeSubs : list Subscription.t) :
  (currentMRROf customers activeSubs
   == sumAmounts mrrCents
        (filter (hasActiveSubscription activeSubs) customers))%Q.
Proof.
  unfold currentMRROf.
  assert (Htest : forall c,
            existsb (Z.eqb (Customer.id c))
                    (map Subscription.customer_id activeSubs)
            = hasActiveSubscription activeSubs c).
  { intros c. unfold hasActiveSubscription.
    induction activeSubs as [|s subs IH]; simpl; [reflexivity|].
    rewrite IH. f_equal. apply Z.eqb_sym. }
  assert (Hgen : forall acc,
    (fold_left
       (fun currentMRR c =>
          if existsb (Z.eqb (Customer.id c))
                     (map Subscription.customer_id activeSubs)
          then (currentMRR
                + amountOf (match Customer.mrr c with
                            | Some v => v
                            | None => 0
                            end))%Q
          else currentMRR)
       customers acc
     == acc + sumAmounts mrrCents
                (filter (hasActiveSubscription activeSubs) customers))%Q).
  { induction customers as [|c customers IH]; intros acc; simpl; [ring|].
    rewrite IH, Htest.
    destruct (hasActiveSubscription activeSubs c); simpl; [|reflexivity].
    unfold mrrCents at 2. ring. }
  rewrite Hgen. ring.
Qed.

(** X2. Every record of a non-empty ledger carries the same snapshot: as
    [mrr] the total of mrr/100 over the customers read that some active
    subscription read names (each such customer once, a customer without an
    mrr counting 0), as [activeCustomers] the number of active subscriptions
    read, and 0 as [churnRate]. *)
Theorem ledger_snapshot_fields (fuel : nat) (env : Env) (api : Api)
  (startDate endDate : Z) (series : list LS.t) (tr' : Trace) :
  fetchLemonSqueezyData fuel env api startDate endDate [] = Some (Ok series, tr') ->
  series <> [] ->
  exists nO nI nC nS,
    tr' = fetchesOf nO nI nC nS
    /\ forall r, In r series ->
         (LS.mrr r
          == sumAmounts mrrCents
               (filter
                  (hasActiveSubscription
                     (recordsOn
                        (listSubscriptions api (LEMONSQUEEZY_STORE_ID env))
                        nS))
                  (recordsOn (listCustomers api (LEMONSQUEEZY_STORE_ID env))
                             nC)))%Q
         /\ LS.activeCustomers r
            = Z.of_nat (List.length
                (recordsOn (listSubscriptions api (LEMONSQUEEZY_STORE_ID env))
                           nS))
         /\ LS.churnRate r = 0%Q.
Proof.
  intros Hrun Hne. apply builder_nonempty in Hrun; [|assumption].
  apply tryBlock_ok in Hrun.
  destruct Hrun as [nO [nI [nC [nS [-> [_ Hbuild]]]]]].
  apply buildLedger_spec in Hbuild. destruct Hbuild as [_ Hrec].
  exists nO, nI, nC, nS. split; [reflexivity|].
  intros r Hr. destruct (Hrec r Hr) as [_ [_ [_ [Hmrr [Hact Hchurn]]]]].
  split; [|auto]. rewrite Hmrr. apply currentMRROf_sum.
Qed.

(** In the sample run customer 7, with an mrr of 4000 cents, holds the one
    active subscription: every record carries 40. *)
Lemma ledger_snapshot_fields_witness :
  exists nO nI nC nS,
    traceOf runEx = fetchesOf nO nI nC nS
    /\ forall r, In r (seriesOf runEx) ->
         (LS.mrr r
          == sumAmounts mrrCents
               (filter
                  (hasActiveSubscription
                     (recordsOn
                        (listSubscriptions apiSample
                           (LEMONSQUEEZY_STORE_ID envEx)) nS))
                  (recordsOn (listCustomers apiSample
                                (LEMONSQUEEZY_STORE_ID envEx)) nC)))%Q
         /\ LS.activeCustomers r
            = Z.of_nat (List.length
                (recordsOn (listSubscriptions apiSample
                              (LEMONSQUEEZY_STORE_ID envEx)) nS))
         /\ LS.churnRate r = 0%Q.
Proof.
  apply (ledger_snapshot_fields 5 envEx apiSample startEx endEx
           (seriesOf runEx) (traceOf runEx)).
  - exact runEx_eq.
  - vm_compute. discriminate.
Defined.

Lemma existsb_same_members (f : Z -> bool) (l1 l2 : list Z) :
  (forall x, In x l1 <-> In x l2) -> existsb f l1 = existsb f l2.
Proof.
  intros Hsame.
  destruct (existsb f l1) eqn:H1, (existsb f l2) eqn:H2; try reflexivity.
  - apply existsb_exists in H1. destruct H1 as [x [Hx Hf]].
    assert (existsb f l2 = true)
      by (apply existsb_exists; exists x; split; [now apply Hsame | exact Hf]).
    congruence.
  - apply existsb_exists in H2. destruct H2 as [x [Hx Hf]].
    assert (existsb f l1 = true)
      by (apply existsb_exists; exists x; split; [now apply Hsame | exact Hf]).
    congruence.
Qed.

Lemma fold_left_pointwise {A B} (f g : A -> B -> A) (l : list B) :
  (forall a b, f a b = g a b) ->
  forall a, fold_left f l a = fold_left g l a.
Proof.
  intros Hfg. induction l as [|b l IH]; intros a; simpl; [reflexivity|].
  now rewrite Hfg, IH.
Qed.

(** X3. The MRR snapshot depends on the active subscriptions only through
    the set of their customer ids: a customer holding several active
    subscriptions is counted once, and with no active subscription the MRR
    is 0 whatever the customers' own mrr values. *)
Theorem currentMRR_counts_each_customer_once
  (customers : list Customer.t) (subs1 subs2 : list Subscription.t) :
  (forall id, In id (map Subscription.customer_id subs1)
              <-> In id (map Subscription.customer_id subs2)) ->
  currentMRROf customers subs1 = currentMRROf customers subs2
  /\ currentMRROf customers [] = 0%Q.
Proof.
  intros Hsame. split.
  - unfold currentMRROf. apply fold_left_pointwise. intros acc c.
    now rewrite (existsb_same_members _ _ _ Hsame).
  - unfold currentMRROf. simpl.
    induction customers as [|c customers IH]; simpl; [reflexivity|].
    exact IH.
Qed.

Lemma currentMRR_counts_each_customer_once_witness :
  currentMRROf customersEx subsTwice
  = currentMRROf customersEx [ {| Subscription.customer_id := 7 |} ]
  /\ currentMRROf customersEx [] = 0%Q.
Proof.
  apply (currentMRR_counts_each_customer_once customersEx subsTwice
           [ {| Subscription.customer_id := 7 |} ]).
  intros id. simpl. tauto.
Defined.

(** ** The date short-circuit loses nothing on a newest-first provider *)

Lemma StronglySorted_app_inv {A} (R : A -> A -> Prop) (l1 l2 : list A) :
  StronglySorted R (l1 ++ l2) ->
  StronglySorted R l2
  /\ forall a b, In a l1 -> In b l2 -> R a b.
Proof.
  induction l1 as [|x l1 IH]; simpl; intros Hs.
  - split; [assumption | intros a b []].
  - inversion Hs as [|? ? Hs' Hall]; subst.
    destruct (IH Hs') as [Hs2 Hcross]. split; [assumption|].
    intros a b [<-|Ha] Hb.
    + rewrite Forall_forall in Hall. apply Hall. apply in_or_app. now right.
    + now apply Hcross.
Qed.

Lemma consecutive_app from n m :
  consecutive from (n + m)
  = consecutive from n ++ consecutive (from + Z.of_nat n) m.
Proof.
  revert from. induction n as [|n IH]; intros from.
  - simpl. now rewrite Z.add_0_r.
  - cbn [Nat.add consecutive]. rewrite IH. simpl. do 3 f_equal. lia.
Qed.

Section NewestFirst.
Context {A : Type}.
Variable endpoint : Endpoint.
Variable list_ : Z -> Response A.
Variable created_at : A -> Z.
Variables startDate endDate : Z.

Let recordsFrom (page : Z) (n : nat) : list A :=
  flat_map (fun p => pageData (list_ p)) (consecutive page n).

Lemma too_old_rest (items rest : list A) :
  lastItemTooOld created_at startDate items = true ->
  StronglySorted (fun a b => created_at b <= created_at a) (items ++ rest) ->
  filter (inRange created_at startDate endDate) rest = [].
Proof.
  unfold lastItemTooOld. intros Hlast Hsorted.
  destruct (nth_error items (List.length items - 1)) as [x|] eqn:Hnth;
    [|discriminate].
  apply Z.ltb_lt in Hlast. apply nth_error_In in Hnth.
  destruct (StronglySorted_app_inv _ _ _ Hsorted) as [_ Hcross].
  apply filter_none. intros y Hy. specialize (Hcross x y Hnth Hy).
  unfold inRange. destruct (Z.leb_spec startDate (created_at y)); [lia|].
  reflexivity.
Qed.

Lemma fetchAllDated_complete (L : Z) fuel : forall (k : nat) page all tr,
  page + Z.of_nat k = L + 1 -> (1 <= k <= fuel)%nat -> 1 <= page ->
  (forall p, page <= p <= L -> exists data, list_ p = Page data (Some L)) ->
  StronglySorted (fun a b => created_at b <= created_at a)
                 (recordsFrom page k) ->
  exists n,
    (1 <= n <= k)%nat
    /\ fetchAllDated endpoint list_ created_at startDate endDate
         fuel page all tr
       = Some (Ok (all ++ filter (inRange created_at startDate endDate)
                            (recordsFrom page k)),
               tr ++ map (Fetch endpoint) (consecutive page n)).
Proof.
  subst recordsFrom.
  induction fuel as [|fuel IH]; intros k page all tr Hk Hfuel Hpage Hpages
    Hsorted; [lia|].
  destruct k as [|k]; [lia|].
  destruct (Hpages page ltac:(lia)) as [data Hresp].
  cbn [fetchAllDated]. unfold await. unfold bind, emit. cbn beta iota.
  rewrite Hresp. cbn.
  cbn [consecutive flat_map] in Hsorted |- *. rewrite Hresp in Hsorted |- *.
  cbn [pageData] in Hsorted |- *.
  destruct (lastItemTooOld created_at startDate data) eqn:Hold.
  - exists 1%nat. split; [lia|].
    rewrite filter_app, (too_old_rest _ _ Hold Hsorted), app_nil_r.
    reflexivity.
  - unfold reachedLastPage.
    destruct (Z.eqb_spec L 0) as [HL0|HL0]; [lia|]. cbn [negb andb].
    destruct (Z.leb_spec L page) as [Hlast|Hmore].
    + assert (k = 0%nat) by lia. subst k. simpl. rewrite app_nil_r.
      exists 1%nat. split; [lia | reflexivity].
    + destruct (StronglySorted_app_inv _ _ _ Hsorted) as [Hsorted' _].
      destruct (IH k (page + 1)
                  (all ++ filter (inRange created_at startDate endDate) data)
                  (tr ++ [Fetch endpoint page])
                  ltac:(lia) ltac:(lia) ltac:(lia)
                  (fun p Hp => Hpages p ltac:(lia)) Hsorted')
        as [n [Hn Hrun]].
      exists (S n). split; [lia|]. rewrite Hrun.
      rewrite filter_app, <- !app_assoc. reflexivity.
Qed.
End NewestFirst.

(** X4. When the provider serves L pages of a dated endpoint, each
    reporting L as the last page, with records newest first across the
    pages, the order loop and the invoice loop return exactly the records
    of those L pages created within [startDate, endDate], after at most L
    fetches: stopping at the first page whose last record is older than
    [startDate] drops no record of the range. *)
Theorem short_circuit_keeps_every_record_in_range
  (api : Api) (storeId : option string) (startDate endDate L : Z)
  (fuel : nat) (tr : Trace) :
  1 <= L -> (Z.to_nat L <= fuel)%nat ->
  (servesNewestFirst Order.created_at (listOrders api storeId) L ->
   exists n,
     (1 <= n <= Z.to_nat L)%nat
     /\ fetchAllOrders api storeId startDate endDate fuel tr
        = Some (Ok (filter (inRange Order.created_at startDate endDate)
                      (recordsOn (listOrders api storeId) (Z.to_nat L))),
                tr ++ map (Fetch Orders) (consecutive 1 n)))
  /\ (servesNewestFirst Invoice.created_at
        (listSubscriptionInvoices api storeId) L ->
      exists n,
        (1 <= n <= Z.to_nat L)%nat
        /\ fetchAllInvoices api storeId startDate endDate fuel tr
           = Some (Ok (filter (inRange Invoice.created_at startDate endDate)
                         (recordsOn (listSubscriptionInvoices api storeId)
                                    (Z.to_nat L))),
                   tr ++ map (Fetch SubscriptionInvoices) (consecutive 1 n))).
Proof.
  intros HL Hfuel. split; intros [Hpages Hsorted].
  - apply (fetchAllDated_complete Orders (listOrders api storeId)
             Order.created_at startDate endDate L fuel (Z.to_nat L) 1 [] tr);
      try lia; assumption.
  - apply (fetchAllDated_complete SubscriptionInvoices
             (listSubscriptionInvoices api storeId)
             Invoice.created_at startDate endDate L fuel (Z.to_nat L) 1 [] tr);
      try lia; assumption.
Qed.

(** Three pages of two orders, for the range from 2024-03-05 to 2024-03-07:
    the loop stops after page 2, whose last order is of 2024-03-03, and has
    the three orders of the range. *)
Lemma short_circuit_keeps_every_record_in_range_witness :
  (exists n,
     (1 <= n <= Z.to_nat 3)%nat
     /\ fetchAllOrders apiThreePages None 1709596800000 1709769600000 3 []
        = Some (Ok (filter
                      (inRange Order.created_at 1709596800000 1709769600000)
                      (recordsOn (listOrders apiThreePages None)
                                 (Z.to_nat 3))),
                [] ++ map (Fetch Orders) (consecutive 1 n)))
  /\ fetchAllOrders apiThreePages None 1709596800000 1709769600000 3 []
     = Some (Ok [orderAt 1709719200000; orderAt 1709640000000;
                 orderAt 1709632800000],
             [Fetch Orders 1; Fetch Orders 2]).
Proof.
  split; [|vm_compute; reflexivity].
  apply (proj1 (short_circuit_keeps_every_record_in_range apiThreePages None
                  1709596800000 1709769600000 3 3 []
                  ltac:(lia) ltac:(simpl; lia))).
  split.
  - intros p _. exists (ordersPage p). reflexivity.
  - change (recordsOn (listOrders apiThreePages None) (Z.to_nat 3))
      with [orderAt 1709719200000; orderAt 1709640000000;
            orderAt 1709632800000; orderAt 1709467200000;
            orderAt 1709373600000; orderAt 1709287200000].
    repeat (apply SSorted_cons;
            [|repeat (apply Forall_cons;
                      [cbn [orderAt Order.created_at]; lia|]);
              apply Forall_nil]).
    apply SSorted_nil.
Defined.

(** ** A failed fetch ends the run *)

Section ThrowFacts.
Context {A : Type}.
Variable endpoint : Endpoint.
Variable list_ : Z -> Response A.

(** a loop that throws has fetched some pages without error and then one
    page that failed, which the callback logged if it came back as an error
    object *)
Lemma fetchAllDated_throw created_at startDate endDate fuel :
  forall page all tr msg tr',
    fetchAllDated endpoint list_ created_at startDate endDate
      fuel page all tr = Some (Throw msg, tr') ->
    exists m,
      tr' = tr ++ map (Fetch endpoint) (consecutive page m)
               ++ fetchLog endpoint list_ (page + Z.of_nat m)
      /\ Forall (fun p => isError (list_ p) = false) (consecutive page m)
      /\ (list_ (page + Z.of_nat m) = Rejected msg
          \/ list_ (page + Z.of_nat m) = Failed msg).
Proof.
  induction fuel as [|fuel IH]; intros page all tr msg tr' Hrun;
    [discriminate|].
  cbn [fetchAllDated] in Hrun. unfold await in Hrun.
  unfold bind, emit in Hrun. cbn beta iota in Hrun.
  destruct (list_ page) as [m0|m0| |data lp] eqn:Hresp; cbn in Hrun.
  - injection Hrun as <- <-. exists 0%nat. unfold fetchLog. simpl.
    rewrite Z.add_0_r, Hresp. simpl. auto.
  - injection Hrun as <- <-. exists 0%nat. unfold fetchLog. simpl.
    rewrite Z.add_0_r, Hresp, <- app_assoc. simpl. auto.
  - discriminate.
  - destruct (lastItemTooOld created_at startDate data); [discriminate|].
    destruct (reachedLastPage lp page); [discriminate|].
    apply IH in Hrun. destruct Hrun as [m [-> [Hok Hbad]]].
    exists (S m).
    replace (page + Z.of_nat (S m)) with (page + 1 + Z.of_nat m) by lia.
    split; [|split].
    + rewrite <- app_assoc. reflexivity.
    + simpl. constructor; [now rewrite Hresp | assumption].
    + exact Hbad.
Qed.

Lemma fetchAllPlain_throw fuel :
  forall page all tr msg tr',
    fetchAllPlain endpoint list_ fuel page all tr = Some (Throw msg, tr') ->
    exists m,
      tr' = tr ++ map (Fetch endpoint) (consecutive page m)
               ++ fetchLog endpoint list_ (page + Z.of_nat m)
      /\ Forall (fun p => isError (list_ p) = false) (consecutive page m)
      /\ (list_ (page + Z.of_nat m) = Rejected msg
          \/ list_ (page + Z.of_nat m) = Failed msg).
Proof.
  induction fuel as [|fuel IH]; intros page all tr msg tr' Hrun;
    [discriminate|].
  cbn [fetchAllPlain] in Hrun. unfold await in Hrun.
  unfold bind, emit in Hrun. cbn beta iota in Hrun.
  destruct (list_ page) as [m0|m0| |data lp] eqn:Hresp; cbn in Hrun.
  - injection Hrun as <- <-. exists 0%nat. unfold fetchLog. simpl.
    rewrite Z.add_0_r, Hresp. simpl. auto.
  - injection Hrun as <- <-. exists 0%nat. unfold fetchLog. simpl.
    rewrite Z.add_0_r, Hresp, <- app_assoc. simpl. auto.
  - discriminate.
  - destruct (reachedLastPage lp page); [discriminate|].
    apply IH in Hrun. destruct Hrun as [m [-> [Hok Hbad]]].
    exists (S m).
    replace (page + Z.of_nat (S m)) with (page + 1 + Z.of_nat m) by lia.
    split; [|split].
    + rewrite <- app_assoc. reflexivity.
    + simpl. constructor; [now rewrite Hresp | assumption].
    + exact Hbad.
Qed.

(** the callback's entry for a response that made the loop throw [msg] *)
Lemma onErrorLog_of_thrown (r : Response A) (msg : string) :
  r = Rejected msg \/ r = Failed msg ->
  isError r = true
  /\ (onErrorLog r = [] \/ onErrorLog r = [SdkError msg]).
Proof. intros [->| ->]; simpl; auto. Qed.
End ThrowFacts.

Lemma goodFetches_map api storeId endpoint (failed : Z -> bool) pages :
  (forall p, fetchFailed api storeId (Fetch endpoint p) = failed p) ->
  Forall (fun p => failed p = false) pages ->
  Forall (goodFetch api storeId) (map (Fetch endpoint) pages).
Proof.
  intros Hep Hall. induction Hall as [|p pages Hp Hall IH]; simpl;
    constructor; [|assumption].
  unfold goodFetch. simpl isFetch. now rewrite Hep, Hp.
Qed.

(** a [try] block that throws has issued fetches that all went well except
    the last one, followed by the callback's entry for it, if any *)
Lemma tryBlock_throw fuel api storeId startDate endDate msg tr' :
  tryBlock fuel api storeId startDate endDate [] = Some (Throw msg, tr') ->
  exists fs e,
    tr' = fs ++ e :: callbackLog api storeId e
    /\ Forall (goodFetch api storeId) fs
    /\ isFetch e = true /\ fetchFailed api storeId e = true
    /\ (callbackLog api storeId e = []
        \/ callbackLog api storeId e = [SdkError msg]).
Proof.
  unfold tryBlock. intros Hrun.
  apply bind_Some in Hrun.
  destruct Hrun as [[orders [tr1 [HO Hrun]]]|[m0 [HO [= <-]]]].
  2:{ apply fetchAllDated_throw in HO. destruct HO as [m [-> [Hok Hbad]]].
      apply onErrorLog_of_thrown in Hbad. destruct Hbad as [Hbad Hcb].
      exists (map (Fetch Orders) (consecutive 1 m)),
             (Fetch Orders (1 + Z.of_nat m)).
      split; [reflexivity|]. split; [|auto].
      now apply goodFetches_map
        with (failed := fun p => isError (listOrders api storeId p)). }
  apply fetchAllDated_run in HO. destruct HO as [nO [_ [-> [_ HOok]]]].
  assert (HfO : Forall (goodFetch api storeId)
                       (map (Fetch Orders) (consecutive 1 nO)))
    by (now apply goodFetches_map
          with (failed := fun p => isError (listOrders api storeId p))).
  apply bind_Some in Hrun.
  destruct Hrun as [[invoices [tr2 [HI Hrun]]]|[m0 [HI [= <-]]]].
  2:{ apply fetchAllDated_throw in HI. destruct HI as [m [-> [Hok Hbad]]].
      apply onErrorLog_of_thrown in Hbad. destruct Hbad as [Hbad Hcb].
      exists (map (Fetch Orders) (consecutive 1 nO)
              ++ map (Fetch SubscriptionInvoices) (consecutive 1 m)),
             (Fetch SubscriptionInvoices (1 + Z.of_nat m)).
      split; [simpl; now rewrite <- app_assoc|]. split; [|auto].
      apply Forall_app. split; [assumption|].
      now apply goodFetches_map
        with (failed :=
                fun p => isError (listSubscriptionInvoices api storeId p)). }
  apply fetchAllDated_run in HI. destruct HI as [nI [_ [-> [_ HIok]]]].
  assert (HfI : Forall (goodFetch api storeId)
                       (map (Fetch SubscriptionInvoices) (consecutive 1 nI)))
    by (now apply goodFetches_map
          with (failed :=
                  fun p => isError (listSubscriptionInvoices api storeId p))).
  apply bind_Some in Hrun.
  destruct Hrun as [[customers [tr3 [HC Hrun]]]|[m0 [HC [= <-]]]].
  2:{ apply fetchAllPlain_throw in HC. destruct HC as [m [-> [Hok Hbad]]].
      apply onErrorLog_of_thrown in Hbad. destruct Hbad as [Hbad Hcb].
      exists ((map (Fetch Orders) (consecutive 1 nO)
               ++ map (Fetch SubscriptionInvoices) (consecutive 1 nI))
              ++ map (Fetch Customers) (consecutive 1 m)),
             (Fetch Customers (1 + Z.of_nat m)).
      split; [simpl; now rewrite <- !app_assoc|]. split; [|auto].
      repeat (apply Forall_app; split); try assumption.
      now apply goodFetches_map
        with (failed := fun p => isError (listCustomers api storeId p)). }
  apply fetchAllPlain_run in HC. destruct HC as [nC [_ [-> [_ HCok]]]].
  assert (HfC : Forall (goodFetch api storeId)
                       (map (Fetch Customers) (consecutive 1 nC)))
    by (now apply goodFetches_map
          with (failed := fun p => isError (listCustomers api storeId p))).
  apply bind_Some in Hrun.
  destruct Hrun as [[subs [tr4 [HS Hrun]]]|[m0 [HS [= <-]]]].
  2:{ apply fetchAllPlain_throw in HS. destruct HS as [m [-> [Hok Hbad]]].
      apply onErrorLog_of_thrown in Hbad. destruct Hbad as [Hbad Hcb].
      exists (((map (Fetch Orders) (consecutive 1 nO)
                ++ map (Fetch SubscriptionInvoices) (consecutive 1 nI))
               ++ map (Fetch Customers) (consecutive 1 nC))
              ++ map (Fetch Subscriptions) (consecutive 1 m)),
             (Fetch Subscriptions (1 + Z.of_nat m)).
      split; [simpl; now rewrite <- !app_assoc|]. split; [|auto].
      repeat (apply Forall_app; split); try assumption.
      now apply goodFetches_map
        with (failed := fun p => isError (listSubscriptions api storeId p)). }
  unfold liftOption in Hrun.
  destruct (buildLedger _ _ _ _ _ _ _); discriminate.
Qed.

Lemma goodFetch_not_LogError api storeId fs msg :
  Forall (goodFetch api storeId) fs -> ~ In (LogError msg) fs.
Proof.
  intros Hall Hin. rewrite Forall_forall in Hall.
  destruct (Hall _ Hin) as [Hfetch _]. discriminate.
Qed.

(** X5. The builder stops at the first failed fetch.  When its trace holds
    the [catch] clause's log entry, the series is empty and the trace is:
    fetches that went well, then one fetch that failed, then the callback's
    log entry for it when it came back as an error object (so that such a
    failure is logged twice, with the same message), then the [catch]
    clause's entry; nothing is fetched after the failure. *)
Theorem builder_stops_at_first_failure (fuel : nat) (env : Env) (api : Api)
  (startDate endDate : Z) (r : Result (list LS.t)) (tr' : Trace)
  (msg : string) :
  fetchLemonSqueezyData fuel env api startDate endDate [] = Some (r, tr') ->
  In (LogError msg) tr' ->
  r = Ok []
  /\ exists fs e,
       tr' = fs ++ e :: callbackLog api (LEMONSQUEEZY_STORE_ID env) e
                ++ [LogError msg]
       /\ Forall (goodFetch api (LEMONSQUEEZY_STORE_ID env)) fs
       /\ isFetch e = true
       /\ fetchFailed api (LEMONSQUEEZY_STORE_ID env) e = true
       /\ (callbackLog api (LEMONSQUEEZY_STORE_ID env) e = []
           \/ callbackLog api (LEMONSQUEEZY_STORE_ID env) e
              = [SdkError msg]).
Proof.
  intros Hrun Hlog. apply builder_inv in Hrun.
  destruct Hrun as [[_ [_ ->]]|[[_ [m0 [tr1 [Hrun [-> ->]]]]]
                                |[_ [series [Hrun ->]]]]].
  - simpl in Hlog. destruct Hlog as [Hlog|[]]. discriminate.
  - split; [reflexivity|].
    apply tryBlock_throw in Hrun.
    destruct Hrun as [fs [e [-> [Hgood [Hfetch [Hbad Hcb]]]]]].
    assert (m0 = msg).
    { rewrite !in_app_iff in Hlog. simpl in Hlog.
      destruct Hlog as [[Hlog|[Hlog|Hlog]]|[Hlog|[]]].
      - exfalso. revert Hlog. now apply goodFetch_not_LogError with api
                                  (LEMONSQUEEZY_STORE_ID env).
      - subst e. discriminate.
      - exfalso. destruct Hcb as [Hcb|Hcb]; rewrite Hcb in Hlog;
          simpl in Hlog; [contradiction|].
        destruct Hlog as [Hlog|[]]. discriminate.
      - now injection Hlog. }
    subst m0. exists fs, e. rewrite <- app_assoc. simpl. auto.
  - exfalso. apply tryBlock_ok in Hrun.
    destruct Hrun as [nO [nI [nC [nS [-> [_ _]]]]]]. simpl in Hlog.
    unfold fetchesOf in Hlog. rewrite !in_app_iff, !in_map_iff in Hlog.
    destruct Hlog as [[p [H _]]|[[p [H _]]|[[p [H _]]|[p [H _]]]]];
      discriminate.
Qed.

Lemma builder_stops_at_first_failure_witness :
  traceOf (fetchLemonSqueezyData 5 envEx apiFailing startEx endEx [])
  = [Fetch Orders 1; SdkError "Unauthenticated."; LogError "Unauthenticated."]
  /\ exists fs e,
       traceOf (fetchLemonSqueezyData 5 envEx apiFailing startEx endEx [])
       = fs ++ e :: callbackLog apiFailing (LEMONSQUEEZY_STORE_ID envEx) e
            ++ [LogError "Unauthenticated."]
       /\ Forall (goodFetch apiFailing (LEMONSQUEEZY_STORE_ID envEx)) fs
       /\ isFetch e = true
       /\ fetchFailed apiFailing (LEMONSQUEEZY_STORE_ID envEx) e = true
       /\ (callbackLog apiFailing (LEMONSQUEEZY_STORE_ID envEx) e = []
           \/ callbackLog apiFailing (LEMONSQUEEZY_STORE_ID envEx) e
              = [SdkError "Unauthenticated."]).
Proof.
  assert (Hrun : fetchLemonSqueezyData 5 envEx apiFailing startEx endEx []
                 = Some (Ok [],
                         traceOf (fetchLemonSqueezyData 5 envEx apiFailing
                                    startEx endEx [])))
    by (vm_compute; reflexivity).
  assert (Hlog : In (LogError "Unauthenticated.")
                    (traceOf (fetchLemonSqueezyData 5 envEx apiFailing
                                startEx endEx [])))
    by (vm_compute; auto).
  split; [vm_compute; reflexivity|].
  exact (proj2 (builder_stops_at_first_failure 5 envEx apiFailing startEx
                  endEx _ _ _ Hrun Hlog)).
Defined.

(* ================================================================== *)
(** * Further properties of the time-bucket aggregator *)
(* ================================================================== *)

(** the Monday on or before a day *)
Lemma monday_formula (d : DateKey) :
  setDate d (getDate d - getDay d + (if getDay d =? 0 then -6 else 1))
  = 7 * ((d + 3) / 7) - 3.
Proof.
  unfold setDate, getDay. generalize (getDate d). intros g.
  destruct (Z.eqb_spec ((d + 4) mod 7) 0);
    Z.div_mod_to_equations; lia.
Qed.

(** In a zone that keeps the offset [off], the wall clock at midnight UTC
    of day [d] shows day [d + off / 86400000]; the weekly key is the Monday
    on or before that day, moved back by the same number of days. *)
Lemma weekKey_formula (off : Z) (d : DateKey) :
  bucketKeyOf (fixedOffset off) week d
  = 7 * ((d + off / MS_PER_DAY + 3) / 7) - 3 - off / MS_PER_DAY.
Proof.
  unfold bucketKeyOf, localSetDate, localGetDay, localGetDate, localDay,
    localTime, parseDate, isoDay, fixedOffset; cbn [offsetAt utcOfLocal].
  assert (HMS : MS_PER_DAY <> 0) by discriminate.
  assert (Hday : (d * MS_PER_DAY + off) / MS_PER_DAY = d + off / MS_PER_DAY)
    by (rewrite Z.add_comm, Z.div_add by assumption; lia).
  assert (Htod : (d * MS_PER_DAY + off) mod MS_PER_DAY = off mod MS_PER_DAY)
    by (rewrite Z.add_comm, Z.mod_add by assumption; reflexivity).
  rewrite Hday, Htod.
  set (ld := d + off / MS_PER_DAY).
  cbv zeta. rewrite (monday_formula ld).
  pose proof (Z.div_mod off MS_PER_DAY HMS) as Hoff.
  replace ((7 * ((ld + 3) / 7) - 3) * MS_PER_DAY + off mod MS_PER_DAY - off)
    with ((7 * ((ld + 3) / 7) - 3 - off / MS_PER_DAY) * MS_PER_DAY) by lia.
  now rewrite Z.div_mul by assumption.
Qed.

Lemma weekly_key_facts (off : Z) (d : DateKey) :
  - MS_PER_DAY < off < MS_PER_DAY ->
  getDay (bucketKeyOf (fixedOffset off) week d)
  = (if 0 <=? off then 1 else 2)
  /\ bucketKeyOf (fixedOffset off) week d <= d
     <= bucketKeyOf (fixedOffset off) week d + 6
  /\ bucketKeyOf (fixedOffset off) week d
     = d - (getDay d + (if 0 <=? off then 6 else 5)) mod 7.
Proof.
  intros Hoff. rewrite weekKey_formula. unfold getDay.
  assert (Hs : off / MS_PER_DAY = if 0 <=? off then 0 else -1).
  { destruct (Z.leb_spec 0 off).
    - apply Z.div_small. lia.
    - symmetry. apply (Z.div_unique off MS_PER_DAY (-1) (off + MS_PER_DAY));
        lia. }
  rewrite Hs. destruct (0 <=? off);
    repeat split; Z.div_mod_to_equations; lia.
Qed.

(** X6. In a browser whose time zone keeps one offset from UTC all year
    (less than a day either way), the weekly bucket key of a day is at most
    six days back and falls on a fixed weekday: at or east of UTC it is the
    Monday on or before the day; west of UTC, where the wall clock at
    midnight UTC still shows the day before, it is the Tuesday on or before
    the day. *)
Theorem weekly_key_in_a_fixed_offset_zone (off : Z) (d : DateKey) :
  - MS_PER_DAY < off < MS_PER_DAY ->
  getDay (bucketKeyOf (fixedOffset off) week d)
  = (if 0 <=? off then 1 else 2)
  /\ bucketKeyOf (fixedOffset off) week d <= d
     <= bucketKeyOf (fixedOffset off) week d + 6
  /\ bucketKeyOf (fixedOffset off) week d
     = d - (getDay d + (if 0 <=? off then 6 else 5)) mod 7.
Proof.
  intros Hoff. rewrite weekKey_formula. unfold getDay.
  assert (Hs : off / MS_PER_DAY = if 0 <=? off then 0 else -1).
  { destruct (Z.leb_spec 0 off).
    - apply Z.div_small. lia.
    - symmetry. apply (Z.div_unique off MS_PER_DAY (-1) (off + MS_PER_DAY));
        lia. }
  rewrite Hs. destruct (0 <=? off);
    repeat split; Z.div_mod_to_equations; lia.
Qed.

(** Monday 2024-01-01 (day 19723): in a zone five hours west of UTC the key
    is Tuesday 2023-12-26; in UTC it is the day itself. *)
Lemma weekly_key_in_a_fixed_offset_zone_witness :
  (getDay (bucketKeyOf (fixedOffset (-18000000)) week 19723) = 2
   /\ bucketKeyOf (fixedOffset (-18000000)) week 19723 = 19717)
  /\ bucketKeyOf (fixedOffset 0) week 19723 = 19723.
Proof.
  split.
  - destruct (weekly_key_in_a_fixed_offset_zone (-18000000) 19723)
      as [Hday [_ Hkey]]; [unfold MS_PER_DAY; lia|].
    split; [exact Hday | exact Hkey].
  - destruct (weekly_key_in_a_fixed_offset_zone 0 19723)
      as [_ [_ Hkey]]; [unfold MS_PER_DAY; lia|].
    exact Hkey.
Defined.

Lemma weekKey_monotone (off : Z) (d1 d2 : DateKey) :
  d1 <= d2 ->
  bucketKeyOf (fixedOffset off) week d1
  <= bucketKeyOf (fixedOffset off) week d2.
Proof.
  intros Hle. rewrite !weekKey_formula.
  assert ((d1 + off / MS_PER_DAY + 3) / 7 <= (d2 + off / MS_PER_DAY + 3) / 7)
    by (apply Z.div_le_mono; lia).
  lia.
Qed.

Lemma flush_fold_dates tz granularity data : forall agg b,
  map DD.date
    (flushBucket (fold_left (bucketStep tz granularity) data (agg, Some b)))
  = map DD.date agg ++ runHeads (DD.date b :: bucketKeys tz granularity data).
Proof.
  induction data as [|it data IH]; intros agg b.
  - unfold flushBucket. simpl. now rewrite map_app.
  - cbn [fold_left bucketStep bucketKeys map].
    fold (bucketKeys tz granularity data).
    cbn [runHeads].
    destruct (Z.eqb_spec (DD.date b)
                (bucketKeyOf tz granularity (DD.date it)))
      as [Heq|Hne]; cbn [negb].
    + rewrite IH. cbn [accumulate DD.date]. now rewrite Heq.
    + rewrite IH, map_app. cbn [seedBucket DD.date map].
      now rewrite <- app_assoc.
Qed.

Lemma fold_dates_run_heads (tz : TimeZone) (granularity : Granularity)
  (data : list DD.t) :
  map DD.date
    (flushBucket (fold_left (bucketStep tz granularity) data ([], None)))
  = runHeads (bucketKeys tz granularity data).
Proof.
  destruct data as [|it data]; [reflexivity|].
  cbn [fold_left bucketStep]. rewrite flush_fold_dates. reflexivity.
Qed.

(** X7. Weekly and monthly bucketing emit one bucket per maximal run of
    consecutive records with the same bucket key, dated with that key, in
    order: the bucket dates are the bucket keys of the input with each run
    of equal neighbours collapsed.  (A key that comes back after a different
    one starts a new bucket.) *)
Theorem bucket_dates_are_key_runs (tz : TimeZone) (granularity : Granularity)
  (data : list DD.t) :
  granularity <> day ->
  map DD.date (aggregatedData tz granularity data)
  = runHeads (bucketKeys tz granularity data).
Proof.
  intros Hg. unfold aggregatedData.
  destruct granularity; [contradiction | | ]; apply fold_dates_run_heads.
Qed.

Lemma bucket_dates_are_key_runs_witness :
  map DD.date (aggregatedData utc week eightDays) = [19723; 19730]
  /\ map DD.date (aggregatedData utc month eightDays) = [19723].
Proof.
  split.
  - rewrite (bucket_dates_are_key_runs utc week eightDays); [|discriminate].
    vm_compute. reflexivity.
  - rewrite (bucket_dates_are_key_runs utc month eightDays); [|discriminate].
    vm_compute. reflexivity.
Defined.

Lemma runHeads_In keys : forall x, In x (runHeads keys) -> In x keys.
Proof.
  induction keys as [|k rest IH]; intros x; [tauto|].
  cbn [runHeads]. destruct rest as [|k' rest']; [tauto|].
  destruct (k =? k').
  - intros H. right. now apply IH.
  - intros [<-|H]; [now left | right; now apply IH].
Qed.

Lemma runHeads_sorted keys :
  StronglySorted Z.le keys -> StronglySorted Z.lt (runHeads keys).
Proof.
  induction keys as [|k rest IH]; intros Hs; [constructor|].
  inversion Hs as [|? ? Hs' Hall]; subst.
  cbn [runHeads]. destruct rest as [|k' rest']; [repeat constructor|].
  destruct (Z.eqb_spec k k') as [Heq|Hne]; [now apply IH|].
  constructor; [now apply IH|].
  apply Forall_forall. intros x Hx. apply runHeads_In in Hx.
  inversion Hs' as [|? ? _ Hall']; subst.
  rewrite Forall_forall in Hall, Hall'.
  pose proof (Hall k' (or_introl eq_refl)).
  destruct Hx as [<-|Hx]; [lia|]. specialize (Hall' x Hx). lia.
Qed.

Lemma StronglySorted_impl_le (l : list Z) :
  StronglySorted Z.lt l -> StronglySorted Z.le l.
Proof.
  induction 1 as [|x l Hs IH Hall]; constructor; [assumption|].
  revert Hall. apply Forall_impl. intros; lia.
Qed.

Lemma weekKeys_sorted (off : Z) (data : list DD.t) :
  StronglySorted Z.le (map DD.date data) ->
  StronglySorted Z.le (bucketKeys (fixedOffset off) week data).
Proof.
  unfold bucketKeys. induction data as [|r data IH]; simpl; intros Hs;
    [constructor|].
  inversion Hs as [|? ? Hs' Hall]; subst.
  constructor; [now apply IH|].
  rewrite Forall_map in Hall |- *. revert Hall. apply Forall_impl.
  intros r'. apply weekKey_monotone.
Qed.

(** X8. In a browser whose time zone keeps one offset from UTC all year,
    weekly bucketing of a series whose dates never decrease gives buckets
    with strictly ascending dates, so that no week appears twice; the bucket
    dates all fall on Mondays at or east of UTC, and all on Tuesdays west of
    UTC. *)
Theorem weekly_buckets_ascend_in_a_fixed_offset_zone (off : Z)
  (data : list DD.t) :
  - MS_PER_DAY < off < MS_PER_DAY ->
  StronglySorted Z.le (map DD.date data) ->
  StronglySorted Z.lt
    (map DD.date (aggregatedData (fixedOffset off) week data))
  /\ Forall (fun b => getDay (DD.date b) = if 0 <=? off then 1 else 2)
            (aggregatedData (fixedOffset off) week data).
Proof.
  intros Hoff Hs.
  assert (Hdates := fold_dates_run_heads (fixedOffset off) week data).
  change (flushBucket
            (fold_left (bucketStep (fixedOffset off) week) data ([], None)))
    with (aggregatedData (fixedOffset off) week data) in Hdates.
  split.
  - rewrite Hdates. apply runHeads_sorted. now apply weekKeys_sorted.
  - apply Forall_forall. intros b Hb.
    assert (Hin : In (DD.date b) (bucketKeys (fixedOffset off) week data)).
    { apply runHeads_In. rewrite <- Hdates. now apply in_map. }
    unfold bucketKeys in Hin. apply in_map_iff in Hin.
    destruct Hin as [r [<- _]].
    now apply weekly_key_facts.
Qed.

(** Eight days from Monday 2024-01-01, five hours west of UTC: the buckets
    are dated Tuesday 2023-12-26 and Tuesday 2024-01-02. *)
Lemma weekly_buckets_ascend_in_a_fixed_offset_zone_witness :
  (StronglySorted Z.lt
     (map DD.date (aggregatedData (fixedOffset (-18000000)) week eightDays))
   /\ Forall (fun b => getDay (DD.date b) = 2)
             (aggregatedData (fixedOffset (-18000000)) week eightDays))
  /\ map DD.date (aggregatedData (fixedOffset (-18000000)) week eightDays)
     = [19717; 19724].
Proof.
  split; [|vm_compute; reflexivity].
  apply (weekly_buckets_ascend_in_a_fixed_offset_zone (-18000000) eightDays).
  - unfold MS_PER_DAY. lia.
  - change (map DD.date eightDays) with (consecutive 19723 8).
    generalize (consecutive_sorted 19723 8).
    apply StronglySorted_impl_le.
Defined.

(** X9. After weekly or monthly bucketing (and trivially after none) the
    last bucket carries the [mrr], [activeCustomers] and [churnRate] of the
    last record of the series: the latest snapshot survives bucketing. *)
Theorem last_bucket_keeps_latest_snapshot (tz : TimeZone)
  (granularity : Granularity) (data : list DD.t) (d0 : DD.t) :
  data <> [] ->
  DD.mrr (last (aggregatedData tz granularity data) d0)
  = DD.mrr (last data d0)
  /\ DD.activeCustomers (last (aggregatedData tz granularity data) d0)
     = DD.activeCustomers (last data d0)
  /\ DD.churnRate (last (aggregatedData tz granularity data) d0)
     = DD.churnRate (last data d0).
Proof.
  intros Hne.
  destruct (exists_last Hne) as [l [x ->]].
  assert (Hfold : forall g,
             let b := last (flushBucket
                              (fold_left (bucketStep tz g) (l ++ [x])
                                         ([], None)))
                           d0 in
             DD.mrr b = DD.mrr x
             /\ DD.activeCustomers b = DD.activeCustomers x
             /\ DD.churnRate b = DD.churnRate x).
  { intros g. rewrite fold_left_app. cbn [fold_left].
    destruct (fold_left (bucketStep tz g) l ([], None)) as [agg [b|]];
      cbn [bucketStep].
    - destruct (negb _); unfold flushBucket; cbn [fst snd];
        rewrite last_last; simpl; auto.
    - unfold flushBucket; cbn [fst snd]. rewrite last_last. simpl. auto. }
  rewrite last_last.
  destruct granularity;
    [cbn [aggregatedData]; rewrite last_last; auto
    | apply (Hfold week) | apply (Hfold month)].
Qed.

Lemma last_bucket_keeps_latest_snapshot_witness :
  DD.mrr (last (aggregatedData utc week eightDays) (dayOf 0 0)) = 43%Q
  /\ DD.mrr (last (aggregatedData utc month eightDays) (dayOf 0 0)) = 43%Q.
Proof.
  assert (Hne : eightDays <> []) by discriminate.
  split.
  - exact (proj1 (last_bucket_keeps_latest_snapshot utc week eightDays
                    (dayOf 0 0) Hne)).
  - exact (proj1 (last_bucket_keeps_latest_snapshot utc month eightDays
                    (dayOf 0 0) Hne)).
Defined.

(** *** Referring domains *)

Lemma sumCounts_set (o : JsObject string Z) (k : string) (c : Z) :
  sumCounts (obj_set String.eqb o k (countOf o k + c)) = sumCounts o + c.
Proof.
  unfold countOf, sumCounts, obj_values.
  induction o as [|[k' v'] o IH]; simpl; [lia|].
  destruct (String.eqb k' k); simpl; [lia|]. rewrite IH. lia.
Qed.

Lemma countOf_set (o : JsObject string Z) (k k' : string) (v : Z) :
  countOf (obj_set String.eqb o k v) k'
  = if String.eqb k k' then v else countOf o k'.
Proof.
  unfold countOf. induction o as [|[k0 v0] o IH]; simpl.
  - destruct (String.eqb k k'); reflexivity.
  - destruct (String.eqb_spec k0 k) as [->|Hne]; simpl.
    + destruct (String.eqb k k'); reflexivity.
    + destruct (String.eqb_spec k0 k') as [->|Hne'].
      * destruct (String.eqb_spec k k'); [congruence | reflexivity].
      * exact IH.
Qed.

Lemma countOf_absent (o : JsObject string Z) (k : string) :
  ~ In k (obj_keys o) -> countOf o k = 0.
Proof.
  unfold countOf, obj_keys. induction o as [|[k' v'] o IH]; simpl;
    [reflexivity|].
  intros Hnotin. destruct (String.eqb_spec k' k) as [->|Hne]; [tauto|].
  apply IH. tauto.
Qed.

Lemma mergeDomains_total (from : JsObject string Z) : forall into,
  sumCounts (mergeDomains into from) = sumCounts into + sumCounts from.
Proof.
  unfold mergeDomains.
  induction from as [|[d c] from IH]; intros into; simpl.
  - change (sumCounts []) with 0. lia.
  - rewrite IH. fold (countOf into d). rewrite sumCounts_set.
    change (sumCounts ((d, c) :: from)) with (c + sumCounts from). lia.
Qed.

Lemma mergeDomains_count (from : JsObject string Z) : forall into k,
  NoDup (obj_keys from) ->
  countOf (mergeDomains into from) k = countOf into k + countOf from k.
Proof.
  unfold mergeDomains.
  induction from as [|[d c] from IH]; intros into k Hnd; simpl.
  - change (countOf [] k) with 0. lia.
  - unfold obj_keys in Hnd. simpl in Hnd.
    inversion Hnd as [|? ? Hd Hnd']; subst.
    rewrite IH by assumption. fold (countOf into d). rewrite countOf_set.
    assert (Hhead : countOf ((d, c) :: from) k
                    = if String.eqb d k then c else countOf from k)
      by (unfold countOf; simpl; destruct (String.eqb d k); reflexivity).
    rewrite Hhead.
    destruct (String.eqb_spec d k) as [->|Hne].
    + rewrite (countOf_absent from k Hd). lia.
    + reflexivity.
Qed.

(** X10. Bucketing preserves the total of the referring-domain counts: the
    counts stored in the buckets' referringDomains objects add up to the
    counts stored in the daily records' objects. *)
Theorem bucketing_preserves_domain_totals (tz : TimeZone)
  (granularity : Granularity) (data : list DD.t) :
  sumZ domainTotal (aggregatedData tz granularity data)
  = sumZ domainTotal data
  /\ forall b it, domainTotal (accumulate b it)
                  = domainTotal b + domainTotal it.
Proof.
  assert (Hacc : forall b it, domainTotal (accumulate b it)
                              = domainTotal b + domainTotal it).
  { intros b it. unfold domainTotal. simpl. apply mergeDomains_total. }
  split; [|exact Hacc].
  apply aggregated_sumZ. split; [reflexivity | exact Hacc].
Qed.

(** sums over a series whose records all satisfy [P], for a field that
    accumulates additively on such records *)
Lemma aggregated_sumZ_on (P : DD.t -> Prop) (f : DD.t -> Z)
  (tz : TimeZone) (granularity : Granularity) (data : list DD.t) :
  (forall it k, f (seedBucket it k) = f it) ->
  (forall b it, P it -> f (accumulate b it) = f b + f it) ->
  Forall P data ->
  sumZ f (aggregatedData tz granularity data) = sumZ f data.
Proof.
  intros Hseed Hacc Hall.
  assert (Hfold : forall g st,
             heldZ f (fold_left (bucketStep tz g) data st)
             = heldZ f st + sumZ f data).
  { intros g. induction Hall as [|it data Hit Hall IH]; intros st; simpl;
      [lia|].
    rewrite IH. destruct st as [agg [b|]]; unfold heldZ; simpl.
    - destruct (negb _); simpl.
      + rewrite sumZ_app, Hseed. simpl. lia.
      + rewrite Hacc by assumption. lia.
    - rewrite Hseed. lia. }
  unfold aggregatedData.
  destruct granularity; [reflexivity| |];
    rewrite flush_heldZ, Hfold; unfold heldZ; simpl; lia.
Qed.

(** X11. Bucketing preserves the count of each referring domain: for every
    domain name, the counts the buckets hold for it add up to the counts the
    daily records hold for it (a record without the domain counting 0),
    provided no daily record lists a domain twice. *)
Theorem bucketing_preserves_each_domain (tz : TimeZone)
  (granularity : Granularity) (data : list DD.t) (domain : string) :
  Forall wellFormedDomains data ->
  sumZ (fun r => countOf (DD.referringDomains r) domain)
       (aggregatedData tz granularity data)
  = sumZ (fun r => countOf (DD.referringDomains r) domain) data.
Proof.
  intros Hwf.
  apply (aggregated_sumZ_on wellFormedDomains); [reflexivity | | assumption].
  intros b it Hit. simpl. now apply mergeDomains_count.
Qed.

Lemma bucketing_preserves_each_domain_witness :
  sumZ (fun r => countOf (DD.referringDomains r) "direct")
       (aggregatedData utc week eightDays)
  = sumZ (fun r => countOf (DD.referringDomains r) "direct") eightDays.
Proof.
  apply (bucketing_preserves_each_domain utc week eightDays "direct").
  unfold eightDays, wellFormedDomains.
  repeat (apply Forall_cons;
          [simpl; repeat constructor; simpl; intuition discriminate|]).
  apply Forall_nil.
Defined.

(* ================================================================== *)
(** * Further properties of the mock analytics series *)
(* ================================================================== *)

Lemma mockDay_date random n cur :
  PH.date (fst (mockDay random n cur)) = isoDay cur.
Proof.
  unfold mockDay.
  destruct (fold_left (domainStep random) domains _) as [[o remaining] n'].
  reflexivity.
Qed.

Lemma generateMockLoop_dates random endDate fuel : forall n cur acc a j data,
  map PH.date acc = consecutive a j -> isoDay cur = a + Z.of_nat j ->
  generateMockLoop fuel random n cur endDate acc = Some data ->
  map PH.date data = consecutive a (j + dayCount cur endDate).
Proof.
  induction fuel as [|fuel IH]; intros n cur acc a j data Hacc Hday Hrun;
    cbn [generateMockLoop] in Hrun;
    destruct (Z.leb_spec cur endDate) as [Hle|Hgt]; try discriminate.
  - injection Hrun as <-. now rewrite dayCount_past, Nat.add_0_r by lia.
  - rewrite dayCount_step by assumption.
    pose proof (mockDay_date random n cur) as Hdate.
    destruct (mockDay random n cur) as [r n']. simpl in Hdate.
    apply IH with (a := a) (j := S j) in Hrun.
    + now rewrite Nat.add_succ_r.
    + rewrite map_app, Hacc, consecutive_snoc. simpl.
      now rewrite Hdate, Hday.
    + rewrite isoDay_next. lia.
  - injection Hrun as <-. now rewrite dayCount_past, Nat.add_0_r by lia.
Qed.

(** X12. The mock series has one record per iteration of the day loop, on
    consecutive days from the day of [startDate]: for the same range its
    dates are exactly the dates of a non-empty billing ledger, so every
    ledger record finds a mock record of its date. *)
Theorem mock_dates_match_the_ledger (fuelM fuelL : nat) (random : Rng)
  (env : Env) (api : Api) (startDate endDate : Z)
  (data : list PH.t) (series : list LS.t) (tr' : Trace) :
  generateMockPostHogData fuelM random startDate endDate = Some data ->
  map PH.date data
  = consecutive (isoDay startDate) (dayCount startDate endDate)
  /\ (fetchLemonSqueezyData fuelL env api startDate endDate []
      = Some (Ok series, tr') ->
      series <> [] ->
      map LS.date series = map PH.date data).
Proof.
  intros Hmock.
  assert (Hdates : map PH.date data
                   = consecutive (isoDay startDate)
                                 (dayCount startDate endDate)).
  { unfold generateMockPostHogData in Hmock.
    apply (generateMockLoop_dates random endDate fuelM 0%nat startDate []
             (isoDay startDate) 0%nat data) in Hmock;
      [exact Hmock | reflexivity | simpl; lia]. }
  split; [exact Hdates|].
  intros Hrun Hne. rewrite Hdates. now apply ledger_days with fuelL env api tr'.
Qed.

Lemma mock_dates_match_the_ledger_witness :
  map PH.date
      (match generateMockPostHogData 5 randomHalf startEx endEx with
       | Some data => data
       | None => []
       end)
  = consecutive (isoDay startEx) (dayCount startEx endEx).
Proof.
  refine (proj1 (mock_dates_match_the_ledger 5 5 randomHalf envEx apiSample
                   startEx endEx _ (seriesOf runEx) (traceOf runEx) _)).
  vm_compute. reflexivity.
Defined.

Section MockDomains.
Variable random : Rng.
Hypothesis random_range : forall n, (0 <= random n)%Q /\ (random n < 1)%Q.

(** a draw never takes all of what remains *)
Lemma draw_leaves_some (remaining : Z) (n : nat) :
  0 < remaining ->
  0 <= Qfloor (random n * (inject_Z remaining / 2)) < remaining.
Proof.
  intros Hrem. destruct (random_range n) as [H0 H1].
  destruct (draw_bounds random random_range remaining n ltac:(lia))
    as [Hlow _].
  split; [assumption|].
  rewrite Zlt_Qlt. eapply Qle_lt_trans; [apply Qfloor_le|].
  assert (Hpos : (0 < inject_Z remaining)%Q)
    by (change 0%Q with (inject_Z 0); now rewrite <- Zlt_Qlt).
  assert (Hhalf : (inject_Z remaining / 2 == inject_Z remaining * (1 # 2))%Q)
    by (unfold Qdiv; reflexivity).
  assert (Hx : (0 <= inject_Z remaining / 2)%Q) by (rewrite Hhalf; lra).
  assert (Hmul : (random n * (inject_Z remaining / 2)
                  <= 1 * (inject_Z remaining / 2))%Q)
    by (apply Qmult_le_compat_r; [now apply Qlt_le_weak | assumption]).
  rewrite Hhalf in Hmul |- *. lra.
Qed.

Lemma domains_fold_positive ds : forall st : DomainState,
  NoDup ds -> (forall d, In d ds -> ~ In d (obj_keys (fst (fst st)))) ->
  0 < snd (fst st) ->
  Forall (fun c => 0 <= c) (obj_values (fst (fst st))) ->
  0 < snd (fst (fold_left (domainStep random) ds st))
  /\ Forall (fun c => 0 <= c)
            (obj_values (fst (fst (fold_left (domainStep random) ds st))))
  /\ obj_keys (fst (fst (fold_left (domainStep random) ds st)))
     = obj_keys (fst (fst st)) ++ ds.
Proof.
  induction ds as [|d ds IH]; intros st Hnd Hfresh Hrem Hvals.
  - simpl. rewrite app_nil_r. auto.
  - inversion Hnd as [|? ? Hd Hnd']; subst.
    cbn [fold_left].
    destruct (domainStep_fresh random st d (Hfresh d (or_introl eq_refl)))
      as [Ho Hr].
    pose proof (draw_leaves_some (snd (fst st)) (snd st) Hrem) as Hc.
    set (count := Qfloor (random (snd st) * (inject_Z (snd (fst st)) / 2)))
      in *.
    destruct (IH (domainStep random st d) Hnd') as [Hrem' [Hvals' Hkeys]].
    + intros d' Hd'. rewrite Ho. unfold obj_keys.
      rewrite map_app, in_app_iff. simpl.
      intros [Hin|[<-|[]]].
      * apply (Hfresh d'); [now right | assumption].
      * contradiction.
    + rewrite Hr. lia.
    + rewrite Ho. unfold obj_values. rewrite map_app.
      apply Forall_app. split; [assumption|].
      constructor; [simpl; lia | constructor].
    + split; [assumption|]. split; [assumption|].
      rewrite Hkeys, Ho. unfold obj_keys. rewrite map_app, <- app_assoc.
      reflexivity.
Qed.

Lemma countOf_app_fresh (o : JsObject string Z) (k : string) (v : Z) :
  ~ In k (obj_keys o) -> countOf (o ++ [(k, v)]) k = v.
Proof.
  unfold countOf, obj_keys. induction o as [|[k' v'] o IH]; simpl.
  - now rewrite String.eqb_refl.
  - intros Hnotin. destruct (String.eqb_spec k' k) as [->|Hne]; [tauto|].
    apply IH. tauto.
Qed.

Lemma mockDay_domains n currentDate :
  mockDomainsOk (fst (mockDay random n currentDate)).
Proof.
  unfold mockDay.
  set (visitors := 500 + Qfloor (random n * 500)).
  assert (Hv : 0 < visitors).
  { subst visitors. destruct (random_range n) as [H0 H1].
    assert (0 <= Qfloor (random n * 500)).
    { change 0 with (Qfloor 0). apply Qfloor_resp_le.
      apply Qmult_le_0_compat; [assumption | discriminate]. }
    lia. }
  assert (Hnd : NoDup domains).
  { unfold domains. repeat constructor; simpl; intuition discriminate. }
  destruct (domains_fold_positive domains ([], visitors, S n) Hnd
              (fun d _ (H : In d []) => H) Hv (Forall_nil _))
    as [Hrem [Hvals Hkeys]].
  destruct (fold_left (domainStep random) domains ([], visitors, S n))
    as [[o remaining] n'] eqn:Hfold.
  cbn [fst snd] in Hrem, Hvals, Hkeys.
  assert (Hkeys' : obj_keys o = domains) by (rewrite Hkeys; reflexivity).
  assert (Hfresh : ~ In "other"%string (obj_keys o)).
  { rewrite Hkeys'. simpl. intuition discriminate. }
  unfold mockDomainsOk. cbn [fst PH.referringDomains].
  destruct (Z.ltb_spec 0 remaining) as [_|]; [|lia].
  rewrite obj_set_fresh by assumption.
  split; [|split].
  - unfold obj_keys in *. rewrite map_app, Hkeys'. reflexivity.
  - unfold obj_values in *. rewrite map_app. apply Forall_app.
    split; [assumption|]. constructor; [simpl; lia | constructor].
  - rewrite countOf_app_fresh by assumption. assumption.
Qed.

Lemma generateMockLoop_domains endDate fuel : forall n cur acc data,
  Forall mockDomainsOk acc ->
  generateMockLoop fuel random n cur endDate acc = Some data ->
  Forall mockDomainsOk data.
Proof.
  induction fuel as [|fuel IH]; intros n cur acc data Hacc Hrun;
    cbn [generateMockLoop] in Hrun; destruct (cur <=? endDate);
    try discriminate;
    try (injection Hrun as <-; assumption).
  pose proof (mockDay_domains n cur) as Hday.
  destruct (mockDay random n cur) as [r n'].
  simpl in Hday. apply IH in Hrun; [assumption|].
  apply Forall_app. split; [assumption|].
  constructor; [assumption | constructor].
Qed.
End MockDomains.

(** X13. For draws in [0, 1), every mock record lists exactly the five
    fixed domains followed by [other], in that order; no count is negative
    and the [other] count is positive, so the [remainingVisitors > 0] guard
    always holds and [other] is never left out. *)
Theorem mock_domains_always_include_other (random : Rng) (fuel : nat)
  (startDate endDate : Z) (data : list PH.t) :
  (forall n, (0 <= random n)%Q /\ (random n < 1)%Q) ->
  generateMockPostHogData fuel random startDate endDate = Some data ->
  forall r, In r data ->
    obj_keys (PH.referringDomains r) = domains ++ ["other"%string]
    /\ Forall (fun c => 0 <= c) (obj_values (PH.referringDomains r))
    /\ 0 < countOf (PH.referringDomains r) "other".
Proof.
  intros Hrange Hrun r Hr. unfold generateMockPostHogData in Hrun.
  apply (generateMockLoop_domains random Hrange endDate) in Hrun;
    [|constructor].
  rewrite Forall_forall in Hrun. exact (Hrun r Hr).
Qed.

Lemma randomHalf_range :
  forall n, (0 <= randomHalf n)%Q /\ (randomHalf n < 1)%Q.
Proof. intros n. unfold randomHalf. split; [discriminate | reflexivity]. Qed.

Lemma mock_domains_always_include_other_witness :
  Forall (fun r =>
            obj_keys (PH.referringDomains r) = domains ++ ["other"%string]
            /\ Forall (fun c => 0 <= c) (obj_values (PH.referringDomains r))
            /\ 0 < countOf (PH.referringDomains r) "other")
    (match generateMockPostHogData 5 randomHalf startEx endEx with
     | Some data => data
     | None => []
     end).
Proof.
  apply Forall_forall.
  apply (mock_domains_always_include_other randomHalf 5 startEx endEx).
  - exact randomHalf_range.
  - vm_compute. reflexivity.
Defined.

(* ================================================================== *)
(** * Further properties of the chart: rates, toggles, tooltip *)
(* ================================================================== *)

(** a name on the prototype chain is none of the record's own properties *)
Lemma getField_inherited (it : DD.t) (name : string) :
  In name inheritedNames -> getField it name = VInherited.
Proof.
  unfold inheritedNames. simpl.
  intros H. repeat (destruct H as [<-|H]; [reflexivity|]). contradiction.
Qed.

(** X14. The custom rate of a processed record is a finite number exactly
    when the value of the denominator property is falsy (no such property,
    own or inherited, or the number 0) or both properties are numeric fields
    of the record; in every other case it is NaN: a numerator that is absent,
    or [date], [referringDomains] or a name inherited from
    [Object.prototype] (such as [toString]) on either side over a truthy
    denominator.  In particular an inherited name as denominator always
    gives NaN. *)
Theorem custom_rate_finite_iff (customConfig : CustomConfig) (it : DD.t) :
  let num := getField it (numerator customConfig) in
  let den := getField it (denominator customConfig) in
  (isFinite (customRate (processItem customConfig it)) = true
   <-> truthy den = false
       \/ exists x y, num = VNum (Fin x) /\ den = VNum (Fin y))
  /\ (isFinite (customRate (processItem customConfig it)) = false ->
      customRate (processItem customConfig it) = NaN)
  /\ (In (denominator customConfig) inheritedNames ->
      customRate (processItem customConfig it) = NaN).
Proof.
  cbv zeta. cbn [processItem customRate].
  set (num := getField it (numerator customConfig)).
  set (den := getField it (denominator customConfig)).
  assert (Hobj : forall d, truthy d = true -> toNumber d = NaN ->
                           strictEqZero d = false ->
                           calculateRate num d = NaN).
  { intros d Ht Hn Hz. unfold calculateRate. rewrite Ht, Hz, Hn. simpl.
    destruct (toNumber num); reflexivity. }
  assert (Hlast : In (denominator customConfig) inheritedNames ->
                  calculateRate num den = NaN).
  { intros Hin. subst den. rewrite (getField_inherited it _ Hin).
    now apply Hobj. }
  split; [|split; [|exact Hlast]]; revert Hlast; intros _.
  - destruct (getField_shape it (denominator customConfig))
      as [Hd|[[y Hd]|[[dd Hd]|[Hd|Hd]]]]; fold den in Hd; rewrite Hd.
    + split; [intros _; now left | reflexivity].
    + unfold calculateRate. simpl truthy. simpl strictEqZero.
      destruct (Qeq_bool y 0) eqn:Hy; simpl negb; simpl orb.
      * split; [intros _; now left | reflexivity].
      * assert (Hy' : ~ (y == 0)%Q)
          by (intros H; apply Qeq_bool_iff in H; congruence).
        pose proof (sgn_nonzero y Hy') as Hs.
        destruct (getField_shape it (numerator customConfig))
          as [Hn|[[x Hn]|[[dn Hn]|[Hn|Hn]]]]; fold num in Hn; rewrite Hn;
          simpl toNumber;
          try (split; [discriminate|];
               intros [H|[x' [y' [H _]]]]; discriminate).
        simpl jsDiv. destruct (sgn y); [contradiction| |]; simpl;
          (split; [intros _; right; eauto | reflexivity]).
    + rewrite (Hobj (VDateText dd) eq_refl eq_refl eq_refl).
      split; [discriminate|]. intros [H|[x' [y' [_ H]]]]; discriminate.
    + rewrite (Hobj VObject eq_refl eq_refl eq_refl).
      split; [discriminate|]. intros [H|[x' [y' [_ H]]]]; discriminate.
    + rewrite (Hobj VInherited eq_refl eq_refl eq_refl).
      split; [discriminate|]. intros [H|[x' [y' [_ H]]]]; discriminate.
  - destruct (getField_shape it (denominator customConfig))
      as [Hd|[[y Hd]|[[dd Hd]|[Hd|Hd]]]]; fold den in Hd; rewrite Hd;
      try (intros _; apply Hobj; reflexivity).
    + discriminate.
    + unfold calculateRate. simpl truthy. simpl strictEqZero.
      destruct (Qeq_bool y 0) eqn:Hy; simpl negb; simpl orb;
        [discriminate|].
      assert (Hy' : ~ (y == 0)%Q)
        by (intros H; apply Qeq_bool_iff in H; congruence).
      pose proof (sgn_nonzero y Hy') as Hs.
      destruct (getField_shape it (numerator customConfig))
        as [Hn|[[x Hn]|[[dn Hn]|[Hn|Hn]]]]; fold num in Hn; rewrite Hn;
        simpl toNumber; try reflexivity.
      simpl jsDiv. destruct (sgn y); [contradiction| |]; simpl;
        discriminate.
Qed.

(** With [toString] as denominator the record has no such field of its
    own, and the rate is NaN, not 0. *)
Lemma custom_rate_finite_iff_witness :
  customRate (processItem {| numerator := "visitors";
                             denominator := "toString" |} itemEx) = NaN.
Proof.
  apply (proj2 (proj2 (custom_rate_finite_iff
                         {| numerator := "visitors";
                            denominator := "toString" |} itemEx))).
  simpl. tauto.
Defined.

(** *** Toggles *)

Lemma Metric_eqb_eq (a b : Metric.t) : Metric.eqb a b = true <-> a = b.
Proof.
  unfold Metric.eqb. rewrite Nat.eqb_eq. split; [|now intros ->].
  destruct a, b; simpl; intros H; first [reflexivity | discriminate].
Qed.

Lemma includesMetric_In (l : list Metric.t) (m : Metric.t) :
  includesMetric l m = true <-> In m l.
Proof.
  unfold includesMetric. rewrite existsb_exists. split.
  - intros [x [Hx Heq]]. apply Metric_eqb_eq in Heq. now subst.
  - intros H. exists m. split; [assumption | now apply Metric_eqb_eq].
Qed.

Lemma toggleMetric_In (l : list Metric.t) (m k : Metric.t) :
  In k (toggleMetric l m) <-> (k = m /\ ~ In m l) \/ (k <> m /\ In k l).
Proof.
  unfold toggleMetric.
  destruct (includesMetric l m) eqn:Hinc.
  - apply includesMetric_In in Hinc. rewrite filter_In, negb_true_iff.
    split.
    + intros [Hk Hne]. right. split; [|assumption].
      intros ->. now rewrite (proj2 (Metric_eqb_eq m m) eq_refl) in Hne.
    + intros [[-> Hnot]|[Hne Hk]]; [contradiction|]. split; [assumption|].
      destruct (Metric.eqb k m) eqn:E; [|reflexivity].
      apply Metric_eqb_eq in E. contradiction.
  - assert (Hnot : ~ In m l).
    { intros H. apply includesMetric_In in H. congruence. }
    rewrite in_app_iff. simpl. split.
    + intros [Hk|[<-|[]]].
      * right. split; [|assumption]. intros ->. contradiction.
      * left. auto.
    + intros [[-> _]|[_ Hk]]; auto.
Qed.

(** X15. Toggling a metric flips whether it is active and changes nothing
    else: afterwards the metric is active iff it was not, every other metric
    is active iff it was, a list without repeats stays without repeats, and
    toggling the same metric twice restores the set of active metrics. *)
Theorem toggleMetric_flips_one_metric (activeMetrics : list Metric.t)
  (metric : Metric.t) :
  (In metric (toggleMetric activeMetrics metric) <-> ~ In metric activeMetrics)
  /\ (forall k, k <> metric ->
        (In k (toggleMetric activeMetrics metric) <-> In k activeMetrics))
  /\ (NoDup activeMetrics -> NoDup (toggleMetric activeMetrics metric))
  /\ (forall k, In k (toggleMetric (toggleMetric activeMetrics metric) metric)
                <-> In k activeMetrics).
Proof.
  split; [|split; [|split]].
  - rewrite toggleMetric_In. tauto.
  - intros k Hk. rewrite toggleMetric_In. tauto.
  - intros Hnd. unfold toggleMetric.
    destruct (includesMetric activeMetrics metric) eqn:Hinc.
    + now apply NoDup_filter.
    + apply NoDup_app; [assumption | repeat constructor; intros [] |].
      intros x Hx [<-|[]]. apply includesMetric_In in Hx. congruence.
  - intros k. rewrite !toggleMetric_In.
    assert (Hk : k = metric \/ k <> metric).
    { destruct (Metric.eqb k metric) eqn:E.
      - left. now apply Metric_eqb_eq.
      - right. intros ->.
        rewrite (proj2 (Metric_eqb_eq metric metric) eq_refl) in E.
        discriminate. }
    assert (Hm : In metric activeMetrics \/ ~ In metric activeMetrics).
    { destruct (includesMetric activeMetrics metric) eqn:Hinc.
      - left. now apply includesMetric_In.
      - right. intros H. apply includesMetric_In in H. congruence. }
    destruct Hk as [->|Hk], Hm as [Hm|Hm]; tauto.
Qed.

Lemma toggleMetric_flips_one_metric_witness :
  NoDup (toggleMetric [Metric.revenue; Metric.visitors] Metric.revenue)
  /\ toggleMetric [Metric.revenue; Metric.visitors] Metric.revenue
     = [Metric.visitors].
Proof.
  split; [|reflexivity].
  apply (proj1 (proj2 (proj2 (toggleMetric_flips_one_metric
                                [Metric.revenue; Metric.visitors]
                                Metric.revenue)))).
  repeat constructor; simpl; intuition discriminate.
Defined.

(** *** Tooltip *)

Lemma insertByCount_perm e l : Permutation (e :: l) (insertByCount e l).
Proof.
  induction l as [|x l IH]; simpl; [reflexivity|].
  destruct (snd x <? snd e); [reflexivity|].
  rewrite perm_swap. now constructor.
Qed.

Lemma sortByCount_perm_acc l : forall acc,
  Permutation (acc ++ l) (fold_left (fun a e => insertByCount e a) l acc).
Proof.
  induction l as [|e l IH]; intros acc; simpl.
  - now rewrite app_nil_r.
  - rewrite <- IH. rewrite <- insertByCount_perm.
    symmetry. apply Permutation_middle.
Qed.

Lemma insertByCount_sorted e l :
  StronglySorted byCountDesc l -> StronglySorted byCountDesc (insertByCount e l).
Proof.
  induction 1 as [|x l Hs IH Hall]; simpl; [repeat constructor|].
  destruct (Z.ltb_spec (snd x) (snd e)) as [Hlt|Hge].
  - constructor; [now constructor|].
    constructor; [unfold byCountDesc; lia|].
    revert Hall. apply Forall_impl. unfold byCountDesc. intros; lia.
  - constructor; [assumption|].
    apply Forall_forall. intros y Hy.
    apply (Permutation_in _ (Permutation_sym (insertByCount_perm e l))) in Hy.
    destruct Hy as [<-|Hy]; [unfold byCountDesc; lia|].
    rewrite Forall_forall in Hall. now apply Hall.
Qed.

Lemma sortByCount_sorted_acc l : forall acc,
  StronglySorted byCountDesc acc ->
  StronglySorted byCountDesc (fold_left (fun a e => insertByCount e a) l acc).
Proof.
  induction l as [|e l IH]; intros acc Hacc; simpl; [assumption|].
  apply IH. now apply insertByCount_sorted.
Qed.

(** X16. The tooltip lists the largest referring domains: the shown and the
    left-out entries together are the entries of the object, at most five
    are shown (all of them when there are five or fewer), the shown ones come
    in descending order of count, and no left-out entry has a larger count
    than a shown one. *)
Theorem tooltip_shows_the_largest_domains (referringDomains : JsObject string Z) :
  Permutation referringDomains
    (topDomains referringDomains ++ hiddenDomains referringDomains)
  /\ List.length (topDomains referringDomains)
     = Nat.min 5 (List.length referringDomains)
  /\ StronglySorted byCountDesc (topDomains referringDomains)
  /\ (forall a b, In a (topDomains referringDomains) ->
                  In b (hiddenDomains referringDomains) -> snd b <= snd a).
Proof.
  unfold topDomains, hiddenDomains.
  assert (Hperm : Permutation referringDomains (sortByCount referringDomains))
    by (apply (sortByCount_perm_acc referringDomains [])).
  assert (Hsorted : StronglySorted byCountDesc (sortByCount referringDomains))
    by (apply sortByCount_sorted_acc; constructor).
  rewrite <- (firstn_skipn 5 (sortByCount referringDomains)) in Hsorted.
  destruct (StronglySorted_app_inv _ _ _ Hsorted) as [_ Hcross].
  split; [now rewrite firstn_skipn|]. split; [|split].
  - rewrite length_firstn. now rewrite (Permutation_length Hperm).
  - clear Hcross. revert Hsorted.
    generalize (firstn 5 (sortByCount referringDomains)) as l1.
    generalize (skipn 5 (sortByCount referringDomains)) as l2.
    intros l2 l1. induction l1 as [|x l1 IH]; simpl; intros Hs;
      [constructor|].
    inversion Hs as [|? ? Hs' Hall]; subst.
    constructor; [now apply IH|].
    apply Forall_app in Hall. tauto.
  - intros a b Ha Hb. exact (Hcross a b Ha Hb).
Qed.

(* ================================================================== *)
(** * The analytics series fetcher *)
(* ================================================================== *)

Lemma fillEvents_ok series : forall index results,
  (index + List.length series <= 4)%nat ->
  exists results', fillEvents series index results = Ok results'.
Proof.
  induction series as [|s series IH]; intros index results Hlen; simpl.
  - eauto.
  - simpl in Hlen.
    destruct (nth_error events index) as [m|] eqn:Hnth.
    + apply IH. lia.
    + apply nth_error_None in Hnth. simpl in Hnth. lia.
Qed.

Lemma fillEvents_throw series : forall index results,
  (index <= 4)%nat -> (4 < index + List.length series)%nat ->
  exists message, fillEvents series index results = Throw message.
Proof.
  induction series as [|s series IH]; intros index results Hidx Hlen;
    simpl in *; [lia|].
  destruct (nth_error events index) as [m|] eqn:Hnth; [|eauto].
  assert (Hlt : (index < List.length events)%nat)
    by (apply nth_error_Some; congruence).
  simpl in Hlt. apply IH; lia.
Qed.

(** X17. The fetcher answers with the mock series of the range whenever a
    credential is missing, the trend reply is not a parsed body with a
    result list of at most four series (network failure, non-OK status,
    unreadable body, absent [result], or a fifth series, whose event name is
    read past the end of [events]), or the breakdown request fails at the
    network or body level. *)
Theorem posthog_falls_back_to_mock (fuel : nat) (env : PostHogEnv)
  (trend domain : HttpReply) (random : Rng) (startDate endDate : Z) :
  missing (POSTHOG_API_KEY env) = true
  \/ missing (POSTHOG_PROJECT_ID env) = true
  \/ ~ trendUsable trend
  \/ domainFatal domain ->
  fetchPostHogData fuel env trend domain random startDate endDate
  = generateMockPostHogData fuel random startDate endDate.
Proof.
  intros Hcase. unfold fetchPostHogData.
  destruct (missing (POSTHOG_API_KEY env)) eqn:Hkey; [reflexivity|].
  destruct (missing (POSTHOG_PROJECT_ID env)) eqn:Hproj; [reflexivity|].
  cbn [orb].
  destruct Hcase as [H|[H|[Htrend|Hdom]]]; try discriminate.
  - destruct trend as [m|s|m|[series|]]; try reflexivity.
    + destruct domain as [m|s|m|r]; try reflexivity.
      * destruct (Nat.le_gt_cases (List.length series) 4) as [Hle|Hgt].
        -- exfalso. apply Htrend. exists series. auto.
        -- destruct (fillEvents_throw series 0
                       (initResults (Some series)) ltac:(lia) ltac:(lia))
             as [msg Hthrow].
           unfold postHogTry. cbv zeta. now rewrite Hthrow.
      * destruct (Nat.le_gt_cases (List.length series) 4) as [Hle|Hgt].
        -- exfalso. apply Htrend. exists series. auto.
        -- destruct (fillEvents_throw series 0
                       (initResults (Some series)) ltac:(lia) ltac:(lia))
             as [msg Hthrow].
           unfold postHogTry. cbv zeta. now rewrite Hthrow.
    + destruct domain; reflexivity.
  - destruct trend as [m|s|m|r]; try reflexivity.
    destruct Hdom as [[m ->]|[m ->]]; reflexivity.
Qed.

Lemma posthog_falls_back_to_mock_witness :
  fetchPostHogData 5 postHogEnvEx fiveSeries domainEx randomHalf startEx endEx
  = generateMockPostHogData 5 randomHalf startEx endEx.
Proof.
  apply posthog_falls_back_to_mock.
  right. right. left. intros [series [Heq Hlen]].
  injection Heq as <-. simpl in Hlen. lia.
Defined.

(** *** The results dictionary *)

Section ObjSetFacts.
Variable V : Type.
Implicit Types (o : JsObject Z V) (k : Z) (v : V).

Lemma obj_set_keys o k v :
  obj_keys (obj_set Z.eqb o k v)
  = if existsb (Z.eqb k) (obj_keys o) then obj_keys o else obj_keys o ++ [k].
Proof.
  unfold obj_keys. induction o as [|[k' v'] o IH]; simpl; [reflexivity|].
  rewrite (Z.eqb_sym k k').
  destruct (Z.eqb_spec k' k) as [->|Hne]; simpl; [reflexivity|].
  rewrite IH. now destruct (existsb (Z.eqb k) (map fst o)).
Qed.

Lemma obj_set_keys_In o k v k' :
  In k' (obj_keys (obj_set Z.eqb o k v)) <-> k' = k \/ In k' (obj_keys o).
Proof.
  rewrite obj_set_keys.
  destruct (existsb (Z.eqb k) (obj_keys o)) eqn:E.
  - apply existsb_exists in E. destruct E as [x [Hx Heq]].
    apply Z.eqb_eq in Heq. subst x. split; [auto|].
    intros [->|H]; assumption.
  - rewrite in_app_iff. simpl. intuition.
Qed.

Lemma obj_set_NoDup o k v :
  NoDup (obj_keys o) -> NoDup (obj_keys (obj_set Z.eqb o k v)).
Proof.
  intros Hnd. rewrite obj_set_keys.
  destruct (existsb (Z.eqb k) (obj_keys o)) eqn:E; [assumption|].
  apply NoDup_app; [assumption | repeat constructor; intros [] |].
  intros x Hx [Hk|[]]. subst x.
  assert (existsb (Z.eqb k) (obj_keys o) = true)
    by (apply existsb_exists; exists k; split;
        [assumption | apply Z.eqb_refl]).
  congruence.
Qed.

Lemma obj_set_Forall (P : Z * V -> Prop) o k v :
  Forall P o -> P (k, v) -> Forall P (obj_set Z.eqb o k v).
Proof.
  intros Hall Hkv. induction Hall as [|[k' v'] o Hx Hall IH]; simpl.
  - now constructor.
  - destruct (Z.eqb_spec k' k) as [->|Hne]; constructor; assumption.
Qed.

Lemma obj_set_map_same {W} (f : V -> W) o k v r :
  obj_get Z.eqb o k = Some r -> f v = f r ->
  map (fun e => (fst e, f (snd e))) (obj_set Z.eqb o k v)
  = map (fun e => (fst e, f (snd e))) o.
Proof.
  intros Hget Hf. induction o as [|[k' v'] o IH]; simpl in *; [discriminate|].
  destruct (Z.eqb_spec k' k) as [->|Hne]; simpl.
  - injection Hget as ->. now rewrite Hf.
  - now rewrite IH.
Qed.
End ObjSetFacts.

Arguments obj_set_keys {V}.
Arguments obj_set_keys_In {V}.
Arguments obj_set_NoDup {V}.
Arguments obj_set_Forall {V}.
Arguments obj_set_map_same {V W}.

Lemma initResults_facts (days : list DateKey) : forall acc : PostHogResults,
  NoDup (obj_keys acc) -> keyedByDate acc ->
  Forall (fun e => PH.referringDomains (snd e) = []) acc ->
  let res := fold_left
               (fun results day => obj_set Z.eqb results day (zeroRecord day))
               days acc in
  NoDup (obj_keys res) /\ keyedByDate res
  /\ Forall (fun e => PH.referringDomains (snd e) = []) res
  /\ forall d, In d (obj_keys res) <-> In d (obj_keys acc) \/ In d days.
Proof.
  induction days as [|day days IH]; intros acc Hnd Hkeyed Hempty; simpl.
  - repeat split; try assumption; simpl; tauto.
  - destruct (IH (obj_set Z.eqb acc day (zeroRecord day)))
      as [Hnd' [Hkeyed' [Hempty' Hin]]].
    + now apply obj_set_NoDup.
    + now apply obj_set_Forall.
    + now apply obj_set_Forall.
    + repeat split; try assumption.
      * intros H. apply Hin in H. rewrite obj_set_keys_In in H.
        simpl. intuition.
      * intros H. apply Hin. rewrite obj_set_keys_In.
        simpl in H. intuition.
Qed.

Section OverlayFacts.
Variable update : Z -> PH.t -> PH.t.
Hypothesis update_date : forall c r, PH.date (update c r) = PH.date r.

Lemma overlay_keys counts days : forall idx (res : PostHogResults),
  obj_keys (overlay update counts days idx res) = obj_keys res.
Proof.
  induction counts as [|c counts IH]; intros idx res; simpl; [reflexivity|].
  rewrite IH.
  destruct (nth_error days idx) as [date|]; [|reflexivity].
  destruct (obj_get Z.eqb res date) as [r|] eqn:Hget; [|reflexivity].
  apply obj_keys_set_present. congruence.
Qed.

Lemma overlay_Forall (P : Z * PH.t -> Prop) counts days :
  (forall k c r, P (k, r) -> P (k, update c r)) ->
  forall idx (res : PostHogResults),
    Forall P res -> Forall P (overlay update counts days idx res).
Proof.
  intros Hupd. induction counts as [|c counts IH]; intros idx res Hall;
    simpl; [assumption|].
  apply IH.
  destruct (nth_error days idx) as [date|]; [|assumption].
  destruct (obj_get Z.eqb res date) as [r|] eqn:Hget; [|assumption].
  apply obj_set_Forall; [assumption|].
  apply Hupd. apply obj_get_Some_In in Hget.
  rewrite Forall_forall in Hall. exact (Hall _ Hget).
Qed.

Lemma overlay_keyed counts days idx (res : PostHogResults) :
  keyedByDate res -> keyedByDate (overlay update counts days idx res).
Proof.
  apply overlay_Forall. intros k c r. simpl. now rewrite update_date.
Qed.

(** an overlay whose update leaves [f] alone leaves [f] of every record
    alone *)
Lemma overlay_frame {W} (f : PH.t -> W) counts days :
  (forall c r, f (update c r) = f r) ->
  forall idx (res : PostHogResults),
    map (fun e => (fst e, f (snd e))) (overlay update counts days idx res)
    = map (fun e => (fst e, f (snd e))) res.
Proof.
  intros Hf. induction counts as [|c counts IH]; intros idx res; simpl;
    [reflexivity|].
  rewrite IH.
  destruct (nth_error days idx) as [date|]; [|reflexivity].
  destruct (obj_get Z.eqb res date) as [r|] eqn:Hget; [|reflexivity].
  now apply obj_set_map_same with r.
Qed.
End OverlayFacts.

Lemma setMetric_date m c r : PH.date (setMetric m c r) = PH.date r.
Proof. now destruct m. Qed.

Lemma setMetric_domains m c r :
  PH.referringDomains (setMetric m c r) = PH.referringDomains r.
Proof. now destruct m. Qed.

Lemma fillEvents_facts series : forall index (res res' : PostHogResults),
  fillEvents series index res = Ok res' ->
  obj_keys res' = obj_keys res
  /\ (keyedByDate res -> keyedByDate res')
  /\ (Forall (fun e => PH.referringDomains (snd e) = []) res ->
      Forall (fun e => PH.referringDomains (snd e) = []) res').
Proof.
  induction series as [|s series IH]; intros index res res' Hrun;
    simpl in Hrun.
  - injection Hrun as <-. auto.
  - destruct (nth_error events index) as [m|]; [|discriminate].
    apply IH in Hrun. destruct Hrun as [Hkeys [Hkeyed Hempty]].
    split; [|split].
    + rewrite Hkeys. apply overlay_keys.
    + intros H. apply Hkeyed. apply overlay_keyed; [|assumption].
      intros; apply setMetric_date.
    + intros H. apply Hempty. apply overlay_Forall; [|assumption].
      intros k c r. simpl. now rewrite setMetric_domains.
Qed.

Lemma fillDomains_facts items : forall res : PostHogResults,
  obj_keys (fillDomains items res) = obj_keys res
  /\ (keyedByDate res -> keyedByDate (fillDomains items res))
  /\ map (fun e => (fst e, withoutDomains (snd e))) (fillDomains items res)
     = map (fun e => (fst e, withoutDomains (snd e))) res.
Proof.
  unfold fillDomains.
  induction items as [|item items IH]; intros res; simpl; [auto|].
  destruct (IH (overlay (setDomain (TS.label item)) (TS.data item)
                        (TS.days item) 0 res)) as [Hkeys [Hkeyed Hframe]].
  split; [|split].
  - rewrite Hkeys. apply overlay_keys.
  - intros H. apply Hkeyed. apply overlay_keyed; [reflexivity | assumption].
  - rewrite Hframe. apply overlay_frame. reflexivity.
Qed.

(** *** Sorting analytics records *)

Lemma insertByDatePH_perm r l : Permutation (r :: l) (insertByDatePH r l).
Proof.
  induction l as [|x l IH]; simpl; [reflexivity|].
  destruct (PH.date r <? PH.date x); [reflexivity|].
  rewrite perm_swap. now constructor.
Qed.

Lemma sortByDatePH_perm_acc l : forall acc,
  Permutation (acc ++ l) (fold_left (fun a r => insertByDatePH r a) l acc).
Proof.
  induction l as [|r l IH]; intros acc; simpl.
  - now rewrite app_nil_r.
  - rewrite <- IH, <- insertByDatePH_perm.
    symmetry. apply Permutation_middle.
Qed.

Lemma sortByDatePH_perm l : Permutation l (sortByDatePH l).
Proof. apply (sortByDatePH_perm_acc l []). Qed.

Lemma insertByDatePH_sorted r l :
  StronglySorted (fun a b => PH.date a <= PH.date b) l ->
  StronglySorted (fun a b => PH.date a <= PH.date b) (insertByDatePH r l).
Proof.
  induction 1 as [|x l Hs IH Hall]; simpl; [repeat constructor|].
  destruct (Z.ltb_spec (PH.date r) (PH.date x)) as [Hlt|Hge].
  - constructor; [now constructor|].
    constructor; [lia|]. revert Hall. apply Forall_impl. intros; lia.
  - constructor; [assumption|].
    apply Forall_forall. intros y Hy.
    apply (Permutation_in _ (Permutation_sym (insertByDatePH_perm r l))) in Hy.
    destruct Hy as [<-|Hy]; [lia|].
    rewrite Forall_forall in Hall. now apply Hall.
Qed.

Lemma sortByDatePH_sorted l :
  StronglySorted (fun a b => PH.date a <= PH.date b) (sortByDatePH l).
Proof.
  unfold sortByDatePH.
  assert (H : forall acc,
             StronglySorted (fun a b => PH.date a <= PH.date b) acc ->
             StronglySorted (fun a b => PH.date a <= PH.date b)
               (fold_left (fun a r => insertByDatePH r a) l acc)).
  { induction l as [|r l IH]; intros acc Hacc; simpl; [assumption|].
    apply IH. now apply insertByDatePH_sorted. }
  apply H. constructor.
Qed.

Lemma sorted_dates_strict (l : list PH.t) :
  StronglySorted (fun a b => PH.date a <= PH.date b) l ->
  NoDup (map PH.date l) ->
  StronglySorted Z.lt (map PH.date l).
Proof.
  induction 1 as [|x l Hs IH Hall]; simpl; intros Hnd; [constructor|].
  inversion Hnd as [|? ? Hnotin Hnd']; subst.
  constructor; [now apply IH|].
  rewrite Forall_map. rewrite Forall_forall in Hall |- *.
  intros y Hy. specialize (Hall y Hy).
  assert (PH.date y <> PH.date x)
    by (intros Heq; apply Hnotin; rewrite <- Heq; now apply in_map).
  lia.
Qed.

Lemma insertByDatePH_map (f : PH.t -> PH.t) r l :
  (forall x, PH.date (f x) = PH.date x) ->
  map f (insertByDatePH r l) = insertByDatePH (f r) (map f l).
Proof.
  intros Hf. induction l as [|x l IH]; simpl; [reflexivity|].
  rewrite !Hf. destruct (PH.date r <? PH.date x); simpl; [reflexivity|].
  now rewrite IH.
Qed.

Lemma sortByDatePH_map (f : PH.t -> PH.t) l :
  (forall x, PH.date (f x) = PH.date x) ->
  map f (sortByDatePH l) = sortByDatePH (map f l).
Proof.
  intros Hf. unfold sortByDatePH.
  assert (H : forall acc,
             map f (fold_left (fun a r => insertByDatePH r a) l acc)
             = fold_left (fun a r => insertByDatePH r a) (map f l)
                         (map f acc)).
  { induction l as [|r l IH]; intros acc; simpl; [reflexivity|].
    now rewrite IH, insertByDatePH_map. }
  apply (H []).
Qed.

(** *** The live path *)

Lemma initResults_ok (trendResult : option (list TS.t)) :
  NoDup (obj_keys (initResults trendResult))
  /\ keyedByDate (initResults trendResult)
  /\ Forall (fun e => PH.referringDomains (snd e) = [])
            (initResults trendResult)
  /\ forall d, In d (obj_keys (initResults trendResult))
               <-> In d (dateAxis (Json trendResult)).
Proof.
  unfold initResults, dateAxis.
  destruct trendResult as [[|first rest]|];
    try (repeat split; try constructor; simpl; tauto).
  destruct (initResults_facts (TS.days first) [] (NoDup_nil _)
              (Forall_nil _) (Forall_nil _)) as [Hnd [Hkeyed [Hempty Hin]]].
  repeat split; try assumption.
  - intros H. apply Hin in H. simpl in H. tauto.
  - intros H. apply Hin. now right.
Qed.

Lemma postHogTry_live (series : list TS.t) (domain : HttpReply) :
  (List.length series <= 4)%nat -> ~ domainFatal domain ->
  exists res1,
    fillEvents series 0 (initResults (Some series)) = Ok res1
    /\ postHogTry (Json (Some series)) domain
       = Ok (sortByDatePH (obj_values (fillDomains (domainItems domain) res1))).
Proof.
  intros Hlen Hdom.
  destruct (fillEvents_ok series 0 (initResults (Some series)) ltac:(lia))
    as [res1 Hfill].
  exists res1. split; [assumption|].
  unfold postHogTry. cbv zeta. rewrite Hfill.
  destruct domain as [m|s|m|[items|]]; try reflexivity;
    exfalso; apply Hdom; [left | right]; eauto.
Qed.

Lemma values_dates (res : PostHogResults) :
  keyedByDate res -> map PH.date (obj_values res) = obj_keys res.
Proof.
  unfold keyedByDate, obj_values, obj_keys. rewrite map_map.
  induction 1 as [|e res He Hall IH]; simpl; [reflexivity|].
  now rewrite He, IH.
Qed.

Lemma live_results_facts (series : list TS.t) (domain : HttpReply) res1 :
  fillEvents series 0 (initResults (Some series)) = Ok res1 ->
  let res2 := fillDomains (domainItems domain) res1 in
  NoDup (obj_keys res2) /\ keyedByDate res2
  /\ (forall d, In d (obj_keys res2) <-> In d (dateAxis (Json (Some series))))
  /\ Forall (fun e => PH.referringDomains (snd e) = []) res1
  /\ map (fun e => (fst e, withoutDomains (snd e))) res2
     = map (fun e => (fst e, withoutDomains (snd e))) res1.
Proof.
  intros Hfill res2.
  destruct (initResults_ok (Some series)) as [Hnd [Hkeyed [Hempty Hin]]].
  destruct (fillEvents_facts _ _ _ _ Hfill) as [Hk1 [Hkeyed1 Hempty1]].
  destruct (fillDomains_facts (domainItems domain) res1)
    as [Hk2 [Hkeyed2 Hframe]].
  subst res2. rewrite Hk2, Hk1. repeat split; auto.
  - apply Hin.
  - apply Hin.
Qed.

(** X18. With both credentials, a trend reply of at most four series and a
    breakdown reply that is an HTTP error or a parsed body, the fetcher
    returns the provider's data (whatever the budget and the random draws):
    one record per distinct day on the date axis of the first trend series,
    in strictly ascending date order. *)
Theorem posthog_live_series_shape (fuel : nat) (env : PostHogEnv)
  (trend domain : HttpReply) (random : Rng) (startDate endDate : Z) :
  missing (POSTHOG_API_KEY env) = false ->
  missing (POSTHOG_PROJECT_ID env) = false ->
  trendUsable trend -> ~ domainFatal domain ->
  exists out,
    fetchPostHogData fuel env trend domain random startDate endDate = Some out
    /\ StronglySorted Z.lt (map PH.date out)
    /\ forall d, In d (map PH.date out) <-> In d (dateAxis trend).
Proof.
  intros Hkey Hproj [series [-> Hlen]] Hdom.
  destruct (postHogTry_live series domain Hlen Hdom) as [res1 [Hfill Htry]].
  destruct (live_results_facts series domain res1 Hfill)
    as [Hnd [Hkeyed [Hin _]]].
  unfold fetchPostHogData. rewrite Hkey, Hproj, Htry. cbn [orb].
  eexists. split; [reflexivity|].
  set (res2 := fillDomains (domainItems domain) res1) in *.
  assert (Hperm : Permutation (map PH.date (obj_values res2))
                              (map PH.date (sortByDatePH (obj_values res2))))
    by (apply Permutation_map, sortByDatePH_perm).
  rewrite (values_dates res2 Hkeyed) in Hperm.
  split.
  - apply sorted_dates_strict; [apply sortByDatePH_sorted|].
    now apply (Permutation_NoDup Hperm).
  - intros d. rewrite <- Hin. split; intros H.
    + now apply (Permutation_in _ (Permutation_sym Hperm)).
    + now apply (Permutation_in _ Hperm).
Qed.

Lemma posthog_live_series_shape_witness :
  exists out,
    fetchPostHogData 0 postHogEnvEx trendEx domainEx randomHalf startEx endEx
    = Some out
    /\ StronglySorted Z.lt (map PH.date out)
    /\ forall d, In d (map PH.date out) <-> In d (dateAxis trendEx).
Proof.
  apply (posthog_live_series_shape 0 postHogEnvEx trendEx domainEx randomHalf
           startEx endEx); try reflexivity.
  - eexists. split; [reflexivity | simpl; lia].
  - intros [[m H]|[m H]]; discriminate.
Defined.

Lemma values_withoutDomains (res : PostHogResults) :
  map withoutDomains (obj_values res)
  = map snd (map (fun e => (fst e, withoutDomains (snd e))) res).
Proof. unfold obj_values. now rewrite !map_map. Qed.

Lemma withoutDomains_id (l : list PH.t) :
  Forall (fun r => PH.referringDomains r = []) l -> map withoutDomains l = l.
Proof.
  induction 1 as [|r l Hr Hall IH]; simpl; [reflexivity|].
  rewrite IH. f_equal. destruct r; simpl in *. now subst.
Qed.

(** X19. A breakdown request answered with an HTTP error is not fatal: the
    fetcher returns the series it returns for any parsed breakdown body,
    with every referringDomains object emptied and dates and counts
    untouched. *)
Theorem posthog_breakdown_error_only_empties_domains (fuel : nat)
  (env : PostHogEnv) (series : list TS.t) (statusText : string)
  (result : option (list TS.t)) (random : Rng) (startDate endDate : Z) :
  missing (POSTHOG_API_KEY env) = false ->
  missing (POSTHOG_PROJECT_ID env) = false ->
  (List.length series <= 4)%nat ->
  exists out out',
    fetchPostHogData fuel env (Json (Some series)) (HttpError statusText)
      random startDate endDate = Some out
    /\ fetchPostHogData fuel env (Json (Some series)) (Json result)
         random startDate endDate = Some out'
    /\ out = map withoutDomains out'
    /\ Forall (fun r => PH.referringDomains r = []) out.
Proof.
  intros Hkey Hproj Hlen.
  assert (Hd1 : ~ domainFatal (HttpError statusText))
    by (intros [[m H]|[m H]]; discriminate).
  assert (Hd2 : ~ domainFatal (Json result))
    by (intros [[m H]|[m H]]; discriminate).
  destruct (postHogTry_live series _ Hlen Hd1) as [res1 [Hfill Htry1]].
  destruct (postHogTry_live series _ Hlen Hd2) as [res1' [Hfill' Htry2]].
  rewrite Hfill in Hfill'. injection Hfill' as <-.
  destruct (live_results_facts series (Json result) res1 Hfill)
    as [_ [_ [_ [Hempty Hframe]]]].
  unfold fetchPostHogData. rewrite Hkey, Hproj, Htry1, Htry2. cbn [orb].
  eexists _, _. split; [reflexivity|]. split; [reflexivity|].
  assert (Hvals : Forall (fun r => PH.referringDomains r = [])
                         (obj_values res1)).
  { unfold obj_values. rewrite Forall_map. exact Hempty. }
  change (fillDomains (domainItems (HttpError statusText)) res1) with res1.
  split.
  - rewrite sortByDatePH_map by reflexivity.
    rewrite values_withoutDomains, Hframe, <- values_withoutDomains.
    now rewrite withoutDomains_id.
  - rewrite Forall_forall in Hvals |- *. intros r Hr. apply Hvals.
    now apply (Permutation_in _ (Permutation_sym (sortByDatePH_perm _))).
Qed.

Lemma posthog_breakdown_error_only_empties_domains_witness :
  exists out out',
    fetchPostHogData 0 postHogEnvEx trendEx (HttpError "500")
      randomHalf startEx endEx = Some out
    /\ fetchPostHogData 0 postHogEnvEx trendEx domainEx
         randomHalf startEx endEx = Some out'
    /\ out = map withoutDomains out'
    /\ Forall (fun r => PH.referringDomains r = []) out.
Proof.
  apply (posthog_breakdown_error_only_empties_domains 0 postHogEnvEx);
    [reflexivity | reflexivity | simpl; lia].
Defined.

(** *** Where the counts land *)

Lemma obj_get_map {V W} (f : V -> W) (o : JsObject Z V) (k : Z) :
  obj_get Z.eqb (map (fun e => (fst e, f (snd e))) o) k
  = option_map f (obj_get Z.eqb o k).
Proof.
  induction o as [|[k' v'] o IH]; simpl; [reflexivity|].
  destruct (k' =? k); [reflexivity | exact IH].
Qed.

Section OverlayGet.
Variable update : Z -> PH.t -> PH.t.

Lemma overlay_get_miss counts (days : list DateKey) :
  forall idx (res : PostHogResults) (d : DateKey),
  (forall j, (j < List.length counts)%nat ->
             nth_error days (idx + j) <> Some d) ->
  obj_get Z.eqb (overlay update counts days idx res) d = obj_get Z.eqb res d.
Proof.
  induction counts as [|c counts IH]; intros idx res d Hmiss; simpl;
    [reflexivity|].
  rewrite IH.
  - pose proof (Hmiss 0%nat ltac:(simpl; lia)) as H0.
    rewrite Nat.add_0_r in H0.
    destruct (nth_error days idx) as [date|]; [|reflexivity].
    destruct (obj_get Z.eqb res date) as [r|]; [|reflexivity].
    apply obj_get_set_other. congruence.
  - intros j Hj. rewrite Nat.add_succ_comm. apply Hmiss. simpl. lia.
Qed.

Lemma overlay_get_hit (days : list DateKey) :
  NoDup days ->
  forall counts idx (res : PostHogResults) (d : DateKey) r j c,
    obj_get Z.eqb res d = Some r ->
    nth_error counts j = Some c -> nth_error days (idx + j) = Some d ->
    obj_get Z.eqb (overlay update counts days idx res) d = Some (update c r).
Proof.
  intros Hnd.
  induction counts as [|c0 counts IH]; intros idx res d r j c Hget Hc Hd;
    [destruct j; discriminate|].
  cbn [overlay].
  destruct j as [|j].
  - rewrite Nat.add_0_r in Hd. injection Hc as ->.
    rewrite Hd, Hget. rewrite overlay_get_miss.
    + apply obj_get_set_same.
    + intros j Hj Hbad.
      assert (Hlt : (idx < List.length days)%nat)
        by (apply nth_error_Some; congruence).
      pose proof (proj1 (NoDup_nth_error days) Hnd idx (S idx + j)%nat Hlt
                    ltac:(congruence)).
      lia.
  - simpl in Hc. rewrite Nat.add_succ_r, <- Nat.add_succ_l in Hd.
    apply IH with (j := j); try assumption.
    destruct (nth_error days idx) as [date|] eqn:Hidx; [|assumption].
    destruct (obj_get Z.eqb res date) as [r0|] eqn:Hr0; [|assumption].
    rewrite obj_get_set_other; [assumption|].
    intros ->.
    assert (Hlt : (idx < List.length days)%nat)
      by (apply nth_error_Some; congruence).
    pose proof (proj1 (NoDup_nth_error days) Hnd idx (S idx + j)%nat Hlt
                  ltac:(congruence)).
    lia.
Qed.
End OverlayGet.

Lemma metricOf_setMetric_same m c r : metricOf m (setMetric m c r) = c.
Proof. now destruct m. Qed.

Lemma metricOf_setMetric_other m m' c r :
  m <> m' -> metricOf m (setMetric m' c r) = metricOf m r.
Proof. destruct m, m'; intros H; first [reflexivity | contradiction]. Qed.

Lemma metricAt_frame (m : FunnelMetric) (res res' : PostHogResults) :
  map (fun e => (fst e, metricOf m (snd e))) res'
  = map (fun e => (fst e, metricOf m (snd e))) res ->
  forall d : DateKey, metricAt m res' d = metricAt m res d.
Proof.
  intros Hmap d. unfold metricAt.
  etransitivity; [symmetry; apply (obj_get_map (metricOf m) res' d)|].
  etransitivity; [|apply (obj_get_map (metricOf m) res d)].
  exact (f_equal (fun o => obj_get Z.eqb o d) Hmap).
Qed.

Lemma events_distinct (a b : nat) (m : FunnelMetric) :
  nth_error events a = Some m -> nth_error events b = Some m -> a = b.
Proof.
  intros Ha Hb.
  assert (Hnd : NoDup events)
    by (unfold events; repeat constructor; simpl; intuition discriminate).
  apply (proj1 (NoDup_nth_error events) Hnd).
  - apply nth_error_Some. congruence.
  - congruence.
Qed.

(** series read under other event names leave the metric alone *)
Lemma fillEvents_frame (m : FunnelMetric) series :
  forall index (res res' : PostHogResults),
    fillEvents series index res = Ok res' ->
    (forall j m', (index <= j)%nat -> nth_error events j = Some m' ->
                  m' <> m) ->
    forall d : DateKey, metricAt m res' d = metricAt m res d.
Proof.
  induction series as [|s series IH]; intros index res res' Hrun Hother d;
    simpl in Hrun.
  - now injection Hrun as <-.
  - destruct (nth_error events index) as [m0|] eqn:Hm0; [|discriminate].
    rewrite (IH _ _ _ Hrun) by (intros j m' Hj; apply Hother; lia).
    apply metricAt_frame. apply overlay_frame.
    intros c r. apply metricOf_setMetric_other.
    intros ->. now apply (Hother index m0).
Qed.

Lemma fillEvents_metric series :
  forall index (res res' : PostHogResults),
    fillEvents series index res = Ok res' ->
    forall k s m (d : DateKey) i c,
      nth_error series k = Some s ->
      nth_error events (index + k) = Some m ->
      NoDup (TS.days s) ->
      obj_get Z.eqb res d <> None ->
      nth_error (TS.data s) i = Some c ->
      nth_error (TS.days s) i = Some d ->
      metricAt m res' d = Some c.
Proof.
  induction series as [|s0 series IH];
    intros index res res' Hrun k s m d i c Hs Hm Hnd Hget Hc Hd;
    [destruct k; discriminate|].
  simpl in Hrun.
  destruct (nth_error events index) as [m0|] eqn:Hm0; [|discriminate].
  destruct k as [|k].
  - simpl in Hs. injection Hs as ->. rewrite Nat.add_0_r in Hm.
    assert (m0 = m) by congruence. subst m0.
    rewrite (fillEvents_frame m _ _ _ _ Hrun).
    + destruct (obj_get Z.eqb res d) as [r|] eqn:Hr; [|congruence].
      unfold metricAt.
      rewrite (overlay_get_hit (setMetric m) (TS.days s) Hnd (TS.data s)
                 0 res d r i c Hr Hc Hd).
      simpl. now rewrite metricOf_setMetric_same.
    + intros j m' Hj Hm' ->.
      pose proof (events_distinct _ _ _ Hm0 Hm'). lia.
  - simpl in Hs. rewrite Nat.add_succ_r, <- Nat.add_succ_l in Hm.
    apply (IH _ _ _ Hrun k s m d i c Hs Hm Hnd); try assumption.
    rewrite obj_get_None_keys, overlay_keys, <- obj_get_None_keys.
    assumption.
Qed.

(** X20. On the live path each count lands on its own day under its own
    metric: when the k-th trend series lists a day of the date axis at
    position i (and lists no day twice), the record of that day holds the
    i-th count of that series as the k-th funnel metric (visitors,
    pricingViews, checkouts, purchases). *)
Theorem posthog_counts_land_on_their_day (fuel : nat) (env : PostHogEnv)
  (series : list TS.t) (domain : HttpReply) (random : Rng)
  (startDate endDate : Z) (k i : nat) (s : TS.t) (m : FunnelMetric)
  (d : DateKey) (c : Z) :
  missing (POSTHOG_API_KEY env) = false ->
  missing (POSTHOG_PROJECT_ID env) = false ->
  (List.length series <= 4)%nat -> ~ domainFatal domain ->
  nth_error series k = Some s -> nth_error events k = Some m ->
  NoDup (TS.days s) ->
  nth_error (TS.data s) i = Some c -> nth_error (TS.days s) i = Some d ->
  In d (dateAxis (Json (Some series))) ->
  exists out r,
    fetchPostHogData fuel env (Json (Some series)) domain random
      startDate endDate = Some out
    /\ In r out /\ PH.date r = d /\ metricOf m r = c.
Proof.
  intros Hkey Hproj Hlen Hdom Hs Hm Hnd Hc Hd Haxis.
  destruct (postHogTry_live series domain Hlen Hdom) as [res1 [Hfill Htry]].
  destruct (live_results_facts series domain res1 Hfill)
    as [_ [Hkeyed [_ [_ Hframe]]]].
  destruct (initResults_ok (Some series)) as [_ [_ [_ Hin0]]].
  assert (Hget0 : obj_get Z.eqb (initResults (Some series)) d <> None).
  { rewrite obj_get_None_keys. intros H. apply H. now apply Hin0. }
  pose proof (fillEvents_metric series 0 _ _ Hfill k s m d i c Hs Hm Hnd
                Hget0 Hc Hd) as Hmetric.
  set (res2 := fillDomains (domainItems domain) res1) in *.
  assert (Hmetric2 : metricAt m res2 d = Some c).
  { rewrite <- Hmetric. apply metricAt_frame.
    apply (f_equal (map (fun e : Z * PH.t =>
                           (fst e, metricOf m (snd e))))) in Hframe.
    rewrite !map_map in Hframe. simpl in Hframe.
    etransitivity; [|etransitivity; [exact Hframe|]];
      apply map_ext; intros [k0 r0]; destruct m; reflexivity. }
  unfold metricAt in Hmetric2.
  destruct (obj_get Z.eqb res2 d) as [r|] eqn:Hr; [|discriminate].
  injection Hmetric2 as Hmr.
  unfold fetchPostHogData. rewrite Hkey, Hproj, Htry. cbn [orb].
  exists (sortByDatePH (obj_values res2)), r. split; [reflexivity|].
  apply obj_get_Some_In in Hr.
  split; [|split; [|assumption]].
  - apply (Permutation_in _ (sortByDatePH_perm _)).
    unfold obj_values. change r with (snd (d, r)). now apply in_map.
  - unfold keyedByDate in Hkeyed. rewrite Forall_forall in Hkeyed.
    exact (Hkeyed _ Hr).
Qed.

Lemma posthog_counts_land_on_their_day_witness :
  exists out r,
    fetchPostHogData 0 postHogEnvEx trendEx domainEx randomHalf
      startEx endEx = Some out
    /\ In r out /\ PH.date r = 19787 /\ metricOf MPurchases r = 2.
Proof.
  apply (posthog_counts_land_on_their_day 0 postHogEnvEx _ domainEx
           randomHalf startEx endEx 3 1
           (TS.mk [1; 2] [19786; 19787] "purchase_thank_you")
           MPurchases 19787 2);
    [reflexivity | reflexivity | simpl; lia | | reflexivity | reflexivity
    | | reflexivity | reflexivity | simpl; auto].
  - intros [[x H]|[x H]]; discriminate.
  - simpl. constructor; [simpl; intuition discriminate|].
    constructor; [simpl; tauto | constructor].
Defined.

(* ================================================================== *)
(** * Further properties of the server action *)
(* ================================================================== *)

(** every range name other than [ytd], [all] and a [custom] with both
    bounds takes the [setDate(getDate() - n)] branch *)
Lemma selectRange_preset (c : Clock) (timeRange : string)
  (customStart customEnd : option Z) :
  isPreset timeRange customStart customEnd = true ->
  selectRange c timeRange customStart customEnd
  = (instSetDate (c 1%nat) (instGetDate (c 0%nat) - daysBack timeRange),
     c 0%nat).
Proof.
  unfold isPreset, selectRange, daysBack. intros H.
  apply andb_prop in H. destruct H as [H Hcustom].
  apply andb_prop in H. destruct H as [Hytd Hall].
  apply negb_true_iff in Hytd, Hall, Hcustom.
  rewrite Hytd, Hall.
  assert (Hchain :
    (if String.eqb timeRange "7d"
     then (instSetDate (c 1%nat) (instGetDate (c 0%nat) - 7), c 0%nat)
     else if String.eqb timeRange "14d"
     then (instSetDate (c 1%nat) (instGetDate (c 0%nat) - 14), c 0%nat)
     else if String.eqb timeRange "30d"
     then (instSetDate (c 1%nat) (instGetDate (c 0%nat) - 30), c 0%nat)
     else if String.eqb timeRange "90d"
     then (instSetDate (c 1%nat) (instGetDate (c 0%nat) - 90), c 0%nat)
     else (instSetDate (c 1%nat) (instGetDate (c 0%nat) - 30), c 0%nat))
    = (instSetDate (c 1%nat)
         (instGetDate (c 0%nat)
          - (if String.eqb timeRange "7d" then 7
             else if String.eqb timeRange "14d" then 14
             else if String.eqb timeRange "90d" then 90 else 30)),
       c 0%nat)).
  { destruct (String.eqb timeRange "7d"); [reflexivity|].
    destruct (String.eqb timeRange "14d"); [reflexivity|].
    destruct (String.eqb_spec timeRange "30d") as [->|_]; [reflexivity|].
    destruct (String.eqb timeRange "90d"); reflexivity. }
  destruct (String.eqb timeRange "custom").
  - destruct customStart as [s|]; [|exact Hchain].
    destruct customEnd as [e|]; [discriminate | exact Hchain].
  - exact Hchain.
Qed.

(** [b.setDate(a.getDate() - n)] with [a] and [b] on the same day moves
    [b] back by [n] whole days *)
Lemma instSetDate_same_day (a b n : Z) :
  isoDay a = isoDay b ->
  instSetDate b (instGetDate a - n) = b - n * MS_PER_DAY.
Proof.
  intros Hday. unfold instSetDate, instGetDate, setDate. rewrite Hday.
  unfold isoDay.
  pose proof (Z.div_mod b MS_PER_DAY ltac:(discriminate)) as Hb.
  set (q := b / MS_PER_DAY) in *. set (r := b mod MS_PER_DAY) in *.
  set (g := getDate q). lia.
Qed.

Lemma isoDay_back (ms n : Z) : isoDay (ms - n * MS_PER_DAY) = isoDay ms - n.
Proof.
  unfold isoDay. replace (ms - n * MS_PER_DAY) with (ms + (- n) * MS_PER_DAY)
    by lia.
  rewrite Z.div_add by discriminate. lia.
Qed.

(** the day loop from [n] days before a second reading to the first
    reading: [n + 1] rounds when the readings agree, [n] when the second is
    later *)
Lemma dayCount_back (first second : Z) (n : nat) :
  (1 <= n)%nat -> first <= second -> second - first < MS_PER_DAY ->
  dayCount (second - Z.of_nat n * MS_PER_DAY) first
  = if second =? first then S n else n.
Proof.
  intros Hn Hle Hlt. unfold dayCount.
  assert (HMS : MS_PER_DAY = 86400000) by reflexivity.
  destruct (Z.leb_spec (second - Z.of_nat n * MS_PER_DAY) first) as [_|]; [|lia].
  destruct (Z.eqb_spec second first) as [->|Hne].
  - replace (first - (first - Z.of_nat n * MS_PER_DAY))
      with (Z.of_nat n * MS_PER_DAY) by lia.
    rewrite Z.div_mul by discriminate. now rewrite Nat2Z.id.
  - replace (first - (second - Z.of_nat n * MS_PER_DAY))
      with ((MS_PER_DAY - (second - first)) + (Z.of_nat n - 1) * MS_PER_DAY)
      by lia.
    rewrite Z.div_add by discriminate.
    rewrite Z.div_small by lia.
    replace (0 + (Z.of_nat n - 1)) with (Z.of_nat (n - 1)) by lia.
    rewrite Nat2Z.id. lia.
Qed.

(** what a call that returns has done *)
Lemma getDashboardData_inv (fuel : nat) (w : World) (timeRange : string)
  (customStart customEnd : option Z) (data : list DD.t) :
  getDashboardData fuel w timeRange customStart customEnd = Some data ->
  exists lemonData tr postHogData,
    fetchLemonSqueezyData fuel (lemonEnv w) (lemonApi w)
      (fst (selectRange (clock w) timeRange customStart customEnd))
      (snd (selectRange (clock w) timeRange customStart customEnd)) []
    = Some (Ok lemonData, tr)
    /\ fetchPostHogData fuel (postHogEnv w) (trendReply w) (domainReply w)
         (random w)
         (fst (selectRange (clock w) timeRange customStart customEnd))
         (snd (selectRange (clock w) timeRange customStart customEnd))
       = Some postHogData
    /\ data = mergedData lemonData postHogData.
Proof.
  unfold getDashboardData.
  destruct (selectRange (clock w) timeRange customStart customEnd)
    as [startDate endDate]. simpl.
  destruct (fetchLemonSqueezyData fuel (lemonEnv w) (lemonApi w)
              startDate endDate []) as [[[lemonData|msg] tr]|];
    try discriminate.
  destruct (fetchPostHogData fuel (postHogEnv w) (trendReply w)
              (domainReply w) (random w) startDate endDate)
    as [postHogData|]; try discriminate.
  intros [= <-]. exists lemonData, tr, postHogData. auto.
Qed.

(** the analytics fetcher returns when the budget covers the days *)
Lemma fetchPostHogData_total (fuel : nat) (env : PostHogEnv)
  (trend domain : HttpReply) (rand : Rng) (startDate endDate : Z) :
  (dayCount startDate endDate <= fuel)%nat ->
  exists postHogData,
    fetchPostHogData fuel env trend domain rand startDate endDate
    = Some postHogData.
Proof.
  intros Hfuel.
  destruct (generateMockLoop_total rand endDate fuel 0%nat startDate []
              Hfuel) as [mock [Hmock _]].
  unfold fetchPostHogData, generateMockPostHogData.
  destruct (missing (POSTHOG_API_KEY env) || missing (POSTHOG_PROJECT_ID env));
    [eauto|].
  destruct (postHogTry trend domain); eauto.
Qed.

Lemma merged_nonempty (lemonData : list LS.t) (postHogData : list PH.t) :
  mergedData lemonData postHogData <> [] -> lemonData <> [].
Proof. intros H ->. now apply H. Qed.

Lemma find_date_hit (postHogData : list PH.t) (d : DateKey) :
  In d (map PH.date postHogData) ->
  exists p, find (fun p => PH.date p =? d) postHogData = Some p
            /\ In p postHogData.
Proof.
  induction postHogData as [|p rest IH]; simpl; [tauto|].
  intros Hin. destruct (Z.eqb_spec (PH.date p) d) as [Heq|Hne].
  - exists p. auto.
  - destruct Hin as [Heq|Hin]; [contradiction|].
    destruct (IH Hin) as [q [Hfind Hq]]. exists q. auto.
Qed.

(** X21. Without a billing API key the dashboard has no rows at all,
    whatever the range and whatever the analytics side returns: the merge
    walks the billing series only.  The call does return, with the empty
    list, once the budget covers the days of the selected range. *)
Theorem dashboard_is_empty_without_billing_key (fuel : nat) (w : World)
  (timeRange : string) (customStart customEnd : option Z) :
  missing (LEMONSQUEEZY_API_KEY (lemonEnv w)) = true ->
  (dayCount (fst (selectRange (clock w) timeRange customStart customEnd))
            (snd (selectRange (clock w) timeRange customStart customEnd))
   <= fuel)%nat ->
  getDashboardData fuel w timeRange customStart customEnd = Some [].
Proof.
  intros Hkey Hfuel. unfold getDashboardData.
  destruct (selectRange (clock w) timeRange customStart customEnd)
    as [startDate endDate]. simpl in Hfuel.
  destruct (fetchPostHogData_total fuel (postHogEnv w) (trendReply w)
              (domainReply w) (random w) startDate endDate Hfuel)
    as [postHogData ->].
  unfold fetchLemonSqueezyData. rewrite Hkey. reflexivity.
Qed.

Lemma dashboard_is_empty_without_billing_key_witness :
  getDashboardData 40 worldNoBilling "7d" None None = Some [].
Proof.
  apply (dashboard_is_empty_without_billing_key 40 worldNoBilling "7d"
           None None); [reflexivity | vm_compute; lia].
Defined.

(** X22. A range name handled by [setDate] (7d, 14d, 30d, 90d, an unknown
    name, or custom without both bounds), with both clock readings on the
    same day: the range starts exactly n days before the second reading and
    ends at the first.  A non-empty dashboard then starts n days before
    today; it has n + 1 rows, the last one today, when the two readings
    agree, and n rows, the last one yesterday, when the second reading is
    later. *)
Theorem preset_range_rows (fuel : nat) (w : World) (timeRange : string)
  (customStart customEnd : option Z) :
  isPreset timeRange customStart customEnd = true ->
  isoDay (clock w 0%nat) = isoDay (clock w 1%nat) ->
  clock w 0%nat <= clock w 1%nat ->
  selectRange (clock w) timeRange customStart customEnd
  = (clock w 1%nat - daysBack timeRange * MS_PER_DAY, clock w 0%nat)
  /\ forall data,
       getDashboardData fuel w timeRange customStart customEnd = Some data ->
       data <> [] ->
       map DD.date data
       = consecutive (isoDay (clock w 0%nat) - daysBack timeRange)
           (if clock w 1%nat =? clock w 0%nat
            then S (Z.to_nat (daysBack timeRange))
            else Z.to_nat (daysBack timeRange)).
Proof.
  intros Hpreset Hday Hle.
  assert (Hrange : selectRange (clock w) timeRange customStart customEnd
                   = (clock w 1%nat - daysBack timeRange * MS_PER_DAY,
                      clock w 0%nat)).
  { rewrite selectRange_preset by assumption.
    now rewrite instSetDate_same_day by assumption. }
  split; [exact Hrange|].
  intros data Hrun Hne.
  apply getDashboardData_inv in Hrun.
  destruct Hrun as [lemonData [tr [postHogData [Hlemon [_ ->]]]]].
  rewrite Hrange in Hlemon. simpl in Hlemon.
  rewrite merged_dates.
  apply merged_nonempty in Hne.
  rewrite (ledger_days _ _ _ _ _ _ _ Hlemon Hne).
  rewrite isoDay_back, <- Hday.
  assert (Hn : exists n, daysBack timeRange = Z.of_nat n /\ (1 <= n)%nat).
  { unfold daysBack.
    destruct (String.eqb timeRange "7d"); [exists 7%nat; split; [reflexivity|lia]|].
    destruct (String.eqb timeRange "14d"); [exists 14%nat; split; [reflexivity|lia]|].
    destruct (String.eqb timeRange "90d"); [exists 90%nat; split; [reflexivity|lia]|].
    exists 30%nat; split; [reflexivity|lia]. }
  destruct Hn as [n [-> Hn]]. rewrite Nat2Z.id.
  f_equal. apply dayCount_back; [assumption | assumption |].
  unfold isoDay in Hday.
  pose proof (Z.div_mod (clock w 0%nat) MS_PER_DAY ltac:(discriminate)).
  pose proof (Z.div_mod (clock w 1%nat) MS_PER_DAY ltac:(discriminate)).
  pose proof (Z.mod_pos_bound (clock w 0%nat) MS_PER_DAY ltac:(reflexivity)).
  pose proof (Z.mod_pos_bound (clock w 1%nat) MS_PER_DAY ltac:(reflexivity)).
  rewrite Hday in *. lia.
Qed.

Lemma preset_range_rows_witness :
  selectRange clockTick "7d" None None
  = (clockTick 1%nat - 7 * MS_PER_DAY, clockTick 0%nat)
  /\ map DD.date
       (match getDashboardData 40
                {| clock := clockTick; lemonEnv := envEx;
                   lemonApi := apiSample; postHogEnv := postHogEnvEx;
                   trendReply := trendEx; domainReply := domainEx;
                   random := randomHalf |} "7d" None None with
        | Some data => data
        | None => []
        end)
     = consecutive 19780 7.
Proof.
  destruct (preset_range_rows 40
              {| clock := clockTick; lemonEnv := envEx;
                 lemonApi := apiSample; postHogEnv := postHogEnvEx;
                 trendReply := trendEx; domainReply := domainEx;
                 random := randomHalf |} "7d" None None)
    as [Hrange Hrows]; [reflexivity | reflexivity | vm_compute; discriminate|].
  split; [exact Hrange|].
  refine (Hrows _ _ _); [vm_compute; reflexivity | vm_compute; discriminate].
Defined.

(** X23. When the analytics side falls back to the mock (a missing
    credential) and the draws are in [0, 1), every row of the dashboard
    carries a mock record of its own date, never the zero default: visitors
    is in [500, 1000), pricingViews and checkouts are the mock's fractions of
    it, and the referring-domain counts add up to visitors. *)
Theorem dashboard_rows_carry_mock_analytics (fuel : nat) (w : World)
  (timeRange : string) (customStart customEnd : option Z)
  (data : list DD.t) :
  missing (POSTHOG_API_KEY (postHogEnv w)) = true
  \/ missing (POSTHOG_PROJECT_ID (postHogEnv w)) = true ->
  (forall n, (0 <= random w n)%Q /\ (random w n < 1)%Q) ->
  getDashboardData fuel w timeRange customStart customEnd = Some data ->
  forall r, In r data ->
    500 <= DD.visitors r < 1000
    /\ DD.pricingViews r = DD.visitors r * 3 / 10
    /\ DD.checkouts r = DD.pricingViews r / 10
    /\ sumCounts (DD.referringDomains r) = DD.visitors r.
Proof.
  intros Hcred Hrand Hrun r Hr.
  apply getDashboardData_inv in Hrun.
  destruct Hrun as [lemonData [tr [postHogData [Hlemon [Hpost ->]]]]].
  set (startDate := fst (selectRange (clock w) timeRange customStart customEnd))
    in *.
  set (endDate := snd (selectRange (clock w) timeRange customStart customEnd))
    in *.
  assert (Hmock : generateMockPostHogData fuel (random w) startDate endDate
                  = Some postHogData).
  { unfold fetchPostHogData in Hpost.
    destruct Hcred as [H|H]; rewrite H in Hpost; [exact Hpost|].
    rewrite orb_true_r in Hpost. exact Hpost. }
  unfold mergedData in Hr. apply in_map_iff in Hr.
  destruct Hr as [l [<- Hl]].
  assert (Hne : lemonData <> []) by (intros ->; contradiction).
  pose proof (ledger_days _ _ _ _ _ _ _ Hlemon Hne) as Hdays.
  assert (Hdates : map PH.date postHogData
                   = consecutive (isoDay startDate)
                                 (dayCount startDate endDate)).
  { unfold generateMockPostHogData in Hmock.
    apply (generateMockLoop_dates (random w) endDate fuel 0%nat startDate []
             (isoDay startDate) 0%nat postHogData) in Hmock;
      [exact Hmock | reflexivity | simpl; lia]. }
  assert (Hin : In (LS.date l) (map PH.date postHogData)).
  { rewrite Hdates, <- Hdays. now apply in_map. }
  destruct (find_date_hit postHogData (LS.date l) Hin) as [p [Hfind Hp]].
  assert (Hok : mockRecordOk p).
  { unfold generateMockPostHogData in Hmock.
    apply (generateMockLoop_ok (random w) Hrand endDate) in Hmock;
      [|constructor].
    rewrite Forall_forall in Hmock. now apply Hmock. }
  unfold mergeItem, postHogItemFor. rewrite Hfind. simpl.
  destruct Hok as [Hv [_ [_ [_ [Hpv [Hco [_ Hsum]]]]]]].
  auto.
Qed.

Lemma dashboard_rows_carry_mock_analytics_witness :
  Forall (fun r =>
            500 <= DD.visitors r < 1000
            /\ DD.pricingViews r = DD.visitors r * 3 / 10
            /\ DD.checkouts r = DD.pricingViews r / 10
            /\ sumCounts (DD.referringDomains r) = DD.visitors r)
    (match getDashboardData 40 worldEx "7d" None None with
     | Some data => data
     | None => []
     end).
Proof.
  apply Forall_forall.
  apply (dashboard_rows_carry_mock_analytics 40 worldEx "7d" None None).
  - left. reflexivity.
  - intros n. split; [discriminate | reflexivity].
  - vm_compute. reflexivity.
Defined.

(** [b.setDate(a.getDate() - n)] in a zone that keeps one offset, with [a]
    and [b] on the same day of the wall clock, moves [b] back by [n] whole
    days *)
Lemma localSetDate_same_day (off a b n : Z) :
  localDay (fixedOffset off) a = localDay (fixedOffset off) b ->
  localSetDate (fixedOffset off) b (localGetDate (fixedOffset off) a - n)
  = b - n * MS_PER_DAY.
Proof.
  intros Hday. unfold localSetDate, localGetDate, setDate. rewrite Hday.
  unfold localDay, localTime, isoDay, fixedOffset; cbn [offsetAt utcOfLocal].
  pose proof (Z.div_mod (b + off) MS_PER_DAY ltac:(discriminate)) as Hb.
  set (q := (b + off) / MS_PER_DAY) in *.
  set (r := (b + off) mod MS_PER_DAY) in *.
  set (g := getDate q). lia.
Qed.

(** X24. The simple view asks for yesterday and today with two readings of
    the browser's clock.  In a browser whose time zone keeps one offset from
    UTC all year, with both readings on the same day of the wall clock:
    yesterday is exactly one day before the second reading, and a non-empty
    result starts on the UTC day of that instant; it has two rows when the
    readings agree, and that single row when the second reading is later. *)
Theorem simple_view_rows (fuel : nat) (w : World) (off : Z)
  (clientClock : Clock) (data : list DD.t) :
  localDay (fixedOffset off) (clientClock 0%nat)
  = localDay (fixedOffset off) (clientClock 1%nat) ->
  clientClock 0%nat <= clientClock 1%nat ->
  simpleViewData fuel w (fixedOffset off) clientClock = Some data ->
  data <> [] ->
  simpleViewRange (fixedOffset off) clientClock
  = (clientClock 1%nat - MS_PER_DAY, clientClock 0%nat)
  /\ map DD.date data
     = consecutive (isoDay (clientClock 1%nat) - 1)
         (if clientClock 1%nat =? clientClock 0%nat then 2 else 1).
Proof.
  intros Hday Hle Hrun Hne.
  assert (Hrange : simpleViewRange (fixedOffset off) clientClock
                   = (clientClock 1%nat - MS_PER_DAY, clientClock 0%nat)).
  { unfold simpleViewRange.
    rewrite localSetDate_same_day by assumption.
    now rewrite Z.mul_1_l. }
  split; [exact Hrange|].
  unfold simpleViewData in Hrun. rewrite Hrange in Hrun.
  apply getDashboardData_inv in Hrun.
  destruct Hrun as [lemonData [tr [postHogData [Hlemon [_ ->]]]]].
  assert (Hsel : forall s e,
            selectRange (clock w) "custom" (Some s) (Some e) = (s, e))
    by reflexivity.
  rewrite Hsel in Hlemon. cbn [fst snd] in Hlemon.
  rewrite merged_dates. apply merged_nonempty in Hne.
  rewrite (ledger_days _ _ _ _ _ _ _ Hlemon Hne).
  replace (clientClock 1%nat - MS_PER_DAY)
    with (clientClock 1%nat - Z.of_nat 1 * MS_PER_DAY)
    by (change (Z.of_nat 1) with 1; lia).
  rewrite isoDay_back. change (Z.of_nat 1) with 1 at 1. f_equal.
  apply dayCount_back; [lia | assumption |].
  unfold localDay, localTime, isoDay, fixedOffset in Hday;
    cbn [offsetAt] in Hday.
  pose proof (Z.div_mod (clientClock 0%nat + off) MS_PER_DAY
                ltac:(discriminate)).
  pose proof (Z.div_mod (clientClock 1%nat + off) MS_PER_DAY
                ltac:(discriminate)).
  pose proof (Z.mod_pos_bound (clientClock 0%nat + off) MS_PER_DAY
                ltac:(reflexivity)).
  pose proof (Z.mod_pos_bound (clientClock 1%nat + off) MS_PER_DAY
                ltac:(reflexivity)).
  rewrite Hday in *. lia.
Qed.

(** 2024-03-05, 10:00 UTC, in a browser five hours west of UTC, the second
    reading a millisecond after the first: the only row is 2024-03-04. *)
Lemma simple_view_rows_witness :
  simpleViewRange (fixedOffset (-18000000)) clockTick
  = (clockTick 1%nat - MS_PER_DAY, clockTick 0%nat)
  /\ map DD.date
       (match simpleViewData 40 worldEx (fixedOffset (-18000000)) clockTick
        with
        | Some data => data
        | None => []
        end)
     = consecutive 19786 1.
Proof.
  refine (simple_view_rows 40 worldEx (-18000000) clockTick _ _ _ _ _);
    [reflexivity | vm_compute; discriminate | vm_compute; reflexivity
    | vm_compute; discriminate].
Defined.
